(** * Heatmap-Clips: time arithmetic, marker parsing, ranking and clip intervals

    A shallow embedding of [heatmap_clips.py].  Python integers are [Z],
    Python floats are the rationals they denote ([Q]), strings are lists of
    Unicode code points, exceptions are an error monad, and the list of
    [Heatmap] objects owned by a [VideoHeatmap] is a store indexed by
    position, so that two names for one object are two uses of one index and
    an assignment to the object is seen through both. *)

From Stdlib Require Import ZArith QArith Qround Lqa String Ascii List Sorted Lia Bool.
From stdpp Require Import base option list.
Import ListNotations.

Local Open Scope Z_scope.

(** ** Python values *)

(** The exceptions the modelled code can raise. *)
Inductive exn : Type :=
| ValueError   (* datetime.time() given a field out of range *)
| KeyError     (* subscript of a dict with a missing key *)
| NameError    (* use of a name that is bound nowhere *)
| TypeError    (* comparison with None *)
| OverflowError. (* an integer too large for a float or for a C int *)

(** A computation returns a value or raises. *)
Inductive result (A : Type) : Type :=
| Ok (a : A)
| Raise (e : exn).
Arguments Ok {A} a.
Arguments Raise {A} e.

#[global] Instance result_ret : MRet result := fun A a => Ok a.
#[global] Instance result_bind : MBind result := fun A B f m =>
  match m with
  | Ok a => f a
  | Raise e => Raise e
  end.

(** Evaluating [f] on each element in order, stopping at the first raise:
    a [for] loop or comprehension whose body can raise. *)
Fixpoint for_each {A B : Type} (f : A -> result B) (l : list A) : result (list B) :=
  match l with
  | [] => Ok []
  | x :: xs => y ← f x; ys ← for_each f xs; Ok (y :: ys)
  end.

(** A Python [str]: its code points. *)
Definition str : Type := list N.

(** A string literal of ASCII characters as a [str]. *)
Definition str_of (s : string) : str := map N_of_ascii (list_ascii_of_string s).
Coercion str_of : string >-> str.

(** An [int] or a [float]; a finite float is the rational it denotes. *)
Inductive number : Type :=
| PyInt (z : Z)
| PyFloat (q : Q).

(** The value of a number, for comparisons across the two types. *)
Definition number_Q (x : number) : Q :=
  match x with
  | PyInt z => inject_Z z
  | PyFloat q => q
  end.

(** [round(q)] with one argument: the nearest integer, a tie going to the
    even neighbour. *)
Definition py_round (q : Q) : Z :=
  let f := Qfloor q in
  match Qcompare (q - inject_Z f) (1 # 2) with
  | Lt => f
  | Gt => f + 1
  | Eq => if Z.even f then f else f + 1
  end.

(** [int(x)] for a float: truncation toward zero. *)
Definition py_int (q : Q) : Z := Z.quot (Qnum q) (Zpos (Qden q)).

(** The least magnitude that rounds past the largest float. *)
Definition float_overflow : Z := 2 ^ 1024 - 2 ^ 970.

(** [a / b] on integers, for a positive [b]: the quotient as a float.  The
    float is the nearest one to the quotient and not the quotient itself; the
    code only uses it where the two cannot be told apart (see
    [milliseconds_to_time] and [chapter_clip_times]). *)
Definition true_div (a : Z) (b : positive) : result Q :=
  if float_overflow * Zpos b <=? Z.abs a then Raise OverflowError
  else Ok (a # b).

(** [l[:n]]: a negative [n] counts from the end. *)
Definition slice_to {A : Type} (l : list A) (n : Z) : list A :=
  if 0 <=? n then firstn (Z.to_nat n) l
  else firstn (Z.to_nat (Z.of_nat (length l) + n)) l.

(** ** datetime.time *)

Module datetime.

(** The values that [datetime.time(hour, minute, second)] returns: naive
    times of day whose microsecond is 0.  The code builds every time so;
    [tzinfo] and the microsecond, which [time_to_seconds] would ignore, are left
    out, and nothing below is said of a time that has them. *)
Record time : Type := mk_time { hour : Z; minute : Z; second : Z }.

(** The integers that fit a C [int]. *)
Definition c_int (z : Z) : bool := (- 2 ^ 31 <=? z) && (z <? 2 ^ 31).

(** [datetime.time(hour, minute, second)]: the arguments are converted to C
    [int]s first, which raises [OverflowError] for one that does not fit; then
    each field is range-checked. *)
Definition time_new (h m s : Z) : result time :=
  if negb (c_int h && c_int m && c_int s) then Raise OverflowError
  else if (0 <=? h) && (h <? 24) && (0 <=? m) && (m <? 60) && (0 <=? s) && (s <? 60)
  then Ok (mk_time h m s)
  else Raise ValueError.

(** [a <= b] on times: hour, then minute, then second. *)
Definition leb (a b : time) : bool :=
  (hour a <? hour b)
  || ((hour a =? hour b)
      && ((minute a <? minute b)
          || ((minute a =? minute b) && (second a <=? second b)))).

(** The times that [time_new] returns. *)
Definition valid (t : time) : Prop :=
  0 <= hour t < 24 /\ 0 <= minute t < 60 /\ 0 <= second t < 60.

End datetime.

(** ** Time arithmetic *)

(** [int(milliseconds / 1000)] is written three times in the source and has
    one value.  Below 2^53 milliseconds the nearest float to the quotient
    truncates to the same integer as the quotient; from there on the hours of
    both lie beyond the C [int], so that the time is refused with the same
    [OverflowError]. *)
Definition milliseconds_to_time (milliseconds : Z) : result datetime.time :=
  q ← true_div milliseconds 1000;
  let secs := py_int q in
  datetime.time_new (secs / 3600) ((secs mod 3600) / 60) (secs mod 60).

(** A float is rounded to an integer first; the division and remainders are
    the flooring ones of Python, which [Z.div] and [Z.modulo] are for a
    positive divisor. *)
Definition seconds_to_time (seconds : number) : result datetime.time :=
  let seconds :=
    match seconds with
    | PyFloat q => py_round q
    | PyInt z => z
    end in
  datetime.time_new (seconds / 3600) ((seconds mod 3600) / 60) (seconds mod 60).

(** The seconds since midnight (the source's docstring says milliseconds). *)
Definition time_to_seconds (time : datetime.time) : Z :=
  (datetime.hour time * 60 + datetime.minute time) * 60 + datetime.second time.

(** ** Filenames *)

Section Filename.

(** The two Unicode character tables the code consults: [str.isspace], which
    [strip()] uses, and [str.isalnum], which with the underscore makes up the
    regular expression's [\w]. *)
Variable isspace : N -> bool.
Variable isalnum : N -> bool.

(** Whitespace is dropped from the front, and by [rstrip] from the back. *)
Fixpoint lstrip (s : str) : str :=
  match s with
  | [] => []
  | c :: s' => if isspace c then lstrip s' else s
  end.

Definition rstrip (s : str) : str := rev (lstrip (rev s)).

(** [s.strip()] *)
Definition strip (s : str) : str := rstrip (lstrip s).

(** [s.replace(' ', '_')] *)
Definition replace_space (s : str) : str :=
  map (fun c => if (c =? 32)%N then 95%N else c) s.

(** The class [[^-\w.]] of the pattern: not a hyphen, not a word character,
    not a period. *)
Definition word_char (c : N) : bool := isalnum c || (c =? 95)%N.

Definition pattern_matches (c : N) : bool :=
  negb ((c =? 45)%N || word_char c || (c =? 46)%N).

(** [re.sub(r'(?u)[^-\w.]', '', s)]: every character the class matches is
    replaced by the empty string. *)
Fixpoint re_sub_empty (s : str) : str :=
  match s with
  | [] => []
  | c :: s' => if pattern_matches c then re_sub_empty s' else c :: re_sub_empty s'
  end.

Definition valid_filename (filename : str) : str :=
  re_sub_empty (replace_space (strip filename)).

End Filename.

(** ** Data model *)

Module Thumbnail.
Record t : Type := { url : str; width : Z; height : Z }.
End Thumbnail.

Module Chapter.
Record t : Type := {
  title : str;
  start_time : datetime.time;
  end_time : datetime.time;
  thumbnails : list Thumbnail.t
}.
End Chapter.

Module Heatmap.
Record t : Type := {
  chapter : option Chapter.t;
  start_time : option datetime.time;
  end_time : option datetime.time;
  intensity_score_normalised : option Q
}.

(** Assignment to one attribute of the object. *)
Definition set_start_time (v : option datetime.time) (h : t) : t :=
  {| chapter := chapter h; start_time := v; end_time := end_time h;
     intensity_score_normalised := intensity_score_normalised h |}.

Definition set_end_time (v : option datetime.time) (h : t) : t :=
  {| chapter := chapter h; start_time := start_time h; end_time := v;
     intensity_score_normalised := intensity_score_normalised h |}.
End Heatmap.

#[global] Instance Heatmap_inhabited : Inhabited Heatmap.t :=
  populate {| Heatmap.chapter := None; Heatmap.start_time := None;
              Heatmap.end_time := None;
              Heatmap.intensity_score_normalised := None |}.

Module VideoHeatmap.
Record t : Type := { url : str; heatmaps : list Heatmap.t }.
End VideoHeatmap.

Module ClipAlign.
Inductive t : Type := left | center | right.
End ClipAlign.

(** The [ydl_info] dict of a [Video]: empty until [download] has run, then
    holding the keys the code reads. *)
Module Video.
Record info : Type := { id : option str; duration : option number }.
Record t : Type := { url : str; ydl_info : info }.
End Video.

(** [d[k]] for a key that may be missing. *)
Definition subscript {A : Type} (field : option A) : result A :=
  match field with
  | Some a => Ok a
  | None => Raise KeyError
  end.

(** ** Raw marker data *)

(** One [chapterRenderer]: [title] stands for [["title"]["simpleText"]] and
    [thumbnail] for [["thumbnail"]["thumbnails"]]. *)
Record chapterRenderer : Type := {
  cr_title : str;
  cr_timeRangeStartMillis : Z;
  cr_thumbnail : list Thumbnail.t
}.

(** One [heatMarkerRenderer].  The intensity is a number or the JSON
    [null], which the [Optional[float]] field of [Heatmap] takes as [None]. *)
Record heatMarkerRenderer : Type := {
  timeRangeStartMillis : Z;
  markerDurationMillis : Z;
  heatMarkerIntensityScoreNormalized : option Q
}.

(** The payload under ["value"]: the chapter list, the heat markers, or
    anything else. *)
Inductive marker_value : Type :=
| chapters_value (chapters : list chapterRenderer)
| heatmap_value (heatMarkers : list heatMarkerRenderer)
| other_value.

Record marker : Type := { key : str; value : marker_value }.

(** [a == b] on strings. *)
Definition str_eqb (a b : str) : bool := bool_decide (a = b).

(** The first entry of the marker data under a key, as the loop with its
    [break] finds it. *)
Fixpoint first_with_key (k : str) (marker_data : list marker) : option marker_value :=
  match marker_data with
  | [] => None
  | data :: rest => if str_eqb (key data) k then Some (value data)
                    else first_with_key k rest
  end.

(** ** Marker parser *)

(** A [for] loop that updates a state and whose body can raise. *)
Fixpoint for_fold {A S : Type} (body : S -> A -> result S) (l : list A) (s : S)
  : result S :=
  match l with
  | [] => Ok s
  | x :: xs => s' ← body s x; for_fold body xs s'
  end.

(** The chapter renderers of the marker data: none when the key is absent,
    a [KeyError] when the payload under the key is not a chapter list. *)
Definition chapter_data_of (marker_data : list marker) : result (list chapterRenderer) :=
  match first_with_key "DESCRIPTION_CHAPTERS"%string marker_data with
  | None => Ok []
  | Some (chapters_value l) => Ok l
  | Some _ => Raise KeyError
  end.

(** The [end_time] of the chapter at index [i], from the raw chapters that
    follow it: [chapter_data[i+1]] when [i+1 < len(chapter_data)], else the
    duration of the video. *)
Definition end_of (video : Video.t) (rest : list chapterRenderer)
  : result datetime.time :=
  match rest with
  | next :: _ => milliseconds_to_time (cr_timeRangeStartMillis next)
  | [] => d ← subscript (Video.duration (Video.ydl_info video)); seconds_to_time d
  end.

(** The loop over [range(0, len(chapter_data))], by recursion on the part of
    the list from index [i] on: its head is [chapter_data[i]]. *)
Fixpoint chapters_from (video : Video.t) (chapter_data : list chapterRenderer)
  : result (list Chapter.t) :=
  match chapter_data with
  | [] => Ok []
  | chapter :: rest =>
      end_time ← end_of video rest;
      start_time ← milliseconds_to_time (cr_timeRangeStartMillis chapter);
      chapters ← chapters_from video rest;
      Ok ({| Chapter.title := cr_title chapter;
             Chapter.start_time := start_time;
             Chapter.end_time := end_time;
             Chapter.thumbnails := cr_thumbnail chapter |} :: chapters)
  end.

Definition get_chapters (marker_data : list marker) (video : Video.t)
  : result (list Chapter.t) :=
  chapter_data ← chapter_data_of marker_data;
  chapters_from video chapter_data.

(** The heat marker renderers of the marker data, likewise. *)
Definition heatmap_data_of (marker_data : list marker)
  : result (list heatMarkerRenderer) :=
  match first_with_key "HEATSEEKER"%string marker_data with
  | None => Ok []
  | Some (heatmap_value l) => Ok l
  | Some _ => Raise KeyError
  end.

(** The inner loop: the running match is overwritten by every chapter that
    starts no later than the heat marker. *)
Definition matching_chapter_step (heatmap : heatMarkerRenderer)
    (matching_chapter : option Chapter.t) (chapter : Chapter.t)
  : result (option Chapter.t) :=
  t ← milliseconds_to_time (timeRangeStartMillis heatmap);
  Ok (if datetime.leb (Chapter.start_time chapter) t then Some chapter
      else matching_chapter).

(** One turn of the outer loop: the heatmap built from a raw heat marker. *)
Definition heatmap_of (chapters : list Chapter.t) (heatmap : heatMarkerRenderer)
  : result Heatmap.t :=
  matching_chapter ← for_fold (matching_chapter_step heatmap) chapters None;
  start_time ← milliseconds_to_time (timeRangeStartMillis heatmap);
  end_time ← milliseconds_to_time
               (timeRangeStartMillis heatmap + markerDurationMillis heatmap);
  Ok {| Heatmap.chapter := matching_chapter;
        Heatmap.start_time := Some start_time;
        Heatmap.end_time := Some end_time;
        Heatmap.intensity_score_normalised :=
          heatMarkerIntensityScoreNormalized heatmap |}.

Definition get_heatmaps (marker_data : list marker) (chapters : list Chapter.t)
  : result (list Heatmap.t) :=
  heatmap_data ← heatmap_data_of marker_data;
  for_each (heatmap_of chapters) heatmap_data.

(** ** Ranking and merge engine *)

(** The heatmaps of a [VideoHeatmap] are objects that several lists and a
    dict refer to at once.  The store is [self.heatmaps] itself; a reference
    to a heatmap is its position there. *)
Abbreviation store := (list Heatmap.t) (only parsing).
Abbreviation ref := nat (only parsing).

(** [x < y] on sort keys; a missing intensity cannot be compared. *)
Definition key_lt (x y : option Q) : result bool :=
  match x, y with
  | Some a, Some b => Ok (negb (Qle_bool b a))
  | _, _ => Raise TypeError
  end.

(** [x <= y] on optional times. *)
Definition time_le (x y : option datetime.time) : result bool :=
  match x, y with
  | Some a, Some b => Ok (datetime.leb a b)
  | _, _ => Raise TypeError
  end.

(** [sorted(..., key=..., reverse=True)] is the one stable arrangement by
    descending key; it is computed here by insertion.  An element is placed
    after those with a key strictly greater, hence before the elements of equal
    key that followed it in the input. *)
Fixpoint insert_desc (key : ref -> option Q) (x : ref) (l : list ref)
  : result (list ref) :=
  match l with
  | [] => Ok [x]
  | y :: ys =>
      lt ← key_lt (key x) (key y);
      if (lt : bool) then (rest ← insert_desc key x ys; Ok (y :: rest))
      else Ok (x :: l)
  end.

Fixpoint sorted_reverse (key : ref -> option Q) (l : list ref) : result (list ref) :=
  match l with
  | [] => Ok []
  | x :: xs => s ← sorted_reverse key xs; insert_desc key x s
  end.

(** An insertion-ordered dict from titles to heatmap references. *)
Abbreviation dict := (list (str * nat)) (only parsing).

Fixpoint dict_get (k : str) (d : dict) : option ref :=
  match d with
  | [] => None
  | (k', v) :: d' => if str_eqb k' k then Some v else dict_get k d'
  end.

(** [d[k] = v]: a present key keeps its place, a new key goes last. *)
Fixpoint dict_set (k : str) (v : ref) (d : dict) : dict :=
  match d with
  | [] => [(k, v)]
  | (k', v') :: d' => if str_eqb k' k then (k', v) :: d'
                      else (k', v') :: dict_set k v d'
  end.

(** [d.values()], in insertion order. *)
Definition dict_values (d : dict) : list ref := map snd d.

(** Truth value of an optional object: [None] is false, a model instance is
    true. *)
Definition truthy {A : Type} (o : option A) : bool :=
  match o with
  | Some _ => true
  | None => false
  end.

(** Assignments to the heatmaps stay when an exception follows them.  A
    computation that writes to the store therefore gives the store as it
    leaves it together with its outcome, a return or a raise. *)

(** The two conditional assignments that widen the entry already in the
    dict; [heatmap] and [merged_heatmap] are read through the store each time
    they are used. *)
Definition widen (heap : store) (heatmap merged_heatmap : ref)
  : store * result unit :=
  match time_le (Heatmap.start_time (heap !!! heatmap))
                (Heatmap.start_time (heap !!! merged_heatmap)) with
  | Raise e => (heap, Raise e)
  | Ok le_start =>
      let heap :=
        if (le_start : bool)
        then <[merged_heatmap :=
                 Heatmap.set_start_time (Heatmap.start_time (heap !!! heatmap))
                                        (heap !!! merged_heatmap)]> heap
        else heap in
      match time_le (Heatmap.end_time (heap !!! merged_heatmap))
                    (Heatmap.end_time (heap !!! heatmap)) with
      | Raise e => (heap, Raise e)
      | Ok le_end =>
          let heap :=
            if (le_end : bool)
            then <[merged_heatmap :=
                     Heatmap.set_end_time (Heatmap.end_time (heap !!! heatmap))
                                          (heap !!! merged_heatmap)]> heap
            else heap in
          (heap, Ok tt)
      end
  end.

(** One turn of the merge loop, on the store and the dict built so far. *)
Definition merge_step (count : Z) (st : store * dict) (heatmap : ref)
  : (store * dict) * result unit :=
  let '(heap, merged_heatmaps) := st in
  match Heatmap.chapter (heap !!! heatmap) with
  | None => (st, Ok tt)
  | Some chapter =>
      if negb (truthy (dict_get (Chapter.title chapter) merged_heatmaps))
         && (Z.of_nat (length merged_heatmaps) <=? count)
      then ((heap, dict_set (Chapter.title chapter) heatmap merged_heatmaps), Ok tt)
      else
        match dict_get (Chapter.title chapter) merged_heatmaps with
        | None => (st, Ok tt)
        | Some merged_heatmap =>
            let '(heap', outcome) := widen heap heatmap merged_heatmap in
            ((heap', merged_heatmaps), outcome)
        end
  end.

(** A [for] loop over a state that the body updates in place: an exception
    ends the loop and leaves the state as it is then. *)
Fixpoint for_state {A S : Type} (body : S -> A -> S * result unit) (l : list A)
    (s : S) : S * result unit :=
  match l with
  | [] => (s, Ok tt)
  | x :: xs =>
      let '(s', outcome) := body s x in
      match outcome with
      | Ok _ => for_state body xs s'
      | Raise e => (s', Raise e)
      end
  end.

(** [if x.chapter], for the heatmap a reference stands for. *)
Definition has_chapter (heap : store) (r : ref) : bool :=
  truthy (Heatmap.chapter (heap !!! r)).

(** The sort key: [lambda x: x.intensity_score_normalised]. *)
Definition intensity_key (heap : store) (r : ref) : option Q :=
  Heatmap.intensity_score_normalised (heap !!! r).

(** The call returns a list of heatmap objects of the receiver, or raises;
    the model gives the receiver as the call leaves it, and the outcome: the
    references that make up the returned list, or the exception. *)
Definition most_intense_heatmaps (self : VideoHeatmap.t) (merge : bool) (count : Z)
  : VideoHeatmap.t * result (list ref) :=
  let heap := VideoHeatmap.heatmaps self in
  match sorted_reverse (intensity_key heap) (seq 0 (length heap)) with
  | Raise e => (self, Raise e)
  | Ok sorted_heatmaps =>
      if negb merge
         || (Z.of_nat (length (filter (fun r => has_chapter heap r = true)
                                      sorted_heatmaps)) <? count)
      then (self, Ok (slice_to sorted_heatmaps count))
      else
        let '((heap', merged_heatmaps), outcome) :=
          for_state (merge_step count) sorted_heatmaps (heap, []) in
        ({| VideoHeatmap.url := VideoHeatmap.url self;
            VideoHeatmap.heatmaps := heap' |},
         _ ← outcome; Ok (dict_values merged_heatmaps))
  end.

(** The heatmap values a returned list of references denotes. *)
Definition deref (self : VideoHeatmap.t) (refs : list ref) : list Heatmap.t :=
  map (fun r => VideoHeatmap.heatmaps self !!! r) refs.

(** The chapters of the ranked heatmaps that have one. *)
Definition most_intense_chapters (self : VideoHeatmap.t) (merge : bool) (count : Z)
  : VideoHeatmap.t * result (list Chapter.t) :=
  let '(self', outcome) := most_intense_heatmaps self merge count in
  (self', refs ← outcome; Ok (omap Heatmap.chapter (deref self' refs))).

(** The [chapters] property.  Its body reads the name [video_heatmap], which
    is neither a parameter nor a local: it is looked up among the globals of
    the module, given here as what that name is bound to, if anything. *)
Definition chapters (global_video_heatmap : option VideoHeatmap.t)
    (self : VideoHeatmap.t) : result (list Chapter.t) :=
  match global_video_heatmap with
  | None => Raise NameError
  | Some video_heatmap =>
      Ok (omap Heatmap.chapter (VideoHeatmap.heatmaps video_heatmap))
  end.

(** No statement of [heatmap_clips.py] binds [video_heatmap] at module
    level. *)
Definition module_video_heatmap : option VideoHeatmap.t := None.

(** ** Clip intervals *)

(** What [generate_clip] hands to the media library:
    [VideoFileClip(...).subclip(t_start, t_end)], where a [t_end] of [None]
    means the end of the file. *)
Record subclip : Type := {
  file_name : str;
  clip_file_name : str;
  t_start : Z;
  t_end : option Z
}.

(** [z < d] for an integer [z] and a duration [d]. *)
Definition int_lt_number (z : Z) (d : number) : bool :=
  negb (Qle_bool (number_Q d) (inject_Z z)).

(** The arguments of [subclip]: a start that is not positive becomes 0, an
    end that is not before the duration becomes [None].  Writing the file is
    left to the media library. *)
Definition generate_clip (self : Video.t) (file_name clip_file_name : str)
    (start_time end_time : datetime.time) : result subclip :=
  let t_start :=
    if 0 <? time_to_seconds start_time then time_to_seconds start_time else 0 in
  duration ← subscript (Video.duration (Video.ydl_info self));
  let t_end :=
    if int_lt_number (time_to_seconds end_time) duration
    then Some (time_to_seconds end_time) else None in
  Ok {| file_name := str_of "tmp/videos/" ++ file_name;
        clip_file_name := str_of "tmp/clips/" ++ clip_file_name;
        t_start := t_start;
        t_end := t_end |}.

(** [if length:] holds for an integer other than zero. *)
Definition length_given (length : option Z) : option Z :=
  match length with
  | Some l => if l =? 0 then None else Some l
  | None => None
  end.

(** [x or y] for an optional time: every time object is true. *)
Definition or_else (x : option datetime.time) (y : datetime.time) : datetime.time :=
  match x with
  | Some t => t
  | None => y
  end.

(** The body of the loop of [generate_chapter_clips] up to the call of
    [generate_clip]: the [start_time] and [end_time] locals.  In the centred
    case [length/2] is a float; it and its sum with [middle] are exact below
    2^52, and beyond that the hour lies beyond the C [int] whatever the
    rounding, so that the time is refused with the same [OverflowError]. *)
Definition chapter_clip_times (chapter : Chapter.t) (align : option ClipAlign.t)
    (length : option Z)
  : result (option datetime.time * option datetime.time) :=
  match length_given length with
  | None => Ok (None, None)
  | Some length =>
      match align with
      | Some ClipAlign.left =>
          end_time ← seconds_to_time
            (PyInt (time_to_seconds (Chapter.start_time chapter) + length));
          Ok (Some (Chapter.start_time chapter), Some end_time)
      | Some ClipAlign.right =>
          start_time ← seconds_to_time
            (PyInt (time_to_seconds (Chapter.start_time chapter) - length));
          Ok (Some start_time, Some (Chapter.end_time chapter))
      | _ =>
          let middle :=
            (time_to_seconds (Chapter.start_time chapter)
             + time_to_seconds (Chapter.end_time chapter)) / 2 in
          half ← true_div length 2;
          start_time ← seconds_to_time (PyFloat (inject_Z middle - half)%Q);
          half ← true_div length 2;
          end_time ← seconds_to_time (PyFloat (inject_Z middle + half)%Q);
          Ok (Some start_time, Some end_time)
      end
  end.

Section Clips.

Variable isspace : N -> bool.
Variable isalnum : N -> bool.

(** One turn of the loop of [generate_chapter_clips]. *)
Definition generate_chapter_clip (self : Video.t) (align : option ClipAlign.t)
    (length : option Z) (chapter : Chapter.t) : result subclip :=
  '(start_time, end_time) ← chapter_clip_times chapter align length;
  id ← subscript (Video.id (Video.ydl_info self));
  generate_clip self
    (id ++ str_of ".webm")
    (valid_filename isspace isalnum (Chapter.title chapter) ++ str_of ".mp4")
    (or_else start_time (Chapter.start_time chapter))
    (or_else end_time (Chapter.end_time chapter)).

(** The function returns nothing; what it does is request clips.  The
    model gives the clips requested, in order, and how the loop ended: normally,
    or with the first exception, which no later chapter survives. *)
Fixpoint requested (turn : Chapter.t -> result subclip) (chapters : list Chapter.t)
  : list subclip * result unit :=
  match chapters with
  | [] => ([], Ok tt)
  | chapter :: rest =>
      match turn chapter with
      | Ok clip => let '(clips, ending) := requested turn rest in (clip :: clips, ending)
      | Raise e => ([], Raise e)
      end
  end.

Definition generate_chapter_clips (self : Video.t) (chapters : list Chapter.t)
    (align : option ClipAlign.t) (length : option Z) : list subclip * result unit :=
  requested (generate_chapter_clip self align length) chapters.

End Clips.

(** * The rest of the program *)

(** ** Heatmap clips *)

(** The times of a heatmap are optional, and the heatmap path can raise one
    exception more than the code above: [AttributeError], when a time that is
    [None] is asked for its hour. *)
Inductive attempt (A : Type) : Type :=
| Returns (a : A)
| Raises (e : exn)
| RaisesAttributeError.
Arguments Returns {A} a.
Arguments Raises {A} e.
Arguments RaisesAttributeError {A}.

#[global] Instance attempt_ret : MRet attempt := fun A a => Returns a.
#[global] Instance attempt_bind : MBind attempt := fun A B f m =>
  match m with
  | Returns a => f a
  | Raises e => Raises e
  | RaisesAttributeError => RaisesAttributeError
  end.

(** A computation of the code above, run where [AttributeError] is
    possible too. *)
Definition attempted {A : Type} (r : result A) : attempt A :=
  match r with
  | Ok a => Returns a
  | Raise e => Raises e
  end.

(** [time_to_seconds] on a time that may be [None]. *)
Definition time_to_seconds_of (time : option datetime.time) : attempt Z :=
  match time with
  | Some t => Returns (time_to_seconds t)
  | None => RaisesAttributeError
  end.

(** [x or y] where [y] too may be [None]. *)
Definition or_maybe (x y : option datetime.time) : option datetime.time :=
  match x with
  | Some t => Some t
  | None => y
  end.

(** The [start_time] and [end_time] locals of the loop of
    [generate_heatmap_clips]: the branches of [chapter_clip_times], on the
    heatmap's own times. *)
Definition heatmap_clip_times (heatmap : Heatmap.t) (align : option ClipAlign.t)
    (length : option Z)
  : attempt (option datetime.time * option datetime.time) :=
  match length_given length with
  | None => Returns (None, None)
  | Some length =>
      match align with
      | Some ClipAlign.left =>
          s ← time_to_seconds_of (Heatmap.start_time heatmap);
          end_time ← attempted (seconds_to_time (PyInt (s + length)));
          Returns (Heatmap.start_time heatmap, Some end_time)
      | Some ClipAlign.right =>
          s ← time_to_seconds_of (Heatmap.start_time heatmap);
          start_time ← attempted (seconds_to_time (PyInt (s - length)));
          Returns (Some start_time, Heatmap.end_time heatmap)
      | _ =>
          s ← time_to_seconds_of (Heatmap.start_time heatmap);
          e ← time_to_seconds_of (Heatmap.end_time heatmap);
          let middle := (s + e) / 2 in
          half ← attempted (true_div length 2);
          start_time ← attempted (seconds_to_time (PyFloat (inject_Z middle - half)%Q));
          half ← attempted (true_div length 2);
          end_time ← attempted (seconds_to_time (PyFloat (inject_Z middle + half)%Q));
          Returns (Some start_time, Some end_time)
      end
  end.

(** [generate_clip] called with times that may be [None]: the seconds of the
    start are computed first, those of the end next, and only then is the
    duration looked up. *)
Definition generate_clip_of (self : Video.t) (file_name clip_file_name : str)
    (start_time end_time : option datetime.time) : attempt subclip :=
  match start_time, end_time with
  | Some s, Some e => attempted (generate_clip self file_name clip_file_name s e)
  | _, _ => RaisesAttributeError
  end.

Section HeatmapClips.

(** [uuid4 n] is the text of the token that the [n]-th call of
    [uuid.uuid4()] returns. *)
Variable uuid4 : nat -> str.

(** One turn of the loop of [generate_heatmap_clips], [n] being the number
    of tokens drawn before it.  The file is named after the chapter title as it
    is, or after a fresh token. *)
Definition generate_heatmap_clip (self : Video.t) (align : option ClipAlign.t)
    (length : option Z) (n : nat) (heatmap : Heatmap.t) : nat * attempt subclip :=
  match heatmap_clip_times heatmap align length with
  | Returns (start_time, end_time) =>
      match subscript (Video.id (Video.ydl_info self)) with
      | Raise e => (n, Raises e)
      | Ok id =>
          let '(n', label) :=
            match Heatmap.chapter heatmap with
            | Some chapter => (n, Chapter.title chapter)
            | None => (S n, uuid4 n)
            end in
          (n', generate_clip_of self
                 (id ++ str_of ".webm")
                 (label ++ str_of ".mp4")
                 (or_maybe start_time (Heatmap.start_time heatmap))
                 (or_maybe end_time (Heatmap.end_time heatmap)))
      end
  | Raises e => (n, Raises e)
  | RaisesAttributeError => (n, RaisesAttributeError)
  end.

(** The clips requested for the heatmaps, in order, and how the loop
    ended. *)
Fixpoint requested_from (turn : nat -> Heatmap.t -> nat * attempt subclip)
    (n : nat) (heatmaps : list Heatmap.t) : list subclip * attempt unit :=
  match heatmaps with
  | [] => ([], Returns tt)
  | heatmap :: rest =>
      match turn n heatmap with
      | (n', Returns clip) =>
          let '(clips, ending) := requested_from turn n' rest in
          (clip :: clips, ending)
      | (_, Raises e) => ([], Raises e)
      | (_, RaisesAttributeError) => ([], RaisesAttributeError)
      end
  end.

Definition generate_heatmap_clips (self : Video.t) (heatmaps : list Heatmap.t)
    (align : option ClipAlign.t) (length : option Z) : list subclip * attempt unit :=
  requested_from (generate_heatmap_clip self align length) 0%nat heatmaps.

End HeatmapClips.

(** ** From the marker data to the video heatmap *)

(** [get_video_heatmap] from the marker data on.  The page fetch,
    [get_initial_data] and [get_marker_data] come before and hand over the
    marker data, which is a parameter here. *)
Definition get_video_heatmap (marker_data : list marker) (video : Video.t)
  : result VideoHeatmap.t :=
  chapters ← get_chapters marker_data video;
  heatmaps ← get_heatmaps marker_data chapters;
  Ok {| VideoHeatmap.url := Video.url video; VideoHeatmap.heatmaps := heatmaps |}.

(** ** The initial data in the page *)

(** [s.startswith(needle)] *)
Fixpoint starts_with (needle s : str) : bool :=
  match needle, s with
  | [], _ => true
  | _ :: _, [] => false
  | a :: needle', b :: s' => (a =? b)%N && starts_with needle' s'
  end.

(** The first occurrence of [needle] in [s]: the text before it and the text
    after it. *)
Fixpoint find (needle s : str) : option (str * str) :=
  if starts_with needle s then Some ([], drop (length needle) s)
  else
    match s with
    | [] => None
    | c :: s' =>
        match find needle s' with
        | Some (before, after) => Some (c :: before, after)
        | None => None
        end
    end.

(** [re.search(r"var ytInitialData = (.*?);<", html_content, re.DOTALL)] and
    its group 1.  The search tries the start positions from the left; at a
    start the literal must match, and then, the dot matching every character
    and the star being lazy, the group is the text up to the first [;<].  A
    start further right cannot match where one further left has failed for
    want of a [;<], so the match, if any, is at the first occurrence of the
    literal. *)
Definition search_initial_data (html_content : str) : option str :=
  match find (str_of "var ytInitialData = ") html_content with
  | None => None
  | Some (_, rest) =>
      match find (str_of ";<") rest with
      | None => None
      | Some (group1, _) => Some group1
      end
  end.

Section InitialData.

(** [json.loads] and the values it returns are not modelled. *)
Variable json : Type.
Variable json_loads : str -> attempt json.

(** A page without a match gives [None], whose [group] is an
    [AttributeError]. *)
Definition get_initial_data (html_content : str) : attempt json :=
  match search_initial_data html_content with
  | None => RaisesAttributeError
  | Some yt_initial_data => json_loads yt_initial_data
  end.

End InitialData.

(** ** The commands *)

(** [ClipAlign[align] if align else None]: a missing or empty name gives
    [None], a name of the enumeration its member, any other name a
    [KeyError]. *)
Definition parse_align (align : option str) : result (option ClipAlign.t) :=
  match align with
  | None | Some [] => Ok None
  | Some name =>
      if str_eqb name (str_of "left") then Ok (Some ClipAlign.left)
      else if str_eqb name (str_of "center") then Ok (Some ClipAlign.center)
      else if str_eqb name (str_of "right") then Ok (Some ClipAlign.right)
      else Raise KeyError
  end.

(** [if clip_count] and [if most_intense]. *)
Definition count_given (clip_count : option Z) : option Z := length_given clip_count.

Definition flag_given (most_intense : option bool) : bool :=
  match most_intense with
  | Some b => b
  | None => false
  end.

Section Commands.

Variable isspace : N -> bool.
Variable isalnum : N -> bool.
Variable uuid4 : nat -> str.

(** The two commands of [main.py].  Downloading the video and fetching the
    page are the work of other libraries: [video] is the video once
    downloaded and [marker_data] the marker data of its page. *)
Definition clip_heatmap (video : Video.t) (marker_data : list marker)
    (clip_length : option Z) (align : option str) (clip_count : option Z)
    (most_intense : option bool) : list subclip * attempt unit :=
  match parse_align align with
  | Raise e => ([], Raises e)
  | Ok align =>
      match get_video_heatmap marker_data video with
      | Raise e => ([], Raises e)
      | Ok video_heatmap =>
          let heatmaps : result (list Heatmap.t) :=
            match count_given clip_count with
            | Some count =>
                if flag_given most_intense
                then
                  let '(video_heatmap', outcome) :=
                    most_intense_heatmaps video_heatmap false count in
                  refs ← outcome; Ok (deref video_heatmap' refs)
                else Ok (slice_to (VideoHeatmap.heatmaps video_heatmap) count)
            | None => Ok (VideoHeatmap.heatmaps video_heatmap)
            end in
          match heatmaps with
          | Raise e => ([], Raises e)
          | Ok heatmaps => generate_heatmap_clips uuid4 video heatmaps align clip_length
          end
      end
  end.

Definition clip_chapters (video : Video.t) (marker_data : list marker)
    (clip_length : option Z) (align : option str) (clip_count : option Z)
    (most_intense : option bool) : list subclip * result unit :=
  match parse_align align with
  | Raise e => ([], Raise e)
  | Ok align =>
      match get_video_heatmap marker_data video with
      | Raise e => ([], Raise e)
      | Ok video_heatmap =>
          let chapters : result (list Chapter.t) :=
            match count_given clip_count with
            | Some count =>
                if flag_given most_intense
                then snd (most_intense_chapters video_heatmap false count)
                else all ← chapters module_video_heatmap video_heatmap;
                     Ok (slice_to all count)
            | None => chapters module_video_heatmap video_heatmap
            end in
          match chapters with
          | Raise e => ([], Raise e)
          | Ok chapters =>
              generate_chapter_clips isspace isalnum video chapters align clip_length
          end
      end
  end.

End Commands.

(** ** Notions the statements use *)

(** Milliseconds that fall within one day. *)
Definition within_day_ms (ms : Z) : Prop := 0 <= ms < 86400000.

(** The exception with which [datetime.time] refuses the hour of [s] seconds
    that lie outside the day: [ValueError] while the hour fits a C [int],
    [OverflowError] from 3600 * 2^31 seconds on, in either direction. *)
Definition refusal (s : Z) : exn :=
  if (- 3600 * 2 ^ 31 <=? s) && (s <? 3600 * 2 ^ 31) then ValueError
  else OverflowError.

(** Raw heat markers whose start and end fall within a day. *)
Definition marker_within_day (raw : heatMarkerRenderer) : Prop :=
  within_day_ms (timeRangeStartMillis raw)
  /\ within_day_ms (timeRangeStartMillis raw + markerDurationMillis raw).

(** The time of day that many seconds after midnight. *)
Definition seconds_past_midnight (s : Z) : datetime.time :=
  datetime.mk_time (s / 3600) ((s mod 3600) / 60) (s mod 60).

(** [str.isspace] and [str.isalnum] on the ASCII range. *)
Definition ascii_isspace (c : N) : bool :=
  ((c =? 32) || ((9 <=? c) && (c <=? 13)) || ((28 <=? c) && (c <=? 31)))%N.

Definition ascii_isalnum (c : N) : bool :=
  (((48 <=? c) && (c <=? 57)) || ((65 <=? c) && (c <=? 90))
   || ((97 <=? c) && (c <=? 122)))%N.

(** Tables that are the Unicode ones at least on the ASCII range. *)
Definition ascii_tables (isspace isalnum : N -> bool) : Prop :=
  forall c, (c < 128)%N -> isspace c = ascii_isspace c /\ isalnum c = ascii_isalnum c.

(** The filename as the specification words it: trim, put underscores for
    spaces, keep word characters, hyphens and periods. *)
Definition allowed_char (isalnum : N -> bool) (c : N) : bool :=
  isalnum c || (c =? 95)%N || (c =? 45)%N || (c =? 46)%N.

Definition filename_by_spec (isspace isalnum : N -> bool) (s : str) : str :=
  List.filter (allowed_char isalnum)
    (map (fun c => if (c =? 32)%N then 95%N else c) (strip isspace s)).

(** The scan over the chapters, once the heat marker's start is known to
    convert: a plain left fold that overwrites the running match. *)
Definition overwrite (t : datetime.time) (m : option Chapter.t) (c : Chapter.t)
  : option Chapter.t :=
  if datetime.leb (Chapter.start_time c) t then Some c else m.

(** [oc] is the last chapter of [chapters], in list order, that starts no
    later than [t]; it is [None] exactly when no chapter does. *)
Definition last_starting_by (chapters : list Chapter.t) (t : datetime.time)
    (oc : option Chapter.t) : Prop :=
  match oc with
  | Some c =>
      exists before after,
        chapters = before ++ c :: after
        /\ datetime.leb (Chapter.start_time c) t = true
        /\ Forall (fun c' => datetime.leb (Chapter.start_time c') t = false) after
  | None =>
      Forall (fun c' => datetime.leb (Chapter.start_time c') t = false) chapters
  end.

(** What the parser makes of one raw heat marker, given the chapters. *)
Definition extracted_from (chapters : list Chapter.t) (raw : heatMarkerRenderer)
    (h : Heatmap.t) : Prop :=
  exists t,
    milliseconds_to_time (timeRangeStartMillis raw) = Ok t
    /\ Heatmap.start_time h = Some t
    /\ last_starting_by chapters t (Heatmap.chapter h).

(** What the parser makes of one raw chapter, apart from its end. *)
Definition chapter_of_raw (raw : chapterRenderer) (c : Chapter.t) : Prop :=
  Chapter.title c = cr_title raw
  /\ milliseconds_to_time (cr_timeRangeStartMillis raw) = Ok (Chapter.start_time c)
  /\ Chapter.thumbnails c = cr_thumbnail raw.

(** Each chapter ends where the next one starts. *)
Definition consecutive (chapters : list Chapter.t) : Prop :=
  forall i c c',
    chapters !! i = Some c -> chapters !! S i = Some c' ->
    Chapter.end_time c = Chapter.start_time c'.

(** The last chapter ends at the duration. *)
Definition ends_at (duration : number) (chapters : list Chapter.t) : Prop :=
  forall c, last chapters = Some c -> seconds_to_time duration = Ok (Chapter.end_time c).

(** A gapless ordered partition of [[0, duration]], as the specification
    words it: the first chapter starts at 0, each chapter ends where the next
    starts, and the last ends at the duration. *)
Definition gapless_partition (duration : number) (chapters : list Chapter.t) : Prop :=
  (forall c, head chapters = Some c ->
             Chapter.start_time c = datetime.mk_time 0 0 0)
  /\ consecutive chapters
  /\ ends_at duration chapters.

(** In a ranking by descending key that keeps ties in their first order, [a]
    stands before [b] when its key is greater, or equal with [a] the earlier
    of the two in the list that was sorted. *)
Definition ranked_before (key : nat -> option Q) (a b : nat) : Prop :=
  exists x y,
    key a = Some x /\ key b = Some y
    /\ (y < x \/ (y == x /\ (a < b)%nat))%Q.

(** The number of chapter-bearing heatmaps in the sorted list, which the
    short-circuit compares with [count]. *)
Definition chaptered (heap : list Heatmap.t) (sorted_heatmaps : list nat) : Z :=
  Z.of_nat (length (filter (fun r => has_chapter heap r = true) sorted_heatmaps)).

(** The lesser and the greater of two times, in the order of
    [datetime.time]. *)
Definition is_minimum (m a b : datetime.time) : Prop :=
  (m = a \/ m = b) /\ datetime.leb m a = true /\ datetime.leb m b = true.

Definition is_maximum (m a b : datetime.time) : Prop :=
  (m = a \/ m = b) /\ datetime.leb a m = true /\ datetime.leb b m = true.

(** A heatmap with its times and intensity present, as the parser builds
    it from a heat marker whose intensity is not null. *)
Definition complete (h : Heatmap.t) : Prop :=
  is_Some (Heatmap.start_time h) /\ is_Some (Heatmap.end_time h)
  /\ is_Some (Heatmap.intensity_score_normalised h).

(** [h'] is [h] with its interval possibly widened: the same chapter and
    intensity, a start that is the same or earlier, an end that is the same or
    later. *)
Definition start_not_later (h h' : Heatmap.t) : Prop :=
  Heatmap.start_time h' = Heatmap.start_time h
  \/ exists a b, Heatmap.start_time h = Some a /\ Heatmap.start_time h' = Some b
                 /\ datetime.leb b a = true.

Definition end_not_earlier (h h' : Heatmap.t) : Prop :=
  Heatmap.end_time h' = Heatmap.end_time h
  \/ exists a b, Heatmap.end_time h = Some a /\ Heatmap.end_time h' = Some b
                 /\ datetime.leb a b = true.

Definition widened (h h' : Heatmap.t) : Prop :=
  Heatmap.chapter h' = Heatmap.chapter h
  /\ Heatmap.intensity_score_normalised h' = Heatmap.intensity_score_normalised h
  /\ start_not_later h h'
  /\ end_not_earlier h h'.

(** What the merge loop keeps true of the store and the dict, [heap0] being
    the store the call began with. *)
Definition merge_inv (heap0 : list Heatmap.t) (st : list Heatmap.t * list (str * nat)) : Prop :=
  length (fst st) = length heap0
  /\ (forall i, widened (heap0 !!! i) (fst st !!! i))
  /\ (forall i, ~ In i (dict_values (snd st)) -> fst st !!! i = heap0 !!! i).

(** What the loop keeps true when every heatmap is complete: the store keeps
    its [n] complete heatmaps and the dict refers into it. *)
Definition complete_inv (n : nat) (st : list Heatmap.t * list (str * nat)) : Prop :=
  length (fst st) = n
  /\ (forall i, (i < n)%nat -> complete (fst st !!! i))
  /\ Forall (fun j => (j < n)%nat) (dict_values (snd st)).

(** The dict never holds a title twice, and never more than [count + 1]
    titles. *)
Definition admission_inv (count : Z) (st : list Heatmap.t * list (str * nat)) : Prop :=
  NoDup (map fst (snd st))
  /\ Z.of_nat (length (snd st)) <= Z.max 0 (count + 1).

(** A video whose [ydl_info] holds this id and this duration. *)
Definition downloaded (id : str) (d : number) (self : Video.t) : Prop :=
  Video.id (Video.ydl_info self) = Some id
  /\ Video.duration (Video.ydl_info self) = Some d.

(** The request for the seconds [a] to [b] of the video [id], of duration
    [d], to be written under [label]. *)
Definition clip_between (id label : str) (d : number) (a b : Z) : subclip :=
  {| file_name := str_of "tmp/videos/" ++ id ++ str_of ".webm";
     clip_file_name := str_of "tmp/clips/" ++ label ++ str_of ".mp4";
     t_start := Z.max 0 a;
     t_end := if int_lt_number b d then Some b else None |}.

(** Seconds that [seconds_to_time] accepts. *)
Definition within_day (s : Z) : bool := (0 <=? s) && (s <? 86400).

(** What a request cuts out of which file, apart from where it is written. *)
Definition interval (clip : subclip) : str * Z * option Z :=
  (file_name clip, t_start clip, t_end clip).

(** A heatmap over the interval of a chapter. *)
Definition same_times (h : Heatmap.t) (c : Chapter.t) : Prop :=
  Heatmap.start_time h = Some (Chapter.start_time c)
  /\ Heatmap.end_time h = Some (Chapter.end_time c).

(** The times a heatmap must have for its turn of the loop of
    [generate_heatmap_clips] to reach the media library: the start always, the
    end unless a left-aligned length makes up for it. *)
Definition clippable (align : option ClipAlign.t) (length : option Z)
    (h : Heatmap.t) : Prop :=
  is_Some (Heatmap.start_time h)
  /\ (is_Some (Heatmap.end_time h)
      \/ (align = Some ClipAlign.left /\ length <> None /\ length <> Some 0)).

Definition chapterless (h : Heatmap.t) : bool := negb (truthy (Heatmap.chapter h)).

(** The label of the clip of the heatmap at index [i]: its chapter title, or
    the token whose number is the count of chapterless heatmaps before it. *)
Definition label_at (uuid4 : nat -> str) (heatmaps : list Heatmap.t) (i : nat)
    (h : Heatmap.t) : str :=
  match Heatmap.chapter h with
  | Some c => Chapter.title c
  | None => uuid4 (length (List.filter chapterless (take i heatmaps)))
  end.

(** The number of heatmaps that have a chapter. *)
Definition chaptered_count (heap : list Heatmap.t) : Z :=
  Z.of_nat (length (List.filter (fun h => truthy (Heatmap.chapter h)) heap)).

(** [H] starts no later and ends no earlier than [h]. *)
Definition covers (H h : Heatmap.t) : Prop :=
  start_not_later h H /\ end_not_earlier h H.

(** Every key of the dict is the chapter title of the heatmap it refers
    to. *)
Definition titled (heap : list Heatmap.t) (d : list (str * nat)) : Prop :=
  forall k r, In (k, r) d ->
    exists c, Heatmap.chapter (heap !!! r) = Some c /\ Chapter.title c = k.

(** What the merge loop keeps true after the heatmaps [seen]: the dict
    refers to heatmaps seen, in the order they were seen, and each heatmap seen
    whose title is in the dict is covered by the entry of its title; a title
    seen and not in the dict was turned away by a full dict. *)
Definition merge_run_inv (heap0 : list Heatmap.t) (count : Z) (seen : list nat)
    (st : list Heatmap.t * list (str * nat)) : Prop :=
  merge_inv heap0 st
  /\ admission_inv count st
  /\ titled (fst st) (snd st)
  /\ sublist (dict_values (snd st)) seen
  /\ (forall i c,
        In i seen -> Heatmap.chapter (heap0 !!! i) = Some c ->
        match dict_get (Chapter.title c) (snd st) with
        | Some j => covers (fst st !!! j) (heap0 !!! i)
        | None => count < Z.of_nat (length (snd st))
        end).

(** The names of the members of [ClipAlign]. *)
Definition align_name (a : ClipAlign.t) : str :=
  match a with
  | ClipAlign.left => str_of "left"
  | ClipAlign.center => str_of "center"
  | ClipAlign.right => str_of "right"
  end.

(** [needle] stands in [s] at index [i]. *)
Definition occurs_at (needle s : str) (i : nat) : Prop :=
  take (length needle) (drop i s) = needle.

(** What the parser makes of the times and the intensity of a raw heat
    marker: whole seconds, cut off toward zero, in increasing order when the
    marker's duration is not negative; the intensity as it is, [None] for a
    null. *)
Definition interval_of_raw (raw : heatMarkerRenderer) (h : Heatmap.t) : Prop :=
  exists s e,
    Heatmap.start_time h = Some s /\ Heatmap.end_time h = Some e
    /\ Heatmap.intensity_score_normalised h = heatMarkerIntensityScoreNormalized raw
    /\ time_to_seconds s = Z.quot (timeRangeStartMillis raw) 1000
    /\ time_to_seconds e
       = Z.quot (timeRangeStartMillis raw + markerDurationMillis raw) 1000
    /\ (0 <= markerDurationMillis raw -> datetime.leb s e = true).

(** ** Inputs the statements are tried on *)

Definition chapter_at (title : string) (start_s end_s : Z) : Chapter.t :=
  {| Chapter.title := str_of title;
     Chapter.start_time := seconds_past_midnight start_s;
     Chapter.end_time := seconds_past_midnight end_s;
     Chapter.thumbnails := [] |}.

Definition heatmap_at (chapter : option Chapter.t) (start_s end_s : Z)
    (intensity : Q) : Heatmap.t :=
  {| Heatmap.chapter := chapter;
     Heatmap.start_time := Some (seconds_past_midnight start_s);
     Heatmap.end_time := Some (seconds_past_midnight end_s);
     Heatmap.intensity_score_normalised := Some intensity |}.

Definition raw_chapter (title : string) (start_ms : Z) : chapterRenderer :=
  {| cr_title := str_of title; cr_timeRangeStartMillis := start_ms;
     cr_thumbnail := [] |}.

(** A downloaded video of 100 seconds. *)
Definition video_100s : Video.t :=
  {| Video.url := str_of "https://youtu.be/abc";
     Video.ydl_info := {| Video.id := Some (str_of "abc");
                          Video.duration := Some (PyInt 100) |} |}.

(** A downloaded video of 180 seconds. *)
Definition video_180s : Video.t :=
  {| Video.url := str_of "https://youtu.be/abc";
     Video.ydl_info := {| Video.id := Some (str_of "abc");
                          Video.duration := Some (PyInt 180) |} |}.

(** Marker data with three chapters, at 0s, 60s and 120s, and one heat
    marker of ten seconds at 90s. *)
Definition three_chapter_markers : list marker :=
  [ {| key := str_of "DESCRIPTION_CHAPTERS";
       value := chapters_value
                  [raw_chapter "One" 0; raw_chapter "Two" 60000;
                   raw_chapter "Three" 120000] |};
    {| key := str_of "HEATSEEKER";
       value := heatmap_value
                  [ {| timeRangeStartMillis := 90000;
                       markerDurationMillis := 10000;
                       heatMarkerIntensityScoreNormalized := Some (7 # 10) |} ] |} ].

(** Marker data whose only chapter begins five seconds into the video. *)
Definition late_chapter_markers : list marker :=
  [ {| key := str_of "DESCRIPTION_CHAPTERS";
       value := chapters_value [raw_chapter "A" 5000] |} ].

(** Five heatmaps without chapters, with the intensities 0.9, 0.1, 0.8, 0.5
    and 0.95. *)
Definition five_heatmaps : VideoHeatmap.t :=
  {| VideoHeatmap.url := str_of "https://youtu.be/abc";
     VideoHeatmap.heatmaps :=
       [heatmap_at None 0 10 (9 # 10); heatmap_at None 10 20 (1 # 10);
        heatmap_at None 20 30 (8 # 10); heatmap_at None 30 40 (5 # 10);
        heatmap_at None 40 50 (95 # 100)] |}.

(** Two heatmaps of the chapter "Intro", over 10s-20s and 15s-30s. *)
Definition two_intro_heatmaps : VideoHeatmap.t :=
  {| VideoHeatmap.url := str_of "https://youtu.be/abc";
     VideoHeatmap.heatmaps :=
       [heatmap_at (Some (chapter_at "Intro" 0 60)) 10 20 (9 # 10);
        heatmap_at (Some (chapter_at "Intro" 0 60)) 15 30 (5 # 10)] |}.


(** A video that has not been downloaded: [ydl_info] is empty. *)
Definition video_not_downloaded : Video.t :=
  {| Video.url := str_of "https://youtu.be/abc";
     Video.ydl_info := {| Video.id := None; Video.duration := None |} |}.

(** Tokens told apart by their number. *)
Definition token (n : nat) : str := str_of "token-" ++ [N.of_nat (48 + n)].


(** A page with the initial data [{}] in a script. *)
Definition page_with_data : str :=
  str_of "<script>" ++ str_of "var ytInitialData = " ++ str_of "{}"
  ++ str_of ";<" ++ str_of "/script>".

(** * Proof tools *)

(** Case analysis on the outcome of the first computation of a bind. *)
Ltac bind_cases H :=
  match type of H with
  | context [mbind _ ?m] =>
      let E := fresh "E" in
      destruct m eqn:E; simpl in H; [|discriminate H]
  end.

(** The same, keeping the case of a raise. *)
Ltac bind_split H E :=
  match type of H with
  | context [mbind _ ?m] => destruct m eqn:E; simpl in H
  end.

(** Running the binds of both monads, and nothing else. *)
Ltac bind_red :=
  cbn [mbind result_bind attempt_bind attempted time_to_seconds_of fst snd].

(** * Properties of the time arithmetic *)

Lemma c_int_iff z : datetime.c_int z = true <-> - 2 ^ 31 <= z < 2 ^ 31.
Proof.
  unfold datetime.c_int. rewrite andb_true_iff, Z.leb_le, Z.ltb_lt. reflexivity.
Qed.

Lemma c_int_small z : -60 <= z < 60 -> datetime.c_int z = true.
Proof.
  intros Hz. apply c_int_iff.
  assert (2 ^ 31 = 2147483648) as -> by reflexivity. lia.
Qed.

Lemma time_new_Ok h m s :
  0 <= h < 24 -> 0 <= m < 60 -> 0 <= s < 60 ->
  datetime.time_new h m s = Ok (datetime.mk_time h m s).
Proof.
  intros Hh Hm Hs. unfold datetime.time_new.
  rewrite !c_int_small by lia. cbn [andb negb].
  replace (0 <=? h) with true by (symmetry; apply Z.leb_le; lia).
  replace (h <? 24) with true by (symmetry; apply Z.ltb_lt; lia).
  replace (0 <=? m) with true by (symmetry; apply Z.leb_le; lia).
  replace (m <? 60) with true by (symmetry; apply Z.ltb_lt; lia).
  replace (0 <=? s) with true by (symmetry; apply Z.leb_le; lia).
  replace (s <? 60) with true by (symmetry; apply Z.ltb_lt; lia).
  reflexivity.
Qed.

Lemma time_new_inv h m s t :
  datetime.time_new h m s = Ok t ->
  t = datetime.mk_time h m s /\ 0 <= h < 24 /\ 0 <= m < 60 /\ 0 <= s < 60.
Proof.
  unfold datetime.time_new.
  destruct (negb _); [discriminate|].
  destruct (Z.leb_spec 0 h), (Z.ltb_spec h 24), (Z.leb_spec 0 m),
    (Z.ltb_spec m 60), (Z.leb_spec 0 s), (Z.ltb_spec s 60);
    simpl; intros E; inversion E; subst; repeat split; lia.
Qed.

Lemma time_new_raises h m s e :
  datetime.time_new h m s = Raise e ->
  e = if datetime.c_int h && datetime.c_int m && datetime.c_int s
      then ValueError else OverflowError.
Proof.
  unfold datetime.time_new.
  destruct (datetime.c_int h && datetime.c_int m && datetime.c_int s); cbn [negb].
  - destruct (_ && _); intros E; inversion E; reflexivity.
  - intros E; inversion E; reflexivity.
Qed.

Lemma hms_of_seconds s :
  0 <= s ->
  0 <= (s mod 3600) / 60 < 60 /\ 0 <= s mod 60 < 60
  /\ (s / 3600 * 60 + (s mod 3600) / 60) * 60 + s mod 60 = s.
Proof.
  intros Hs.
  pose proof (Z.mod_pos_bound s 3600 ltac:(lia)) as H1.
  pose proof (Z.mod_pos_bound s 60 ltac:(lia)) as H2.
  pose proof (Z.div_mod s 3600 ltac:(lia)) as H3.
  pose proof (Z.div_mod (s mod 3600) 60 ltac:(lia)) as H4.
  assert (H5 : (s mod 3600) mod 60 = s mod 60).
  { apply Z.mod_mod_divide. exists 60. lia. }
  rewrite H5 in H4.
  assert (0 <= (s mod 3600) / 60 < 60).
  { split; [apply Z.div_pos; lia | apply Z.div_lt_upper_bound; lia]. }
  repeat split; lia.
Qed.

Lemma hms_of_seconds_range s :
  0 <= (s mod 3600) / 60 < 60 /\ 0 <= s mod 60 < 60.
Proof.
  pose proof (Z.mod_pos_bound s 3600 ltac:(lia)) as H1.
  pose proof (Z.mod_pos_bound s 60 ltac:(lia)) as H2.
  split; [|exact H2].
  split; [apply Z.div_pos; lia | apply Z.div_lt_upper_bound; lia].
Qed.

Lemma seconds_to_time_int_Ok s :
  0 <= s < 86400 ->
  seconds_to_time (PyInt s)
  = Ok (datetime.mk_time (s / 3600) ((s mod 3600) / 60) (s mod 60)).
Proof.
  intros Hs. unfold seconds_to_time.
  destruct (hms_of_seconds s) as (Hm & Hsec & _); [lia|].
  apply time_new_Ok; try lia.
  split; [apply Z.div_pos; lia | apply Z.div_lt_upper_bound; lia].
Qed.

Lemma seconds_to_time_int_inv s t :
  seconds_to_time (PyInt s) = Ok t -> 0 <= s < 86400 /\ time_to_seconds t = s.
Proof.
  unfold seconds_to_time. intros E.
  apply time_new_inv in E as (-> & Hh & Hm & Hs).
  assert (0 <= s).
  { destruct (Z.le_gt_cases 0 s) as [|Hneg]; [assumption|].
    assert (s / 3600 < 0) by (apply Z.div_lt_upper_bound; lia). lia. }
  assert (s < 86400).
  { destruct (Z.lt_ge_cases s 86400) as [|Hbig]; [assumption|].
    assert (24 <= s / 3600) by (apply Z.div_le_lower_bound; lia). lia. }
  split; [lia|].
  unfold time_to_seconds; simpl.
  destruct (hms_of_seconds s) as (_ & _ & Heq); lia.
Qed.

Lemma seconds_to_time_valid x t :
  seconds_to_time x = Ok t -> datetime.valid t.
Proof.
  unfold seconds_to_time. intros E.
  apply time_new_inv in E as (-> & Hh & Hm & Hs).
  unfold datetime.valid; simpl. lia.
Qed.

Lemma c_int_hour s :
  datetime.c_int (s / 3600) = (- 3600 * 2 ^ 31 <=? s) && (s <? 3600 * 2 ^ 31).
Proof.
  unfold datetime.c_int.
  assert (2 ^ 31 = 2147483648) as -> by reflexivity.
  pose proof (Z.div_mod s 3600 ltac:(lia)) as Hd.
  pose proof (Z.mod_pos_bound s 3600 ltac:(lia)) as Hm.
  destruct (Z.leb_spec (- 2147483648) (s / 3600)), (Z.ltb_spec (s / 3600) 2147483648),
    (Z.leb_spec (- 3600 * 2147483648) s), (Z.ltb_spec s (3600 * 2147483648));
    try reflexivity; lia.
Qed.

Lemma seconds_to_time_int_raises s :
  s < 0 \/ 86400 <= s -> seconds_to_time (PyInt s) = Raise (refusal s).
Proof.
  intros Hs. destruct (seconds_to_time (PyInt s)) as [t|e] eqn:E.
  - apply seconds_to_time_int_inv in E. lia.
  - unfold seconds_to_time in E. apply time_new_raises in E.
    destruct (hms_of_seconds_range s) as [Hm Hsec].
    rewrite (c_int_small ((s mod 3600) / 60) ltac:(lia)),
      (c_int_small (s mod 60) ltac:(lia)) in E.
    rewrite !andb_true_r, c_int_hour in E. subst e. reflexivity.
Qed.

Lemma refusal_ValueError s :
  - 3600 * 2 ^ 31 <= s < 3600 * 2 ^ 31 -> refusal s = ValueError.
Proof.
  intros [H1 H2]. unfold refusal.
  apply Z.leb_le in H1. apply Z.ltb_lt in H2. rewrite H1, H2. reflexivity.
Qed.

(** C5, as the code has it: an integer number of seconds converts to a time
    exactly when it lies within one day, [0 <= s < 86400], because the hour of
    a [datetime.time] is confined to [0..23]; there the round trip through
    [seconds_to_time] and [time_to_seconds] gives [s] back, and everywhere
    else [seconds_to_time] raises: [ValueError] while the hour fits a C [int],
    that is for less than 3600 * 2^31 seconds in either direction, and
    [OverflowError] beyond. *)
Theorem seconds_round_trip_within_day (s : Z) :
  match seconds_to_time (PyInt s) with
  | Ok t => 0 <= s < 86400 /\ time_to_seconds t = s /\ datetime.valid t
  | Raise e =>
      (s < 0 \/ 86400 <= s)
      /\ e = if (- 3600 * 2 ^ 31 <=? s) && (s <? 3600 * 2 ^ 31)
             then ValueError else OverflowError
  end.
Proof.
  destruct (seconds_to_time (PyInt s)) as [t|e] eqn:E.
  - pose proof (seconds_to_time_valid _ _ E).
    apply seconds_to_time_int_inv in E. tauto.
  - assert (s < 0 \/ 86400 <= s) as Hs.
    { destruct (Z.lt_ge_cases s 0) as [|H0]; [now left|].
      destruct (Z.lt_ge_cases s 86400) as [Hlt|]; [|now right].
      rewrite seconds_to_time_int_Ok in E by lia. discriminate. }
    split; [exact Hs|].
    rewrite (seconds_to_time_int_raises s Hs) in E. injection E as <-. reflexivity.
Qed.

(** C5 as stated fails at one day: 86400 seconds is hour 24, which
    [datetime.time] refuses, so there is no time to convert back. *)
Lemma seconds_round_trip_fails_at_one_day :
  ~ (exists t, seconds_to_time (PyInt 86400) = Ok t /\ time_to_seconds t = 86400).
Proof.
  intros (t & E & _). vm_compute in E. discriminate.
Qed.

Lemma float_overflow_large : 10 ^ 300 < float_overflow.
Proof. reflexivity. Qed.

Lemma true_div_Ok a b :
  Z.abs a < 10 ^ 300 -> true_div a b = Ok (a # b).
Proof.
  intros Ha. unfold true_div.
  pose proof float_overflow_large.
  destruct (Z.leb_spec (float_overflow * Z.pos b) (Z.abs a)); [nia | reflexivity].
Qed.

Lemma true_div_raises a b e : true_div a b = Raise e -> e = OverflowError.
Proof.
  unfold true_div. destruct (_ <=? _); intros H; inversion H; reflexivity.
Qed.

Lemma milliseconds_to_time_Ok ms :
  within_day_ms ms ->
  milliseconds_to_time ms = Ok (seconds_past_midnight (ms / 1000)).
Proof.
  unfold within_day_ms, milliseconds_to_time. intros Hms.
  rewrite true_div_Ok by lia. simpl. unfold py_int. simpl.
  rewrite Z.quot_div_nonneg by lia.
  assert (0 <= ms / 1000 < 86400).
  { split; [apply Z.div_pos; lia | apply Z.div_lt_upper_bound; lia]. }
  exact (seconds_to_time_int_Ok (ms / 1000) ltac:(lia)).
Qed.

Lemma milliseconds_to_time_raises ms e :
  milliseconds_to_time ms = Raise e -> e = ValueError \/ e = OverflowError.
Proof.
  unfold milliseconds_to_time. intros H.
  bind_split H E.
  - apply time_new_raises in H. destruct (_ && _) in H; auto.
  - inversion H; subst. right. eapply true_div_raises, E.
Qed.

Lemma milliseconds_to_time_first_second ms :
  0 <= ms < 1000 -> milliseconds_to_time ms = Ok (datetime.mk_time 0 0 0).
Proof.
  intros Hms. rewrite milliseconds_to_time_Ok by (unfold within_day_ms; lia).
  rewrite Z.div_small by lia. reflexivity.
Qed.

(** * Properties of the clip intervals *)

Lemma chapter_clip_times_right_raises chapter length :
  length <> 0 ->
  time_to_seconds (Chapter.start_time chapter) < length ->
  - 3600 * 2 ^ 31 <= time_to_seconds (Chapter.start_time chapter) - length ->
  chapter_clip_times chapter (Some ClipAlign.right) (Some length) = Raise ValueError.
Proof.
  intros Hnz Hlt Hint. unfold chapter_clip_times, length_given.
  destruct (Z.eqb_spec length 0) as [|_]; [contradiction|].
  rewrite seconds_to_time_int_raises by lia.
  rewrite refusal_ValueError; [reflexivity|].
  split; [exact Hint|].
  assert (0 < 3600 * 2 ^ 31) by reflexivity. lia.
Qed.

(** When the start of a right-aligned clip would be negative, the loop stops
    with [ValueError] at the chapter, before [generate_clip] and its clamp are
    reached: no clip is requested for it or for the chapters after it. *)
Lemma generate_chapter_clips_right_raises isspace isalnum self chapter rest length :
  length <> 0 ->
  time_to_seconds (Chapter.start_time chapter) < length ->
  - 3600 * 2 ^ 31 <= time_to_seconds (Chapter.start_time chapter) - length ->
  generate_chapter_clips isspace isalnum self (chapter :: rest)
    (Some ClipAlign.right) (Some length) = ([], Raise ValueError).
Proof.
  intros Hnz Hlt Hint. unfold generate_chapter_clips; simpl.
  unfold generate_chapter_clip.
  rewrite chapter_clip_times_right_raises by assumption. reflexivity.
Qed.

(** The clamp of [generate_clip] itself: a start that is not positive is
    handed on as 0. *)
Lemma generate_clip_start_clamped self file clip start_time end_time c :
  generate_clip self file clip start_time end_time = Ok c ->
  t_start c = Z.max 0 (time_to_seconds start_time).
Proof.
  unfold generate_clip.
  destruct (subscript _) as [d|e]; simpl; [|discriminate].
  intros E; inversion E; subst; simpl.
  destruct (Z.ltb_spec 0 (time_to_seconds start_time)); lia.
Qed.

(** C4 on the code: a chapter that starts at 5s, clipped right-aligned with
    length 20, makes [generate_chapter_clips] raise [ValueError], because the
    start of -15 seconds is turned into a [datetime.time] first; no clip is
    requested, with start 0 or any other. *)
Theorem right_aligned_start_5s_length_20_raises (isspace isalnum : N -> bool) :
  generate_chapter_clips isspace isalnum video_100s [chapter_at "A" 5 60]
    (Some ClipAlign.right) (Some 20) = ([], Raise ValueError).
Proof.
  apply generate_chapter_clips_right_raises;
    [discriminate | reflexivity | vm_compute; discriminate].
Qed.

(** * Properties of the chapters view *)

(** C7 on the code: the [chapters] property never looks at its receiver.  In
    the module as written the name it reads is unbound, so every access raises
    [NameError]; were the name bound, the view would be that of the object
    bound to it. *)
Theorem chapters_reads_global_not_receiver (self : VideoHeatmap.t) :
  chapters module_video_heatmap self = Raise NameError
  /\ forall other,
       chapters (Some other) self
       = Ok (omap Heatmap.chapter (VideoHeatmap.heatmaps other)).
Proof. split; reflexivity. Qed.

(** * Properties of the filename *)

Section FilenameFacts.

Variable isspace : N -> bool.
Variable isalnum : N -> bool.

Lemma pattern_matches_allowed c :
  pattern_matches isalnum c = negb (allowed_char isalnum c).
Proof.
  unfold pattern_matches, allowed_char, word_char.
  destruct (isalnum c), (c =? 95)%N, (c =? 45)%N, (c =? 46)%N; reflexivity.
Qed.

Lemma re_sub_empty_filter s :
  re_sub_empty isalnum s = List.filter (allowed_char isalnum) s.
Proof.
  induction s as [|c s IH]; simpl; [reflexivity|].
  rewrite pattern_matches_allowed.
  destruct (allowed_char isalnum c); simpl; now rewrite IH.
Qed.

Lemma lstrip_split s :
  exists pre, s = pre ++ lstrip isspace s
              /\ Forall (fun c => isspace c = true) pre
              /\ (forall c, head (lstrip isspace s) = Some c -> isspace c = false).
Proof.
  induction s as [|c s (pre & Hs & Hpre & Hhd)]; simpl.
  - exists []. repeat split; [constructor | discriminate].
  - destruct (isspace c) eqn:Hc.
    + exists (c :: pre). repeat split; [simpl; now f_equal | now constructor | assumption].
    + exists []. repeat split; [constructor|].
      simpl. intros c' E; inversion E; now subst.
Qed.

Lemma last_rev (l : str) : last (rev l) = head l.
Proof. rewrite rev_alt. exact (last_reverse l). Qed.

Lemma rstrip_split s :
  exists post, s = rstrip isspace s ++ post
               /\ Forall (fun c => isspace c = true) post
               /\ (forall c, last (rstrip isspace s) = Some c -> isspace c = false).
Proof.
  unfold rstrip. destruct (lstrip_split (rev s)) as (pre & Hs & Hpre & Hhd).
  exists (rev pre). repeat split.
  - rewrite <- rev_app_distr, <- Hs. now rewrite rev_involutive.
  - now apply Forall_rev.
  - intros c Hc. apply Hhd. rewrite last_rev in Hc. exact Hc.
Qed.

Lemma lstrip_rstrip_head s c :
  (forall c', head s = Some c' -> isspace c' = false) ->
  head (rstrip isspace s) = Some c -> isspace c = false.
Proof.
  intros Hhd Hc.
  destruct (rstrip_split s) as (post & Hs & _ & _).
  apply Hhd. rewrite Hs.
  destruct (rstrip isspace s); [discriminate | exact Hc].
Qed.

(** [strip] removes a run of whitespace from each end, and nothing more. *)
Lemma strip_split s :
  exists pre post,
    s = pre ++ strip isspace s ++ post
    /\ Forall (fun c => isspace c = true) pre
    /\ Forall (fun c => isspace c = true) post
    /\ (forall c, head (strip isspace s) = Some c -> isspace c = false)
    /\ (forall c, last (strip isspace s) = Some c -> isspace c = false).
Proof.
  unfold strip.
  destruct (lstrip_split s) as (pre & Hs & Hpre & Hhd).
  destruct (rstrip_split (lstrip isspace s)) as (post & Hs' & Hpost & Hlast).
  exists pre, post. repeat split; try assumption.
  - now rewrite <- Hs'.
  - intros c. now apply lstrip_rstrip_head.
Qed.

Lemma valid_filename_by_spec s :
  valid_filename isspace isalnum s = filename_by_spec isspace isalnum s.
Proof.
  unfold valid_filename, filename_by_spec, replace_space.
  apply re_sub_empty_filter.
Qed.

Lemma valid_filename_allowed s :
  Forall (fun c => allowed_char isalnum c = true) (valid_filename isspace isalnum s).
Proof.
  rewrite valid_filename_by_spec. unfold filename_by_spec.
  apply List.Forall_forall. intros c Hc. now apply filter_In in Hc.
Qed.

Lemma valid_filename_no_space s :
  ~ In 32%N (valid_filename isspace isalnum s).
Proof.
  rewrite valid_filename_by_spec. unfold filename_by_spec.
  intros Hc. apply filter_In in Hc as [Hc _].
  apply in_map_iff in Hc as (c & Hc & _).
  destruct (N.eqb_spec c 32); [discriminate | congruence].
Qed.

(** On ASCII text the result depends on the ASCII part of the tables only. *)
Lemma lstrip_ascii s :
  ascii_tables isspace isalnum ->
  Forall (fun c => (c < 128)%N) s ->
  lstrip isspace s = lstrip ascii_isspace s.
Proof.
  intros Htab. induction 1 as [|c s Hc _ IH]; simpl; [reflexivity|].
  destruct (Htab c Hc) as [-> _]. now rewrite IH.
Qed.

Lemma lstrip_Forall (P : N -> Prop) (f : N -> bool) s :
  Forall P s -> Forall P (lstrip f s).
Proof.
  induction 1 as [|c s Hc Hs IH]; simpl; [constructor|].
  destruct (f c); [assumption | now constructor].
Qed.

Lemma strip_ascii s :
  ascii_tables isspace isalnum ->
  Forall (fun c => (c < 128)%N) s ->
  strip isspace s = strip ascii_isspace s.
Proof.
  intros Htab Hs. unfold strip, rstrip.
  rewrite (lstrip_ascii s) by assumption.
  rewrite (lstrip_ascii (rev _)); [reflexivity | assumption |].
  apply Forall_rev, lstrip_Forall, Hs.
Qed.

Lemma re_sub_empty_ascii s :
  ascii_tables isspace isalnum ->
  Forall (fun c => (c < 128)%N) s ->
  re_sub_empty isalnum s = re_sub_empty ascii_isalnum s.
Proof.
  intros Htab. induction 1 as [|c s Hc _ IH]; simpl; [reflexivity|].
  unfold pattern_matches, word_char.
  destruct (Htab c Hc) as [_ ->]. now rewrite IH.
Qed.

Lemma valid_filename_ascii s :
  ascii_tables isspace isalnum ->
  Forall (fun c => (c < 128)%N) s ->
  valid_filename isspace isalnum s = valid_filename ascii_isspace ascii_isalnum s.
Proof.
  intros Htab Hs. unfold valid_filename.
  rewrite strip_ascii by assumption.
  apply re_sub_empty_ascii; [assumption|].
  unfold replace_space. apply Forall_map.
  assert (Hst : Forall (fun c => (c < 128)%N) (strip ascii_isspace s)).
  { unfold strip, rstrip. now apply Forall_rev, lstrip_Forall, Forall_rev, lstrip_Forall. }
  eapply Forall_impl; [exact Hst|].
  intros c Hc. simpl. destruct (c =? 32)%N; [reflexivity | exact Hc].
Qed.

End FilenameFacts.

(** C10: [valid_filename] is the trimmed input with underscores for spaces
    and with everything but word characters, hyphens and periods removed:
    it equals the function worded that way, the trimming takes whitespace off
    both ends and nothing else, no character other than a word character, a
    hyphen or a period is left, and no space is left.  With the character
    tables being the Unicode ones on ASCII, "My Chapter: Part 1!" becomes
    "My_Chapter_Part_1". *)
Theorem valid_filename_trims_replaces_strips (isspace isalnum : N -> bool) (s : str) :
  ascii_tables isspace isalnum ->
  valid_filename isspace isalnum s = filename_by_spec isspace isalnum s
  /\ (exists pre post,
        s = pre ++ strip isspace s ++ post
        /\ Forall (fun c => isspace c = true) pre
        /\ Forall (fun c => isspace c = true) post
        /\ (forall c, head (strip isspace s) = Some c -> isspace c = false)
        /\ (forall c, last (strip isspace s) = Some c -> isspace c = false))
  /\ Forall (fun c => allowed_char isalnum c = true) (valid_filename isspace isalnum s)
  /\ ~ In 32%N (valid_filename isspace isalnum s)
  /\ valid_filename isspace isalnum (str_of "My Chapter: Part 1!")
     = str_of "My_Chapter_Part_1".
Proof.
  intros Htab. split; [apply valid_filename_by_spec|].
  split; [apply strip_split|].
  split; [apply valid_filename_allowed|].
  split; [apply valid_filename_no_space|].
  rewrite valid_filename_ascii; [reflexivity | assumption |].
  apply List.Forall_forall. intros c Hc. vm_compute in Hc.
  repeat (destruct Hc as [<-|Hc]; [reflexivity|]). contradiction.
Qed.

Lemma valid_filename_on_padded_title :
  ascii_tables ascii_isspace ascii_isalnum
  /\ valid_filename ascii_isspace ascii_isalnum (str_of "  Part-2 v1.0: (final)  ")
     = str_of "Part-2_v1.0_final".
Proof.
  split.
  - intros c _. split; reflexivity.
  - pose proof (valid_filename_trims_replaces_strips ascii_isspace ascii_isalnum
                  (str_of "  Part-2 v1.0: (final)  ")
                  (fun c _ => conj eq_refl eq_refl)) as (H & _).
    rewrite H. reflexivity.
Defined.

(** * Properties of the marker parser *)

Lemma for_each_Forall2 {A B} (f : A -> result B) l ys :
  for_each f l = Ok ys -> Forall2 (fun x y => f x = Ok y) l ys.
Proof.
  revert ys. induction l as [|x l IH]; simpl; intros ys H.
  - inversion H. constructor.
  - bind_cases H. bind_cases H. inversion H; subst.
    constructor; [assumption | now apply IH].
Qed.

Lemma for_each_total {A B} (f : A -> result B) l :
  Forall (fun x => exists y, f x = Ok y) l -> exists ys, for_each f l = Ok ys.
Proof.
  induction 1 as [|x l [y Hy] _ [ys Hys]]; simpl.
  - now exists [].
  - rewrite Hy; simpl. rewrite Hys; simpl. now exists (y :: ys).
Qed.

Lemma matching_chapter_step_Ok raw t m c :
  milliseconds_to_time (timeRangeStartMillis raw) = Ok t ->
  matching_chapter_step raw m c = Ok (overwrite t m c).
Proof. intros Ht. unfold matching_chapter_step. now rewrite Ht. Qed.

Lemma matching_chapter_scan raw t chapters m :
  milliseconds_to_time (timeRangeStartMillis raw) = Ok t ->
  for_fold (matching_chapter_step raw) chapters m
  = Ok (fold_left (overwrite t) chapters m).
Proof.
  intros Ht. revert m. induction chapters as [|c cs IH]; intros m; simpl.
  - reflexivity.
  - rewrite (matching_chapter_step_Ok raw t m c Ht); simpl. apply IH.
Qed.

Lemma overwrite_scan_last t chapters m :
  (exists c before after,
      fold_left (overwrite t) chapters m = Some c
      /\ chapters = before ++ c :: after
      /\ datetime.leb (Chapter.start_time c) t = true
      /\ Forall (fun c' => datetime.leb (Chapter.start_time c') t = false) after)
  \/ (fold_left (overwrite t) chapters m = m
      /\ Forall (fun c' => datetime.leb (Chapter.start_time c') t = false) chapters).
Proof.
  revert m. induction chapters as [|c cs IH]; intros m; simpl.
  - right. split; [reflexivity | constructor].
  - destruct (IH (overwrite t m c))
      as [(c' & before & after & Hr & -> & Hq & Hafter) | [Hr Hnone]].
    + left. exists c', (c :: before), after. now repeat split.
    + unfold overwrite in Hr |- *.
      destruct (datetime.leb (Chapter.start_time c) t) eqn:Hc.
      * left. exists c, [], cs. now repeat split.
      * right. split; [assumption | now constructor].
Qed.

Lemma scan_from_None_last t chapters :
  last_starting_by chapters t (fold_left (overwrite t) chapters None).
Proof.
  destruct (overwrite_scan_last t chapters None)
    as [(c & before & after & -> & Hsplit & Hq & Hafter) | [-> Hnone]]; simpl.
  - now exists before, after.
  - assumption.
Qed.

Lemma heatmap_of_inv chapters raw h :
  heatmap_of chapters raw = Ok h ->
  exists t t',
    milliseconds_to_time (timeRangeStartMillis raw) = Ok t
    /\ milliseconds_to_time (timeRangeStartMillis raw + markerDurationMillis raw) = Ok t'
    /\ h = {| Heatmap.chapter := fold_left (overwrite t) chapters None;
              Heatmap.start_time := Some t;
              Heatmap.end_time := Some t';
              Heatmap.intensity_score_normalised :=
                heatMarkerIntensityScoreNormalized raw |}.
Proof.
  unfold heatmap_of. intros H.
  bind_cases H. bind_cases H. bind_cases H. inversion H; subst.
  rewrite (matching_chapter_scan raw _ chapters None E0) in E.
  inversion E; subst. eauto.
Qed.

Lemma heatmap_of_total chapters raw :
  marker_within_day raw -> exists h, heatmap_of chapters raw = Ok h.
Proof.
  intros [Hs He]. unfold heatmap_of.
  rewrite (matching_chapter_scan raw _ chapters None (milliseconds_to_time_Ok _ Hs)).
  simpl. rewrite (milliseconds_to_time_Ok _ Hs); simpl.
  rewrite (milliseconds_to_time_Ok _ He); simpl. eauto.
Qed.

(** C1: the parser returns a heatmap for every raw heat marker when the
    markers fall within a day, and whenever it returns, each heatmap carries as
    [chapter] the last chapter in list order that starts no later than the
    heatmap does, and no chapter at all exactly when none starts that early
    (so also when the chapter list is empty). *)
Theorem get_heatmaps_assigns_last_chapter marker_data chapters heatmap_data :
  heatmap_data_of marker_data = Ok heatmap_data ->
  (Forall marker_within_day heatmap_data ->
   exists heatmaps, get_heatmaps marker_data chapters = Ok heatmaps)
  /\ (forall heatmaps,
        get_heatmaps marker_data chapters = Ok heatmaps ->
        Forall2 (extracted_from chapters) heatmap_data heatmaps).
Proof.
  intros Hdata. unfold get_heatmaps. rewrite Hdata; simpl. split.
  - intros Hday. apply for_each_total.
    eapply Forall_impl; [exact Hday|]. intros raw. apply heatmap_of_total.
  - intros heatmaps H. apply for_each_Forall2 in H.
    eapply Forall2_impl; [exact H|].
    intros raw h Hh. apply heatmap_of_inv in Hh as (t & t' & Ht & _ & ->).
    exists t. repeat split; [assumption|]. simpl. apply scan_from_None_last.
Qed.

(** Chapters at 0s, 60s and 120s and a heatmap at 90s: the heatmap gets the
    chapter that starts at 60s. *)
Lemma heatmap_at_90s_gets_chapter_at_60s :
  exists chapters heatmap_data heatmaps,
    get_chapters three_chapter_markers video_180s = Ok chapters
    /\ heatmap_data_of three_chapter_markers = Ok heatmap_data
    /\ get_heatmaps three_chapter_markers chapters = Ok heatmaps
    /\ Forall2 (extracted_from chapters) heatmap_data heatmaps
    /\ map Heatmap.chapter heatmaps = [Some (chapter_at "Two" 60 120)].
Proof.
  eexists; eexists; eexists.
  split; [reflexivity|]. split; [reflexivity|]. split; [reflexivity|].
  split; [|reflexivity].
  apply (get_heatmaps_assigns_last_chapter three_chapter_markers); reflexivity.
Defined.

Lemma chapters_from_inv video raw rest chapters :
  chapters_from video (raw :: rest) = Ok chapters ->
  exists c chapters',
    chapters = c :: chapters'
    /\ chapter_of_raw raw c
    /\ end_of video rest = Ok (Chapter.end_time c)
    /\ chapters_from video rest = Ok chapters'.
Proof.
  simpl. intros H.
  destruct (end_of video rest) as [t_end|] eqn:Hend; simpl in H; [|discriminate].
  bind_cases H. bind_cases H. inversion H; subst.
  eexists; eexists. split; [reflexivity|]. now repeat split.
Qed.

Lemma chapters_from_raw video chapter_data chapters :
  chapters_from video chapter_data = Ok chapters ->
  Forall2 chapter_of_raw chapter_data chapters.
Proof.
  revert chapters. induction chapter_data as [|raw rest IH]; intros chapters H.
  - inversion H. constructor.
  - apply chapters_from_inv in H as (c & cs & -> & Hc & _ & Hrest).
    constructor; [assumption | now apply IH].
Qed.

Lemma chapters_from_consecutive video chapter_data chapters :
  chapters_from video chapter_data = Ok chapters -> consecutive chapters.
Proof.
  revert chapters. induction chapter_data as [|raw rest IH]; intros chapters H.
  - inversion H. intros i c c' Hi. destruct i; discriminate Hi.
  - apply chapters_from_inv in H as (c & cs & -> & _ & Hend & Hrest).
    intros i c1 c2 H1 H2. destruct i as [|i].
    + simpl in H1, H2. inversion H1; subst c1.
      destruct rest as [|next rest'].
      * inversion Hrest; subst. discriminate H2.
      * apply chapters_from_inv in Hrest as (c' & cs' & -> & (_ & Hstart & _) & _ & _).
        simpl in H2. inversion H2; subst c2.
        simpl in Hend. rewrite Hend in Hstart. now inversion Hstart.
    + exact (IH cs Hrest i c1 c2 H1 H2).
Qed.

Lemma chapters_from_last video chapter_data chapters c :
  chapters_from video chapter_data = Ok chapters ->
  last chapters = Some c ->
  exists d, Video.duration (Video.ydl_info video) = Some d
            /\ seconds_to_time d = Ok (Chapter.end_time c).
Proof.
  revert chapters. induction chapter_data as [|raw rest IH]; intros chapters H Hl.
  - inversion H; subst. discriminate Hl.
  - apply chapters_from_inv in H as (c0 & cs & -> & _ & Hend & Hrest).
    destruct rest as [|next rest'].
    + inversion Hrest; subst. simpl in Hl. inversion Hl; subst c0.
      simpl in Hend. destruct (Video.duration _) as [d|]; [|discriminate].
      exists d. split; [reflexivity | exact Hend].
    + destruct cs as [|c1 cs'].
      * apply chapters_from_inv in Hrest as (? & ? & ? & _). discriminate.
      * apply (IH (c1 :: cs') Hrest). exact Hl.
Qed.

Lemma chapters_from_total video chapter_data d :
  Forall (fun raw => within_day_ms (cr_timeRangeStartMillis raw)) chapter_data ->
  Video.duration (Video.ydl_info video) = Some (PyInt d) ->
  0 <= d < 86400 ->
  exists chapters, chapters_from video chapter_data = Ok chapters.
Proof.
  intros Hday Hd Hrange. induction Hday as [|raw rest Hraw Hrest [cs IH]].
  - now exists [].
  - simpl.
    assert (Hend : exists t, end_of video rest = Ok t).
    { destruct Hrest as [|next rest' Hnext _]; simpl.
      - rewrite Hd; simpl. rewrite seconds_to_time_int_Ok by lia. eauto.
      - rewrite milliseconds_to_time_Ok by assumption. eauto. }
    destruct Hend as [t Ht]. rewrite Ht; simpl.
    rewrite milliseconds_to_time_Ok by assumption; simpl.
    rewrite IH; simpl. eauto.
Qed.

(** C6, as the code has it: for a non-empty raw chapter list the extraction
    returns one chapter per raw chapter when the raw offsets and the duration
    fall within a day, and whenever it returns, each chapter starts at the
    converted offset of its raw chapter, each chapter ends where the next one
    starts, and the last chapter ends at the converted duration, which for a
    whole number of seconds is that number.  The first chapter starts where
    the first raw chapter says: at 0 when that offset is below one second. *)
Theorem get_chapters_contiguous marker_data video chapter_data :
  chapter_data_of marker_data = Ok chapter_data ->
  chapter_data <> [] ->
  (forall d,
      Forall (fun raw => within_day_ms (cr_timeRangeStartMillis raw)) chapter_data ->
      Video.duration (Video.ydl_info video) = Some (PyInt d) ->
      0 <= d < 86400 ->
      exists chapters, get_chapters marker_data video = Ok chapters)
  /\ (forall chapters,
        get_chapters marker_data video = Ok chapters ->
        Forall2 chapter_of_raw chapter_data chapters
        /\ (forall raw c,
              head chapter_data = Some raw -> head chapters = Some c ->
              0 <= cr_timeRangeStartMillis raw < 1000 ->
              Chapter.start_time c = datetime.mk_time 0 0 0)
        /\ consecutive chapters
        /\ exists d c,
             Video.duration (Video.ydl_info video) = Some d
             /\ last chapters = Some c
             /\ seconds_to_time d = Ok (Chapter.end_time c)
             /\ (forall z, d = PyInt z -> time_to_seconds (Chapter.end_time c) = z)).
Proof.
  intros Hdata Hne. unfold get_chapters. rewrite Hdata; simpl. split.
  - intros d Hday Hd Hrange. now apply (chapters_from_total video chapter_data d).
  - intros chapters H.
    pose proof (chapters_from_raw _ _ _ H) as Hraw.
    split; [assumption|]. split; [|split].
    + intros raw c Hr Hc Hsmall.
      destruct Hraw as [|raw0 c0 ? ? (_ & Hstart & _) _]; [discriminate|].
      simpl in Hr, Hc. inversion Hr; inversion Hc; subst.
      rewrite milliseconds_to_time_first_second in Hstart by assumption.
      now inversion Hstart.
    + exact (chapters_from_consecutive _ _ _ H).
    + destruct (last chapters) as [c|] eqn:Hl.
      * destruct (chapters_from_last _ _ _ c H Hl) as (d & Hd & Hend).
        exists d, c. repeat split; try assumption.
        intros z ->. now apply seconds_to_time_int_inv in Hend.
      * apply last_None in Hl. subst chapters.
        inversion Hraw; subst. contradiction.
Qed.

Lemma three_chapters_contiguous :
  exists chapters,
    get_chapters three_chapter_markers video_180s = Ok chapters
    /\ map Chapter.title chapters = [str_of "One"; str_of "Two"; str_of "Three"]
    /\ consecutive chapters
    /\ map (fun c => time_to_seconds (Chapter.end_time c)) chapters = [60; 120; 180].
Proof.
  eexists. split; [reflexivity|]. split; [reflexivity|]. split; [|reflexivity].
  refine (proj1 (proj2 (proj2
    (proj2 (get_chapters_contiguous three_chapter_markers video_180s _ eq_refl _)
           _ eq_refl)))).
  discriminate.
Defined.

(** C6 as stated fails when the first raw chapter does not begin at 0: the
    only chapter of these markers starts five seconds in, so the chapters do
    not cover [[0, duration]]. *)
Lemma late_first_chapter_is_no_partition :
  get_chapters late_chapter_markers video_100s = Ok [chapter_at "A" 5 100]
  /\ ~ gapless_partition (PyInt 100) [chapter_at "A" 5 100].
Proof.
  split; [reflexivity|].
  intros (Hfirst & _). specialize (Hfirst _ eq_refl). discriminate Hfirst.
Qed.

(** * Properties of the ranking and merge engine *)

(** ** The order of times *)

Lemma leb_iff a b :
  datetime.leb a b = true <->
  datetime.hour a < datetime.hour b
  \/ (datetime.hour a = datetime.hour b
      /\ (datetime.minute a < datetime.minute b
          \/ (datetime.minute a = datetime.minute b
              /\ datetime.second a <= datetime.second b))).
Proof.
  unfold datetime.leb.
  rewrite orb_true_iff, andb_true_iff, orb_true_iff, andb_true_iff.
  rewrite !Z.ltb_lt, !Z.eqb_eq, Z.leb_le. reflexivity.
Qed.

Lemma leb_refl a : datetime.leb a a = true.
Proof. apply leb_iff. lia. Qed.

Lemma leb_trans a b c :
  datetime.leb a b = true -> datetime.leb b c = true -> datetime.leb a c = true.
Proof. rewrite !leb_iff. lia. Qed.

Lemma leb_total a b : datetime.leb a b = false -> datetime.leb b a = true.
Proof.
  intros H. apply leb_iff.
  assert (Hn : ~ datetime.leb a b = true) by (rewrite H; discriminate).
  rewrite leb_iff in Hn. lia.
Qed.

(** On times that [datetime.time] accepts, the order is that of the seconds
    since midnight. *)
Lemma leb_seconds a b :
  datetime.valid a -> datetime.valid b ->
  datetime.leb a b = true <-> time_to_seconds a <= time_to_seconds b.
Proof.
  unfold datetime.valid, time_to_seconds. intros Ha Hb. rewrite leb_iff. lia.
Qed.

Lemma is_minimum_chosen a b :
  is_minimum (if datetime.leb b a then b else a) a b.
Proof.
  unfold is_minimum. destruct (datetime.leb b a) eqn:H.
  - repeat split; [now right | assumption | apply leb_refl].
  - repeat split; [now left | apply leb_refl | now apply leb_total].
Qed.

Lemma is_maximum_chosen a b :
  is_maximum (if datetime.leb a b then b else a) a b.
Proof.
  unfold is_maximum. destruct (datetime.leb a b) eqn:H.
  - repeat split; [now right | assumption | apply leb_refl].
  - repeat split; [now left | apply leb_refl | now apply leb_total].
Qed.

(** ** Widening *)

Lemma widened_refl h : widened h h.
Proof. repeat split; now left. Qed.

Lemma widened_trans h1 h2 h3 : widened h1 h2 -> widened h2 h3 -> widened h1 h3.
Proof.
  intros (Hc & Hi & Hs & He) (Hc' & Hi' & Hs' & He').
  split; [congruence|]. split; [congruence|]. split.
  - destruct Hs as [Hs|(a & b & Ha & Hb & Hab)], Hs' as [Hs'|(a' & b' & Ha' & Hb' & Hab')].
    + left; congruence.
    + right. exists a', b'. repeat split; congruence.
    + right. exists a, b. repeat split; congruence.
    + right. exists a, b'. repeat split; try assumption.
      assert (b = a') by congruence. subst. now apply leb_trans with a'.
  - destruct He as [He|(a & b & Ha & Hb & Hab)], He' as [He'|(a' & b' & Ha' & Hb' & Hab')].
    + left; congruence.
    + right. exists a', b'. repeat split; congruence.
    + right. exists a, b. repeat split; congruence.
    + right. exists a, b'. repeat split; try assumption.
      assert (b = a') by congruence. subst. now apply leb_trans with a'.
Qed.

Lemma time_le_inv x y b :
  time_le x y = Ok b -> exists s t, x = Some s /\ y = Some t /\ b = datetime.leb s t.
Proof.
  destruct x as [s|], y as [t|]; simpl; intros H; inversion H; eauto.
Qed.

Lemma time_le_raises x y e : time_le x y = Raise e -> e = TypeError.
Proof. destruct x, y; simpl; intros H; inversion H; reflexivity. Qed.

Lemma present_in_store (heap : store) j t :
  Heatmap.start_time (heap !!! j) = Some t -> (j < length heap)%nat.
Proof.
  intros H. destruct (decide (j < length heap)%nat) as [|Hge]; [assumption|].
  rewrite list_lookup_total_alt, lookup_ge_None_2 in H by lia. discriminate H.
Qed.

Lemma insert_same (heap : store) j :
  (j < length heap)%nat -> <[j := heap !!! j]> heap = heap.
Proof.
  intros Hj. apply list_insert_id. now apply list_lookup_lookup_total_lt.
Qed.

Lemma end_time_after_insert (heap : store) j r v :
  Heatmap.end_time
    (<[j := Heatmap.set_start_time v (heap !!! j)]> heap !!! r)
  = Heatmap.end_time (heap !!! r).
Proof.
  rewrite list_lookup_total_insert. case_decide as H; [|reflexivity].
  destruct H as [-> _]. reflexivity.
Qed.

(** The store after the first of the two assignments. *)
Lemma first_assignment (heap : store) r j sr sj :
  Heatmap.start_time (heap !!! r) = Some sr ->
  Heatmap.start_time (heap !!! j) = Some sj ->
  (if datetime.leb sr sj
   then <[j := Heatmap.set_start_time (Heatmap.start_time (heap !!! r))
                                      (heap !!! j)]> heap
   else heap)
  = <[j := Heatmap.set_start_time (Some (if datetime.leb sr sj then sr else sj))
                                  (heap !!! j)]> heap.
Proof.
  intros Hsr Hsj. pose proof (present_in_store heap j sj Hsj) as Hj.
  destruct (datetime.leb sr sj).
  - now rewrite Hsr.
  - rewrite <- Hsj.
    replace (Heatmap.set_start_time (Heatmap.start_time (heap !!! j)) (heap !!! j))
      with (heap !!! j) by (now destruct (heap !!! j)).
    now rewrite insert_same.
Qed.

(** The store after a [widen] that returns: only the entry of
    [merged_heatmap] can differ, and it differs by the two assignments. *)
Lemma widen_inv heap r j heap' :
  widen heap r j = (heap', Ok tt) ->
  exists sr er sj ej,
    Heatmap.start_time (heap !!! r) = Some sr
    /\ Heatmap.end_time (heap !!! r) = Some er
    /\ Heatmap.start_time (heap !!! j) = Some sj
    /\ Heatmap.end_time (heap !!! j) = Some ej
    /\ (j < length heap)%nat
    /\ heap' =
       <[j := {| Heatmap.chapter := Heatmap.chapter (heap !!! j);
                 Heatmap.start_time :=
                   Some (if datetime.leb sr sj then sr else sj);
                 Heatmap.end_time :=
                   Some (if datetime.leb ej er then er else ej);
                 Heatmap.intensity_score_normalised :=
                   Heatmap.intensity_score_normalised (heap !!! j) |}]> heap.
Proof.
  unfold widen. intros H.
  destruct (time_le _ _) as [b1|] eqn:E1 in H; [|discriminate].
  apply time_le_inv in E1 as (sr & sj & Hsr & Hsj & ->).
  pose proof (present_in_store heap j sj Hsj) as Hj.
  rewrite (first_assignment heap r j sr sj Hsr Hsj) in H.
  rewrite !end_time_after_insert in H.
  rewrite !list_lookup_total_insert_eq in H by assumption.
  simpl in H.
  destruct (time_le _ _) as [b2|] eqn:E2 in H; [|discriminate].
  apply time_le_inv in E2 as (ej & er & Hej & Her & ->).
  inversion H; subst heap'; clear H.
  exists sr, er, sj, ej. repeat split; try assumption.
  destruct (datetime.leb ej er).
  - rewrite list_insert_insert_eq. rewrite Her. reflexivity.
  - f_equal. unfold Heatmap.set_start_time. now rewrite Hej.
Qed.

(** Whatever its outcome, [widen] keeps the size of the store, touches no
    entry but that of [merged_heatmap], and only widens that one. *)
Lemma widen_frame heap r j heap' outcome :
  widen heap r j = (heap', outcome) ->
  length heap' = length heap
  /\ (forall i, i <> j -> heap' !!! i = heap !!! i)
  /\ widened (heap !!! j) (heap' !!! j).
Proof.
  unfold widen. intros H.
  destruct (time_le _ _) as [b1|] eqn:E1 in H.
  2:{ inversion H; subst. split; [reflexivity|]. split; [reflexivity|].
      apply widened_refl. }
  apply time_le_inv in E1 as (sr & sj & Hsr & Hsj & ->).
  pose proof (present_in_store heap j sj Hsj) as Hj.
  rewrite (first_assignment heap r j sr sj Hsr Hsj) in H.
  assert (Hstart : start_not_later (heap !!! j)
            (Heatmap.set_start_time
               (Some (if datetime.leb sr sj then sr else sj)) (heap !!! j))).
  { right. exists sj, (if datetime.leb sr sj then sr else sj).
    split; [assumption|]. split; [reflexivity|].
    destruct (datetime.leb sr sj) eqn:Hle; [assumption | apply leb_refl]. }
  rewrite !end_time_after_insert in H.
  rewrite !list_lookup_total_insert_eq in H by assumption.
  simpl in H.
  destruct (time_le _ _) as [b2|] eqn:E2 in H.
  - apply time_le_inv in E2 as (ej & er & Hej & Her & ->).
    inversion H; subst heap' outcome; clear H.
    assert (Hlen : forall x y : Heatmap.t,
               length (if datetime.leb ej er
                       then <[j := x]> (<[j := y]> heap)
                       else <[j := y]> heap) = length heap).
    { intros x y. destruct (datetime.leb ej er); now rewrite !length_insert. }
    split; [apply Hlen|]. split.
    + intros i Hi. destruct (datetime.leb ej er);
        now rewrite !list_lookup_total_insert_ne by congruence.
    + destruct (datetime.leb ej er) eqn:Hle.
      * rewrite list_lookup_total_insert_eq by (now rewrite length_insert).
        split; [reflexivity|]. split; [reflexivity|]. split; [exact Hstart|].
        right. exists ej, er. rewrite Her. now repeat split.
      * rewrite list_lookup_total_insert_eq by assumption.
        split; [reflexivity|]. split; [reflexivity|]. split; [exact Hstart|].
        now left.
  - inversion H; subst heap' outcome; clear H.
    split; [now rewrite length_insert|]. split.
    + intros i Hi. now rewrite list_lookup_total_insert_ne by congruence.
    + rewrite list_lookup_total_insert_eq by assumption.
      split; [reflexivity|]. split; [reflexivity|]. split; [exact Hstart|].
      now left.
Qed.

Lemma widen_total (heap : store) r j sr er sj ej :
  Heatmap.start_time (heap !!! r) = Some sr ->
  Heatmap.end_time (heap !!! r) = Some er ->
  Heatmap.start_time (heap !!! j) = Some sj ->
  Heatmap.end_time (heap !!! j) = Some ej ->
  exists heap', widen heap r j = (heap', Ok tt).
Proof.
  intros Hsr Her Hsj Hej.
  pose proof (present_in_store heap j sj Hsj) as Hj.
  unfold widen. rewrite Hsr, Hsj. simpl.
  destruct (datetime.leb sr sj).
  - rewrite !end_time_after_insert, Her, Hej. simpl. eauto.
  - rewrite Hej, Her. simpl. eauto.
Qed.

Lemma widen_raises heap r j heap' e :
  widen heap r j = (heap', Raise e) -> e = TypeError.
Proof.
  unfold widen. intros H.
  destruct (time_le _ _) eqn:E1 in H;
    [|inversion H; subst; now apply time_le_raises in E1].
  destruct (time_le _ _) eqn:E2 in H;
    [discriminate | inversion H; subst; now apply time_le_raises in E2].
Qed.

(** ** The dict *)

Lemma str_eqb_eq a b : str_eqb a b = true <-> a = b.
Proof. unfold str_eqb. apply bool_decide_eq_true. Qed.

Lemma dict_set_fresh k v (d : dict) :
  dict_get k d = None -> dict_set k v d = d ++ [(k, v)].
Proof.
  induction d as [|[k' v'] d IH]; simpl; [reflexivity|].
  destruct (str_eqb k' k); [discriminate|].
  intros H. now rewrite IH.
Qed.

Lemma dict_get_In k (d : dict) j :
  dict_get k d = Some j -> In j (dict_values d).
Proof.
  induction d as [|[k' v'] d IH]; simpl; [discriminate|].
  destruct (str_eqb k' k); intros H.
  - inversion H. now left.
  - right. now apply IH.
Qed.

Lemma dict_get_None_keys k (d : dict) :
  dict_get k d = None -> ~ In k (map fst d).
Proof.
  induction d as [|[k' v'] d IH]; simpl; [tauto|].
  destruct (str_eqb k' k) eqn:Hk; [discriminate|].
  intros H [->|Hin]; [|now apply IH].
  assert (str_eqb k k = true) by now apply str_eqb_eq.
  congruence.
Qed.

(** ** One turn of the loop *)

(** The three things a turn can do: leave everything as it is, enter the
    heatmap under its title, or widen the entry of its title. *)
Lemma merge_step_cases count (heap : store) (merged : dict) r st' outcome :
  merge_step count (heap, merged) r = (st', outcome) ->
  (st' = (heap, merged) /\ outcome = Ok tt)
  \/ (exists c,
        Heatmap.chapter (heap !!! r) = Some c
        /\ dict_get (Chapter.title c) merged = None
        /\ Z.of_nat (length merged) <= count
        /\ st' = (heap, merged ++ [(Chapter.title c, r)])
        /\ outcome = Ok tt)
  \/ (exists c j heap',
        Heatmap.chapter (heap !!! r) = Some c
        /\ dict_get (Chapter.title c) merged = Some j
        /\ widen heap r j = (heap', outcome)
        /\ st' = (heap', merged)).
Proof.
  unfold merge_step.
  destruct (Heatmap.chapter (heap !!! r)) as [c|]; [|intros H; inversion H; now left].
  destruct (dict_get (Chapter.title c) merged) as [j|] eqn:Hget; simpl.
  - intros H. destruct (widen heap r j) as [heap' outcome'] eqn:Hw.
    inversion H; subst. right; right. exists c, j, heap'. now repeat split.
  - destruct (Z.leb_spec (Z.of_nat (length merged)) count) as [Hle|Hgt]; intros H;
      inversion H; subst.
    + right; left. exists c. rewrite dict_set_fresh by assumption. now repeat split.
    + now left.
Qed.

Lemma merge_step_raises count st r st' e :
  merge_step count st r = (st', Raise e) -> e = TypeError.
Proof.
  destruct st as [heap merged]. intros H.
  apply merge_step_cases in H
    as [[_ H] | [(c & _ & _ & _ & _ & H) | (c & j & heap' & _ & _ & Hw & _)]];
    try discriminate.
  now apply widen_raises in Hw.
Qed.

Lemma merge_step_keeps_inv heap0 count st r st' outcome :
  merge_inv heap0 st -> merge_step count st r = (st', outcome) -> merge_inv heap0 st'.
Proof.
  destruct st as [heap merged]. intros (Hlen & Hwid & Hout) H.
  simpl in Hlen, Hwid, Hout.
  apply merge_step_cases in H
    as [[-> _] | [(c & _ & _ & _ & -> & _) | (c & j & heap' & _ & Hget & Hw & ->)]];
    unfold merge_inv; simpl.
  - auto.
  - split; [assumption|]. split; [assumption|].
    intros i Hi. apply Hout. intros Hin. apply Hi.
    unfold dict_values. rewrite map_app. apply in_or_app. now left.
  - apply widen_frame in Hw as (Hlen' & Hrest & Hj).
    split; [congruence|]. split.
    + intros i. destruct (decide (i = j)) as [->|Hne].
      * apply widened_trans with (heap !!! j); [apply Hwid | exact Hj].
      * rewrite Hrest by assumption. apply Hwid.
    + intros i Hi. rewrite Hrest; [now apply Hout|].
      intros ->. apply Hi. eapply dict_get_In, Hget.
Qed.

Lemma merge_step_keeps_complete n count st r :
  (r < n)%nat -> complete_inv n st ->
  exists st', merge_step count st r = (st', Ok tt) /\ complete_inv n st'.
Proof.
  destruct st as [heap merged]. intros Hr (Hlen & Hall & Hrefs).
  simpl in Hlen, Hall, Hrefs.
  destruct (merge_step count (heap, merged) r) as [st' outcome] eqn:E.
  pose proof E as Hcases.
  apply merge_step_cases in Hcases
    as [[-> ->] | [(c & _ & _ & _ & -> & ->) | (c & j & heap' & _ & Hget & Hw & ->)]].
  - exists (heap, merged). split; [reflexivity|]. unfold complete_inv; simpl. auto.
  - eexists. split; [reflexivity|]. unfold complete_inv; simpl.
    split; [assumption|]. split; [assumption|].
    unfold dict_values. rewrite map_app. apply Forall_app. split; [assumption|].
    now repeat constructor.
  - assert (Hj : (j < n)%nat).
    { apply dict_get_In in Hget. rewrite List.Forall_forall in Hrefs. now apply Hrefs. }
    destruct (Hall r Hr) as ([sr Hsr] & [er Her] & _).
    destruct (Hall j Hj) as ([sj Hsj] & [ej Hej] & Hint).
    destruct (widen_total heap r j sr er sj ej Hsr Her Hsj Hej) as [heap'' Hw'].
    rewrite Hw in Hw'. inversion Hw'; subst heap'' outcome.
    exists (heap', merged). split; [reflexivity|].
    apply widen_inv in Hw as (sr' & er' & sj' & ej' & _ & _ & _ & _ & Hj' & ->).
    unfold complete_inv; simpl.
    split; [now rewrite length_insert|]. split; [|assumption].
    intros i Hi. destruct (decide (i = j)) as [->|Hne].
    + rewrite list_lookup_total_insert_eq by assumption.
      split; [simpl; eauto|]. split; [simpl; eauto | exact Hint].
    + rewrite list_lookup_total_insert_ne by congruence. now apply Hall.
Qed.

Lemma merge_step_keeps_admission count st r st' outcome :
  admission_inv count st -> merge_step count st r = (st', outcome) ->
  admission_inv count st'.
Proof.
  destruct st as [heap merged]. intros [Hnd Hlen] H. simpl in Hnd, Hlen.
  apply merge_step_cases in H
    as [[-> _] | [(c & _ & Hget & Hle & -> & _) | (c & j & heap' & _ & _ & _ & ->)]];
    unfold admission_inv; simpl; auto.
  split.
  - rewrite map_app. simpl. apply NoDup_app.
    split; [assumption|]. split.
    + intros k Hk Hk'. apply list_elem_of_In in Hk.
      apply list_elem_of_singleton in Hk'. subst.
      now apply dict_get_None_keys in Hget.
    + apply NoDup_singleton.
  - rewrite length_app. simpl. lia.
Qed.

Lemma merge_step_negative count (heap : store) r :
  count < 0 -> merge_step count (heap, []) r = ((heap, []), Ok tt).
Proof.
  intros Hneg. unfold merge_step.
  destruct (Heatmap.chapter (heap !!! r)); [|reflexivity].
  simpl. destruct (Z.leb_spec (Z.of_nat 0) count); [lia | reflexivity].
Qed.

(** ** The sort *)

Lemma key_lt_raises x y e : key_lt x y = Raise e -> e = TypeError.
Proof. destruct x, y; simpl; intros H; inversion H; reflexivity. Qed.

Lemma insert_desc_perm key x l l' :
  insert_desc key x l = Ok l' -> l' ≡ₚ x :: l.
Proof.
  revert l'. induction l as [|y ys IH]; simpl; intros l' H.
  - inversion H. reflexivity.
  - bind_cases H. destruct a.
    + bind_cases H. inversion H; subst.
      rewrite (IH _ eq_refl). apply Permutation_swap.
    + inversion H. reflexivity.
Qed.

Lemma sorted_reverse_perm key l s :
  sorted_reverse key l = Ok s -> s ≡ₚ l.
Proof.
  revert s. induction l as [|x xs IH]; simpl; intros s H.
  - inversion H. reflexivity.
  - bind_cases H. apply insert_desc_perm in H. rewrite H.
    constructor. now apply IH.
Qed.

Lemma insert_desc_total key x l :
  is_Some (key x) -> Forall (fun y => is_Some (key y)) l ->
  exists l', insert_desc key x l = Ok l'.
Proof.
  intros [a Ha]. induction 1 as [|y ys [b Hb] _ [l' IH]]; simpl.
  - eauto.
  - rewrite Ha, Hb. simpl. destruct (negb (Qle_bool b a)); [|eauto].
    rewrite IH. simpl. eauto.
Qed.

Lemma sorted_reverse_total key l :
  Forall (fun y => is_Some (key y)) l -> exists s, sorted_reverse key l = Ok s.
Proof.
  induction 1 as [|x xs Hx Hxs [s IH]]; simpl; [eauto|].
  rewrite IH. simpl. apply insert_desc_total; [assumption|].
  apply sorted_reverse_perm in IH. now rewrite IH.
Qed.

Lemma insert_desc_raises key x l e :
  insert_desc key x l = Raise e -> e = TypeError.
Proof.
  induction l as [|y ys IH]; simpl; [discriminate|]. intros H.
  bind_split H E; [|inversion H; subst; now apply key_lt_raises in E].
  destruct a; [|discriminate].
  bind_split H E'; [discriminate|]. inversion H; subst. now apply IH.
Qed.

Lemma sorted_reverse_raises key l e :
  sorted_reverse key l = Raise e -> e = TypeError.
Proof.
  induction l as [|x xs IH]; simpl; [discriminate|]. intros H.
  bind_split H E; [now apply insert_desc_raises in H|].
  inversion H; subst. now apply IH.
Qed.



(** The sort ranks by descending intensity and keeps ties in the order of
    the list: it is [sorted] with [reverse=True]. *)
Lemma insert_desc_ranked key x s s' :
  StronglySorted (ranked_before key) s ->
  Forall (fun y => (x < y)%nat) s ->
  insert_desc key x s = Ok s' ->
  StronglySorted (ranked_before key) s'.
Proof.
  revert s'. induction s as [|y ys IH]; simpl; intros s' Hsorted Hlt H.
  - inversion H. repeat constructor.
  - apply StronglySorted_inv in Hsorted as [Hys Hy].
    apply Forall_cons in Hlt as [Hxy Hxys].
    destruct (key x) as [kx|] eqn:Hkx, (key y) as [ky|] eqn:Hky;
      simpl in H; try discriminate.
    destruct (Qle_bool ky kx) eqn:Hle; simpl in H.
    + inversion H; subst. apply Qle_bool_iff in Hle.
      constructor; [now constructor|]. constructor.
      * exists kx, ky. split; [assumption|]. split; [assumption|].
        destruct (Qlt_le_dec ky kx); [now left | right; split; [lra | assumption]].
      * rewrite List.Forall_forall in Hy, Hxys |- *. intros z Hz.
        destruct (Hy z Hz) as (ky' & kz & Hky' & Hkz & Hord).
        assert (ky' = ky) by congruence. subst ky'.
        exists kx, kz. split; [assumption|]. split; [assumption|].
        destruct (Qlt_le_dec kz kx); [now left|].
        right. split; [destruct Hord as [|[? _]]; lra | now apply Hxys].
    + destruct (insert_desc key x ys) as [rest|] eqn:Hins; simpl in H; [|discriminate].
      inversion H; subst.
      constructor; [now apply IH|].
      apply insert_desc_perm in Hins. rewrite Hins. constructor; [|assumption].
      exists ky, kx. split; [assumption|]. split; [assumption|]. left.
      apply Qnot_le_lt. intros Hc. apply Qle_bool_iff in Hc. congruence.
Qed.

Lemma sorted_reverse_ranked key l s :
  StronglySorted lt l ->
  sorted_reverse key l = Ok s ->
  StronglySorted (ranked_before key) s.
Proof.
  revert s. induction l as [|x xs IH]; simpl; intros s Hl H.
  - inversion H. constructor.
  - apply StronglySorted_inv in Hl as [Hxs Hx].
    destruct (sorted_reverse key xs) as [s0|] eqn:Hs0; simpl in H; [|discriminate].
    apply (insert_desc_ranked key x s0); [now apply IH | | assumption].
    apply sorted_reverse_perm in Hs0. now rewrite Hs0.
Qed.

Lemma seq_increasing a n : StronglySorted lt (seq a n).
Proof.
  revert a. induction n as [|n IH]; intros a; simpl; constructor; [apply IH|].
  apply List.Forall_forall. intros y Hy. apply in_seq in Hy. lia.
Qed.

Lemma sorted_heatmaps_ranked (heap : store) sorted_heatmaps :
  sorted_reverse (intensity_key heap) (seq 0 (length heap)) = Ok sorted_heatmaps ->
  sorted_heatmaps ≡ₚ seq 0 (length heap)
  /\ StronglySorted (ranked_before (intensity_key heap)) sorted_heatmaps.
Proof.
  intros H. split; [exact (sorted_reverse_perm _ _ _ H)|].
  eapply sorted_reverse_ranked; [apply seq_increasing | exact H].
Qed.

(** Without merging, five heatmaps of intensities 0.9, 0.1, 0.8, 0.5, 0.95
    and a count of 3 give those of 0.95, 0.9 and 0.8, in that order. *)
Lemma three_most_intense_of_five :
  most_intense_heatmaps five_heatmaps false 3
  = (five_heatmaps, Ok [4%nat; 0%nat; 2%nat]).
Proof. reflexivity. Qed.

(** ** The loop *)

Lemma for_state_keeps {A S} (body : S -> A -> S * result unit) (I : S -> Prop) l :
  (forall s x s' outcome, I s -> body s x = (s', outcome) -> I s') ->
  forall s s' outcome, I s -> for_state body l s = (s', outcome) -> I s'.
Proof.
  intros Hstep. induction l as [|x xs IH]; simpl; intros s s' outcome Hs H.
  - inversion H. now subst.
  - destruct (body s x) as [s1 [[]|e]] eqn:E.
    + eapply IH; [|exact H]. eapply Hstep; eassumption.
    + inversion H; subst. eapply Hstep; eassumption.
Qed.

Lemma for_state_total {A S} (body : S -> A -> S * result unit) (I : S -> Prop)
    (P : A -> Prop) l :
  (forall s x, P x -> I s -> exists s', body s x = (s', Ok tt) /\ I s') ->
  Forall P l ->
  forall s, I s -> exists s', for_state body l s = (s', Ok tt) /\ I s'.
Proof.
  intros Hstep. induction 1 as [|x xs Hx _ IH]; simpl; intros s Hs.
  - eauto.
  - destruct (Hstep s x Hx Hs) as (s1 & -> & Hs1). now apply IH.
Qed.

Lemma for_state_raises {A S} (body : S -> A -> S * result unit) (e0 : exn) l :
  (forall s x s' e, body s x = (s', Raise e) -> e = e0) ->
  forall s s' e, for_state body l s = (s', Raise e) -> e = e0.
Proof.
  intros Hstep. induction l as [|x xs IH]; simpl; intros s s' e H; [discriminate|].
  destruct (body s x) as [s1 [[]|e1]] eqn:E.
  - now apply IH in H.
  - inversion H; subst. now apply Hstep in E.
Qed.

Lemma merge_inv_start heap0 : merge_inv heap0 (heap0, []).
Proof.
  unfold merge_inv; simpl. split; [reflexivity|].
  split; [intros i; apply widened_refl | reflexivity].
Qed.

Lemma merge_loop_inv heap0 count l st' outcome :
  for_state (merge_step count) l (heap0, []) = (st', outcome) -> merge_inv heap0 st'.
Proof.
  apply (for_state_keeps (merge_step count) (merge_inv heap0)).
  - intros s x s' o Hs Hstep. eapply merge_step_keeps_inv; eassumption.
  - apply merge_inv_start.
Qed.

Lemma merge_loop_total count (heap0 : store) l :
  Forall complete heap0 ->
  Forall (fun r => (r < length heap0)%nat) l ->
  exists st', for_state (merge_step count) l (heap0, []) = (st', Ok tt).
Proof.
  intros Hall Hl.
  destruct (for_state_total (merge_step count) (complete_inv (length heap0))
              (fun r => (r < length heap0)%nat) l) with (s := (heap0, @nil (str * nat)))
    as (st' & Hst' & _); eauto.
  - intros s x Hx Hs. now apply merge_step_keeps_complete.
  - unfold complete_inv; simpl. split; [reflexivity|]. split; [|constructor].
    intros i Hi. rewrite List.Forall_forall in Hall. apply Hall.
    apply list_elem_of_In, list_elem_of_lookup. exists i.
    now apply list_lookup_lookup_total_lt.
Qed.

Lemma merge_loop_admission count l heap0 st' outcome :
  for_state (merge_step count) l (heap0, []) = (st', outcome) -> admission_inv count st'.
Proof.
  apply (for_state_keeps (merge_step count) (admission_inv count)).
  - intros s x s' o Hs Hstep. eapply merge_step_keeps_admission; eassumption.
  - unfold admission_inv; simpl. split; [constructor | lia].
Qed.

(** With a negative [count] nothing is ever entered, and so nothing is
    widened either. *)
Lemma merge_loop_negative count l (heap : store) :
  count < 0 -> for_state (merge_step count) l (heap, []) = ((heap, []), Ok tt).
Proof.
  intros Hneg. induction l as [|r l IH]; [reflexivity|].
  cbn [for_state]. rewrite merge_step_negative by assumption. exact IH.
Qed.

(** ** The whole call *)

(** The ways a call can return. *)
Lemma most_intense_heatmaps_inv self merge count self' refs :
  most_intense_heatmaps self merge count = (self', Ok refs) ->
  exists sorted_heatmaps,
    sorted_reverse (intensity_key (VideoHeatmap.heatmaps self))
                   (seq 0 (length (VideoHeatmap.heatmaps self)))
    = Ok sorted_heatmaps
    /\ (((merge = false \/ chaptered (VideoHeatmap.heatmaps self) sorted_heatmaps < count)
         /\ self' = self /\ refs = slice_to sorted_heatmaps count)
        \/ (merge = true
            /\ count <= chaptered (VideoHeatmap.heatmaps self) sorted_heatmaps
            /\ exists heap' merged_heatmaps,
                 for_state (merge_step count) sorted_heatmaps
                           (VideoHeatmap.heatmaps self, [])
                 = ((heap', merged_heatmaps), Ok tt)
                 /\ self' = {| VideoHeatmap.url := VideoHeatmap.url self;
                               VideoHeatmap.heatmaps := heap' |}
                 /\ refs = dict_values merged_heatmaps)).
Proof.
  unfold most_intense_heatmaps. intros H.
  destruct (sorted_reverse _ _) as [sorted_heatmaps|] eqn:Hs; [|discriminate].
  exists sorted_heatmaps. split; [reflexivity|].
  fold (chaptered (VideoHeatmap.heatmaps self) sorted_heatmaps) in H.
  destruct merge; simpl in H.
  - destruct (Z.ltb_spec (chaptered (VideoHeatmap.heatmaps self) sorted_heatmaps) count).
    + inversion H; subst. left. auto.
    + destruct (for_state _ _ _) as [[heap' merged] [[]|e]] eqn:Hloop;
        simpl in H; inversion H; subst.
      right. split; [reflexivity|]. split; [assumption|]. eauto.
  - inversion H; subst. left. auto.
Qed.

(** What every call keeps, whether it returns or raises. *)
Lemma most_intense_heatmaps_keeps self merge count self' outcome :
  most_intense_heatmaps self merge count = (self', outcome) ->
  VideoHeatmap.url self' = VideoHeatmap.url self
  /\ length (VideoHeatmap.heatmaps self') = length (VideoHeatmap.heatmaps self)
  /\ (merge = false -> self' = self)
  /\ (forall i, widened (VideoHeatmap.heatmaps self !!! i)
                        (VideoHeatmap.heatmaps self' !!! i)).
Proof.
  unfold most_intense_heatmaps. intros H.
  assert (Hsame : forall o, (self', outcome) = (self, o) ->
            VideoHeatmap.url self' = VideoHeatmap.url self
            /\ length (VideoHeatmap.heatmaps self') = length (VideoHeatmap.heatmaps self)
            /\ (merge = false -> self' = self)
            /\ (forall i, widened (VideoHeatmap.heatmaps self !!! i)
                                  (VideoHeatmap.heatmaps self' !!! i))).
  { intros o Ho. inversion Ho; subst. split; [reflexivity|]. split; [reflexivity|].
    split; [reflexivity | intros i; apply widened_refl]. }
  destruct (sorted_reverse _ _) as [sorted_heatmaps|]; [|now apply (Hsame _ (eq_sym H))].
  destruct merge; simpl in H; [|now apply (Hsame _ (eq_sym H))].
  destruct (_ <? _); [now apply (Hsame _ (eq_sym H))|].
  destruct (for_state _ _ _) as [[heap' merged] o] eqn:Hloop.
  inversion H; subst; simpl.
  apply merge_loop_inv in Hloop as (Hlen & Hwid & _). simpl in *.
  split; [reflexivity|]. split; [assumption|]. split; [discriminate | assumption].
Qed.

Lemma sorted_in_store (heap : store) sorted_heatmaps :
  sorted_reverse (intensity_key heap) (seq 0 (length heap)) = Ok sorted_heatmaps ->
  Forall (fun r => (r < length heap)%nat) sorted_heatmaps.
Proof.
  intros H. apply sorted_reverse_perm in H. rewrite H.
  apply List.Forall_forall. intros r Hr. apply in_seq in Hr. lia.
Qed.

Lemma most_intense_heatmaps_total self merge count :
  Forall complete (VideoHeatmap.heatmaps self) ->
  exists self' refs, most_intense_heatmaps self merge count = (self', Ok refs).
Proof.
  intros Hall. unfold most_intense_heatmaps.
  destruct (sorted_reverse_total (intensity_key (VideoHeatmap.heatmaps self))
              (seq 0 (length (VideoHeatmap.heatmaps self)))) as [sorted_heatmaps Hs].
  { apply List.Forall_forall. intros r Hr. apply in_seq in Hr.
    rewrite List.Forall_forall in Hall.
    assert (Hin : In (VideoHeatmap.heatmaps self !!! r) (VideoHeatmap.heatmaps self)).
    { apply list_elem_of_In, list_elem_of_lookup. exists r.
      apply list_lookup_lookup_total_lt. lia. }
    now destruct (Hall _ Hin) as (_ & _ & Hint). }
  rewrite Hs.
  destruct (negb merge || _); [eauto|].
  destruct (merge_loop_total count (VideoHeatmap.heatmaps self) sorted_heatmaps Hall)
    as [[heap' merged] Hloop]; [now apply sorted_in_store|].
  rewrite Hloop. simpl. eauto.
Qed.

(** A call raises only on a comparison with a missing intensity or time. *)
Lemma most_intense_heatmaps_raises self merge count self' e :
  most_intense_heatmaps self merge count = (self', Raise e) -> e = TypeError.
Proof.
  unfold most_intense_heatmaps. intros H.
  destruct (sorted_reverse _ _) as [sorted_heatmaps|e0] eqn:E;
    [|inversion H; subst; now apply sorted_reverse_raises in E].
  destruct (negb merge || _); [discriminate|].
  destruct (for_state _ _ _) as [[heap' merged] [[]|e']] eqn:E'; simpl in H;
    [discriminate|].
  inversion H; subst.
  eapply (for_state_raises (merge_step count) TypeError); [|exact E'].
  intros s x s' e0. apply merge_step_raises.
Qed.

Lemma length_slice_to {A} (l : list A) n :
  0 <= n -> Z.of_nat (length (slice_to l n)) <= n.
Proof.
  intros Hn. unfold slice_to. destruct (Z.leb_spec 0 n); [|lia].
  rewrite length_take. lia.
Qed.

Lemma length_slice_to_neg {A} (l : list A) n :
  n < 0 -> Z.of_nat (length (slice_to l n)) = Z.max 0 (Z.of_nat (length l) + n).
Proof.
  intros Hn. unfold slice_to. destruct (Z.leb_spec 0 n); [lia|].
  rewrite length_take. lia.
Qed.

Lemma chaptered_nonneg heap sorted_heatmaps : 0 <= chaptered heap sorted_heatmaps.
Proof. unfold chaptered. lia. Qed.




(** C8, as the code has it: a call of [most_intense_heatmaps], whether it
    returns or raises, leaves the receiver with the same url and the same
    number of heatmaps, each with the chapter and intensity it had; with
    [merge] off the receiver is unchanged; and when the call returns, a stored
    heatmap that is not in the returned list is unchanged altogether.  A stored
    heatmap that the merge returns may have been widened in place: its start is
    the same or earlier, its end the same or later. *)
Theorem most_intense_heatmaps_frame self merge count self' outcome :
  most_intense_heatmaps self merge count = (self', outcome) ->
  VideoHeatmap.url self' = VideoHeatmap.url self
  /\ length (VideoHeatmap.heatmaps self') = length (VideoHeatmap.heatmaps self)
  /\ (merge = false -> self' = self)
  /\ (forall i, widened (VideoHeatmap.heatmaps self !!! i)
                        (VideoHeatmap.heatmaps self' !!! i))
  /\ (forall refs i,
        outcome = Ok refs -> ~ In i refs ->
        VideoHeatmap.heatmaps self' !!! i = VideoHeatmap.heatmaps self !!! i).
Proof.
  intros H.
  destruct (most_intense_heatmaps_keeps _ _ _ _ _ H) as (Hurl & Hlen & Hoff & Hwid).
  split; [assumption|]. split; [assumption|]. split; [assumption|].
  split; [assumption|].
  intros refs i -> Hi.
  apply most_intense_heatmaps_inv in H
    as (sorted_heatmaps & _ & [(_ & -> & ->)
                              | (-> & _ & heap' & merged & Hloop & -> & ->)]).
  - reflexivity.
  - apply merge_loop_inv in Hloop as (_ & _ & Hout). simpl in *. now apply Hout.
Qed.

Lemma two_intro_heatmaps_frame :
  exists self' refs,
    most_intense_heatmaps two_intro_heatmaps true 2 = (self', Ok refs)
    /\ refs = [0%nat]
    /\ VideoHeatmap.heatmaps self' !!! 1%nat
       = VideoHeatmap.heatmaps two_intro_heatmaps !!! 1%nat.
Proof.
  eexists; eexists. split; [reflexivity|]. split; [reflexivity|].
  eapply (most_intense_heatmaps_frame two_intro_heatmaps true 2);
    [reflexivity | reflexivity |].
  simpl. intros [H|[]]. discriminate H.
Defined.

(** C8 as stated fails: merging the two "Intro" heatmaps moves the end of
    the first stored heatmap from 20s to 30s. *)
Lemma merge_changes_stored_end_time :
  exists self' refs,
    most_intense_heatmaps two_intro_heatmaps true 2 = (self', Ok refs)
    /\ Heatmap.end_time (VideoHeatmap.heatmaps two_intro_heatmaps !!! 0%nat)
       = Some (seconds_past_midnight 20)
    /\ Heatmap.end_time (VideoHeatmap.heatmaps self' !!! 0%nat)
       = Some (seconds_past_midnight 30).
Proof. eexists; eexists. repeat split. Qed.

(** C9, as the code has it: a count of zero or below is not rejected.  On a
    receiver whose heatmaps carry their times and intensity the call returns a
    list.  With [merge] off it is the sorted list, which is the heatmaps of the
    receiver most intense first and ties in their order, cut by the slice
    [[:count]]: empty for 0, all but the last [-count] for a negative count.
    With [merge] on it is empty for a negative count and has at most one entry
    for 0. *)
Theorem nonpositive_count_is_answered self merge count :
  count <= 0 ->
  Forall complete (VideoHeatmap.heatmaps self) ->
  exists self' refs sorted_heatmaps,
    most_intense_heatmaps self merge count = (self', Ok refs)
    /\ sorted_heatmaps ≡ₚ seq 0 (length (VideoHeatmap.heatmaps self))
    /\ StronglySorted (ranked_before (intensity_key (VideoHeatmap.heatmaps self)))
                      sorted_heatmaps
    /\ (merge = false ->
        self' = self
        /\ (count = 0 -> refs = [])
        /\ (count < 0 ->
            refs = take (length sorted_heatmaps - Z.to_nat (- count)) sorted_heatmaps
            /\ Z.of_nat (length refs)
               = Z.max 0 (Z.of_nat (length (VideoHeatmap.heatmaps self)) + count)))
    /\ (merge = true -> count < 0 -> self' = self /\ refs = [])
    /\ (merge = true -> count = 0 -> (length refs <= 1)%nat).
Proof.
  intros Hcount Hall.
  destruct (most_intense_heatmaps_total self merge count Hall) as (self' & refs & H).
  pose proof H as H0.
  apply most_intense_heatmaps_inv in H
    as (sorted_heatmaps & Hs & [([Hm|Hlt] & -> & ->)
                               | (-> & _ & heap' & merged & Hloop & -> & ->)]).
  - exists self, (slice_to sorted_heatmaps count), sorted_heatmaps.
    destruct (sorted_heatmaps_ranked _ _ Hs) as [Hperm Hsorted].
    split; [exact H0|]. split; [exact Hperm|]. split; [exact Hsorted|].
    split; [|split; intros; congruence].
    intros _. split; [reflexivity|]. split; [intros ->; reflexivity|].
    intros Hneg. split.
    + unfold slice_to. destruct (Z.leb_spec 0 count); [lia|]. f_equal. lia.
    + rewrite length_slice_to_neg by assumption.
      apply Permutation_length in Hperm.
      rewrite Hperm, length_seq. reflexivity.
  - pose proof (chaptered_nonneg (VideoHeatmap.heatmaps self) sorted_heatmaps). lia.
  - eexists _, _, sorted_heatmaps.
    destruct (sorted_heatmaps_ranked _ _ Hs) as [Hperm Hsorted].
    split; [exact H0|]. split; [exact Hperm|]. split; [exact Hsorted|].
    split; [discriminate|]. split.
    + intros _ Hneg. rewrite merge_loop_negative in Hloop by assumption.
      inversion Hloop; subst. split; [now destruct self | reflexivity].
    + intros _ ->. apply merge_loop_admission in Hloop as [_ Hlen].
      simpl in Hlen. unfold dict_values. rewrite length_map. lia.
Qed.

Lemma two_intro_heatmaps_count_zero :
  Forall complete (VideoHeatmap.heatmaps two_intro_heatmaps)
  /\ exists self' refs,
       most_intense_heatmaps two_intro_heatmaps true 0 = (self', Ok refs)
       /\ (length refs <= 1)%nat.
Proof.
  assert (Hall : Forall complete (VideoHeatmap.heatmaps two_intro_heatmaps)).
  { repeat constructor; simpl; eauto. }
  split; [exact Hall|].
  destruct (nonpositive_count_is_answered two_intro_heatmaps true 0 ltac:(lia) Hall)
    as (self' & refs & sorted_heatmaps & H & _ & _ & _ & _ & Hzero).
  exists self', refs. split; [exact H | now apply Hzero].
Defined.

(** C9 as stated fails: with a count of 0 the merging call returns a list of
    one heatmap, and with a count of -1 the plain call returns the sorted list
    without its last element. *)
Lemma nonpositive_count_returns_a_list :
  ~ (exists self' e, most_intense_heatmaps two_intro_heatmaps true 0 = (self', Raise e))
  /\ (exists self', most_intense_heatmaps two_intro_heatmaps true 0
                    = (self', Ok [0%nat]))
  /\ most_intense_heatmaps two_intro_heatmaps false (-1)
     = (two_intro_heatmaps, Ok [0%nat]).
Proof.
  split; [intros (self' & e & H); discriminate H|].
  split; [eexists; reflexivity | reflexivity].
Qed.

(** A heatmap whose title is in the dict widens the entry the dict refers
    to, and changes nothing else. *)
Lemma merge_step_known_title count (heap : store) (merged : dict) r j c sr er sj ej :
  Heatmap.chapter (heap !!! r) = Some c ->
  dict_get (Chapter.title c) merged = Some j ->
  Heatmap.start_time (heap !!! r) = Some sr ->
  Heatmap.end_time (heap !!! r) = Some er ->
  Heatmap.start_time (heap !!! j) = Some sj ->
  Heatmap.end_time (heap !!! j) = Some ej ->
  exists s' e',
    is_minimum s' sj sr /\ is_maximum e' ej er
    /\ (j < length heap)%nat
    /\ merge_step count (heap, merged) r
       = ((<[j := {| Heatmap.chapter := Heatmap.chapter (heap !!! j);
                     Heatmap.start_time := Some s';
                     Heatmap.end_time := Some e';
                     Heatmap.intensity_score_normalised :=
                       Heatmap.intensity_score_normalised (heap !!! j) |}]> heap,
           merged),
          Ok tt).
Proof.
  intros Hc Hget Hsr Her Hsj Hej.
  destruct (widen_total heap r j sr er sj ej Hsr Her Hsj Hej) as [heap' Hw].
  pose proof Hw as Hw'.
  apply widen_inv in Hw'
    as (sr' & er' & sj' & ej' & Hsr' & Her' & Hsj' & Hej' & Hj & ->).
  assert (sr' = sr) by congruence. assert (er' = er) by congruence.
  assert (sj' = sj) by congruence. assert (ej' = ej) by congruence. subst.
  exists (if datetime.leb sr sj then sr else sj),
         (if datetime.leb ej er then er else ej).
  split; [apply is_minimum_chosen|]. split; [apply is_maximum_chosen|].
  split; [assumption|].
  unfold merge_step. rewrite Hc, Hget. simpl. now rewrite Hw.
Qed.

(** Two heatmaps of chapters with one title, ranked with a count from 0 to
    2: one entry comes back, spanning both. *)
Lemma merge_two_of_one_title url c1 c2 s1 e1 s2 e2 i1 i2 count :
  Chapter.title c1 = Chapter.title c2 ->
  0 <= count <= 2 ->
  exists self' r s e,
    most_intense_heatmaps
      {| VideoHeatmap.url := url;
         VideoHeatmap.heatmaps :=
           [ {| Heatmap.chapter := Some c1; Heatmap.start_time := Some s1;
                Heatmap.end_time := Some e1;
                Heatmap.intensity_score_normalised := Some i1 |};
             {| Heatmap.chapter := Some c2; Heatmap.start_time := Some s2;
                Heatmap.end_time := Some e2;
                Heatmap.intensity_score_normalised := Some i2 |} ] |}
      true count
    = (self', Ok [r])
    /\ Heatmap.start_time (VideoHeatmap.heatmaps self' !!! r) = Some s
    /\ Heatmap.end_time (VideoHeatmap.heatmaps self' !!! r) = Some e
    /\ is_minimum s s1 s2 /\ is_maximum e e1 e2.
Proof.
  intros Htitle Hcount.
  assert (Heq : str_eqb (Chapter.title c1) (Chapter.title c2) = true)
    by now apply str_eqb_eq.
  assert (Heq' : str_eqb (Chapter.title c2) (Chapter.title c1) = true)
    by now apply str_eqb_eq.
  unfold most_intense_heatmaps. simpl.
  destruct (Qle_bool i2 i1); simpl.
  - (* the first heatmap ranks first and is the entry *)
    replace (Z.of_nat 2 <? count) with false by (symmetry; apply Z.ltb_ge; lia).
    replace (Z.of_nat 0 <=? count) with true by (symmetry; apply Z.leb_le; lia).
    simpl. rewrite Heq. simpl.
    exists {| VideoHeatmap.url := url;
              VideoHeatmap.heatmaps :=
                [ {| Heatmap.chapter := Some c1;
                     Heatmap.start_time := Some (if datetime.leb s2 s1 then s2 else s1);
                     Heatmap.end_time := Some (if datetime.leb e1 e2 then e2 else e1);
                     Heatmap.intensity_score_normalised := Some i1 |};
                  {| Heatmap.chapter := Some c2; Heatmap.start_time := Some s2;
                     Heatmap.end_time := Some e2;
                     Heatmap.intensity_score_normalised := Some i2 |} ] |},
           0%nat,
           (if datetime.leb s2 s1 then s2 else s1),
           (if datetime.leb e1 e2 then e2 else e1).
    split.
    + unfold widen. simpl.
      destruct (datetime.leb s2 s1); simpl; destruct (datetime.leb e1 e2); reflexivity.
    + split; [reflexivity|]. split; [reflexivity|].
      split; [apply is_minimum_chosen | apply is_maximum_chosen].
  - (* the second heatmap ranks first and is the entry *)
    replace (Z.of_nat 2 <? count) with false by (symmetry; apply Z.ltb_ge; lia).
    replace (Z.of_nat 0 <=? count) with true by (symmetry; apply Z.leb_le; lia).
    simpl. rewrite Heq'. simpl.
    exists {| VideoHeatmap.url := url;
              VideoHeatmap.heatmaps :=
                [ {| Heatmap.chapter := Some c1; Heatmap.start_time := Some s1;
                     Heatmap.end_time := Some e1;
                     Heatmap.intensity_score_normalised := Some i1 |};
                  {| Heatmap.chapter := Some c2;
                     Heatmap.start_time := Some (if datetime.leb s1 s2 then s1 else s2);
                     Heatmap.end_time := Some (if datetime.leb e2 e1 then e1 else e2);
                     Heatmap.intensity_score_normalised := Some i2 |} ] |},
           1%nat,
           (if datetime.leb s1 s2 then s1 else s2),
           (if datetime.leb e2 e1 then e1 else e2).
    split.
    + unfold widen. simpl.
      destruct (datetime.leb s1 s2); simpl; destruct (datetime.leb e2 e1); reflexivity.
    + split; [reflexivity|]. split; [reflexivity|].
      destruct (is_minimum_chosen s2 s1) as (Hm1 & Hm2 & Hm3).
      destruct (is_maximum_chosen e2 e1) as (HM1 & HM2 & HM3).
      split; split; tauto.
Qed.

(** C2: in the merge loop a heatmap whose chapter title is already in the
    dict widens the entry under that title in place, and does nothing else: the
    dict is unchanged, the store changes at the entry only, the start of the
    entry becomes the lesser of the two starts and its end the greater of the
    two ends.  So with the "Intro" heatmap over (10s, 20s) in the dict, the
    "Intro" heatmap over (15s, 30s) makes the entry span (10s, 30s), whatever
    the count; and a call on two heatmaps of one title with a count from 0 to
    2, for which the loop is reached and the first of them entered, returns a
    single entry with the lesser start and the greater end. *)
Theorem merge_widens_entry_in_place :
  (forall count (heap : store) (merged : dict) r j c sr er sj ej,
      Heatmap.chapter (heap !!! r) = Some c ->
      dict_get (Chapter.title c) merged = Some j ->
      Heatmap.start_time (heap !!! r) = Some sr ->
      Heatmap.end_time (heap !!! r) = Some er ->
      Heatmap.start_time (heap !!! j) = Some sj ->
      Heatmap.end_time (heap !!! j) = Some ej ->
      exists s' e',
        is_minimum s' sj sr /\ is_maximum e' ej er
        /\ (j < length heap)%nat
        /\ merge_step count (heap, merged) r
           = ((<[j := {| Heatmap.chapter := Heatmap.chapter (heap !!! j);
                         Heatmap.start_time := Some s';
                         Heatmap.end_time := Some e';
                         Heatmap.intensity_score_normalised :=
                           Heatmap.intensity_score_normalised (heap !!! j) |}]> heap,
               merged),
              Ok tt))
  /\ (forall url c1 c2 s1 e1 s2 e2 i1 i2 count,
        Chapter.title c1 = Chapter.title c2 ->
        0 <= count <= 2 ->
        exists self' r s e,
          most_intense_heatmaps
            {| VideoHeatmap.url := url;
               VideoHeatmap.heatmaps :=
                 [ {| Heatmap.chapter := Some c1; Heatmap.start_time := Some s1;
                      Heatmap.end_time := Some e1;
                      Heatmap.intensity_score_normalised := Some i1 |};
                   {| Heatmap.chapter := Some c2; Heatmap.start_time := Some s2;
                      Heatmap.end_time := Some e2;
                      Heatmap.intensity_score_normalised := Some i2 |} ] |}
            true count
          = (self', Ok [r])
          /\ Heatmap.start_time (VideoHeatmap.heatmaps self' !!! r) = Some s
          /\ Heatmap.end_time (VideoHeatmap.heatmaps self' !!! r) = Some e
          /\ is_minimum s s1 s2 /\ is_maximum e e1 e2)
  /\ (forall count,
        exists heap',
          merge_step count (VideoHeatmap.heatmaps two_intro_heatmaps,
                            [(str_of "Intro", 0%nat)]) 1%nat
          = ((heap', [(str_of "Intro", 0%nat)]), Ok tt)
          /\ Heatmap.start_time (heap' !!! 0%nat) = Some (seconds_past_midnight 10)
          /\ Heatmap.end_time (heap' !!! 0%nat) = Some (seconds_past_midnight 30)
          /\ heap' !!! 1%nat = VideoHeatmap.heatmaps two_intro_heatmaps !!! 1%nat).
Proof.
  split; [|split].
  - intros. eapply merge_step_known_title; eassumption.
  - intros. now apply merge_two_of_one_title.
  - intros count. eexists. repeat split.
Qed.

Lemma is_minimum_10_15 s :
  is_minimum s (seconds_past_midnight 10) (seconds_past_midnight 15) ->
  s = seconds_past_midnight 10.
Proof.
  intros ([->| ->] & H1 & _); [reflexivity|]. vm_compute in H1. discriminate H1.
Defined.

Lemma is_maximum_20_30 e :
  is_maximum e (seconds_past_midnight 20) (seconds_past_midnight 30) ->
  e = seconds_past_midnight 30.
Proof.
  intros ([->| ->] & _ & H2); [|reflexivity]. vm_compute in H2. discriminate H2.
Defined.

(** The two "Intro" heatmaps over (10s, 20s) and (15s, 30s) merge into one
    entry over (10s, 30s); and in the loop, the second of them widens the entry
    of the first. *)
Lemma two_intro_heatmaps_merge :
  (exists self' r,
      most_intense_heatmaps two_intro_heatmaps true 2 = (self', Ok [r])
      /\ Heatmap.start_time (VideoHeatmap.heatmaps self' !!! r)
         = Some (seconds_past_midnight 10)
      /\ Heatmap.end_time (VideoHeatmap.heatmaps self' !!! r)
         = Some (seconds_past_midnight 30))
  /\ (exists heap',
        merge_step 2 (VideoHeatmap.heatmaps two_intro_heatmaps,
                      [(str_of "Intro", 0%nat)]) 1%nat
        = ((heap', [(str_of "Intro", 0%nat)]), Ok tt)
        /\ Heatmap.start_time (heap' !!! 0%nat) = Some (seconds_past_midnight 10)
        /\ Heatmap.end_time (heap' !!! 0%nat) = Some (seconds_past_midnight 30)).
Proof.
  split.
  - destruct (proj1 (proj2 merge_widens_entry_in_place)
                (str_of "https://youtu.be/abc")
                (chapter_at "Intro" 0 60) (chapter_at "Intro" 0 60)
                (seconds_past_midnight 10) (seconds_past_midnight 20)
                (seconds_past_midnight 15) (seconds_past_midnight 30)
                (9 # 10) (5 # 10) 2 eq_refl ltac:(lia))
      as (self' & r & s & e & H & Hs & He & Hmin & Hmax).
    exists self', r. split; [exact H|].
    rewrite Hs, He.
    rewrite (is_minimum_10_15 s Hmin), (is_maximum_20_30 e Hmax). split; reflexivity.
  - destruct (proj1 merge_widens_entry_in_place 2
                (VideoHeatmap.heatmaps two_intro_heatmaps)
                [(str_of "Intro", 0%nat)] 1%nat 0%nat (chapter_at "Intro" 0 60)
                (seconds_past_midnight 15) (seconds_past_midnight 30)
                (seconds_past_midnight 10) (seconds_past_midnight 20)
                eq_refl eq_refl eq_refl eq_refl eq_refl eq_refl)
      as (s' & e' & Hmin & Hmax & Hj & Hstep).
    eexists. split; [exact Hstep|].
    rewrite (is_minimum_10_15 s' Hmin), (is_maximum_20_30 e' Hmax). split; reflexivity.
Defined.

(** * Further properties of the time arithmetic *)

Lemma py_int_quot a b : py_int (a # b) = Z.quot a (Zpos b).
Proof. reflexivity. Qed.

Lemma milliseconds_as_seconds ms :
  Z.abs ms < float_overflow * 1000 ->
  milliseconds_to_time ms = seconds_to_time (PyInt (Z.quot ms 1000)).
Proof.
  intros H. unfold milliseconds_to_time, true_div.
  destruct (Z.leb_spec (float_overflow * 1000) (Z.abs ms)); [lia|].
  reflexivity.
Qed.

Lemma float_overflow_pos : 10 ^ 9 < float_overflow * 1000.
Proof. pose proof float_overflow_large. 
  assert (10 ^ 9 < 10 ^ 300) by (apply Z.pow_lt_mono_r; lia). lia. Qed.

Lemma quot_1000_within_day ms :
  -1000 < ms < 86400000 <-> 0 <= Z.quot ms 1000 < 86400.
Proof.
  destruct (Z.le_gt_cases 0 ms).
  - rewrite Z.quot_div_nonneg by lia.
    pose proof (Z.div_le_lower_bound ms 1000 86400).
    pose proof (Z.div_lt_upper_bound ms 1000 86400).
    pose proof (Z.div_pos ms 1000).
    split; intros; [lia|].
    split; [lia|]. destruct (Z.lt_ge_cases ms 86400000); [lia|]. lia.
  - pose proof (Z.quot_opp_l ms 1000 ltac:(lia)) as Ho.
    assert (Z.quot ms 1000 = - Z.quot (- ms) 1000) as -> by lia.
    rewrite Z.quot_div_nonneg by lia.
    pose proof (Z.div_pos (- ms) 1000).
    destruct (Z.lt_ge_cases (- ms) 1000).
    + rewrite Z.div_small by lia. lia.
    + pose proof (Z.div_le_lower_bound (- ms) 1000 1). lia.
Qed.

Lemma milliseconds_to_time_inv ms t :
  milliseconds_to_time ms = Ok t ->
  -1000 < ms < 86400000
  /\ t = seconds_past_midnight (Z.quot ms 1000)
  /\ time_to_seconds t = Z.quot ms 1000
  /\ datetime.valid t.
Proof.
  intros H.
  assert (Z.abs ms < float_overflow * 1000) as Hsmall.
  { destruct (Z.lt_ge_cases (Z.abs ms) (float_overflow * 1000)) as [|Hbig]; [assumption|].
    unfold milliseconds_to_time, true_div in H.
    destruct (Z.leb_spec (float_overflow * 1000) (Z.abs ms)); [discriminate|lia]. }
  rewrite (milliseconds_as_seconds ms Hsmall) in H.
  pose proof (seconds_to_time_valid _ _ H) as Hv.
  apply seconds_to_time_int_inv in H as Hinv. destruct Hinv as [Hr Ht].
  split; [apply quot_1000_within_day; exact Hr|].
  split; [|split; [exact Ht|exact Hv]].
  rewrite seconds_to_time_int_Ok in H by exact Hr.
  unfold seconds_past_midnight. congruence.
Qed.

Lemma refusal_of_milliseconds ms :
  refusal (Z.quot ms 1000)
  = if (- 3600 * 2 ^ 31 * 1000 - 1000 <? ms) && (ms <? 3600 * 2 ^ 31 * 1000)
    then ValueError else OverflowError.
Proof.
  unfold refusal.
  assert (2 ^ 31 = 2147483648) as -> by reflexivity.
  assert ((0 <= ms /\ Z.quot ms 1000 = ms / 1000)
          \/ (ms < 0 /\ Z.quot ms 1000 = - ((- ms) / 1000))) as Hq.
  { destruct (Z.le_gt_cases 0 ms).
    - left. split; [assumption|]. apply Z.quot_div_nonneg; lia.
    - right. split; [lia|]. pose proof (Z.quot_opp_l ms 1000 ltac:(lia)) as Ho.
      rewrite <- (Z.quot_div_nonneg (- ms) 1000) by lia. lia. }
  pose proof (Z.div_mod ms 1000 ltac:(lia)) as Hd.
  pose proof (Z.mod_pos_bound ms 1000 ltac:(lia)) as Hm.
  pose proof (Z.div_mod (- ms) 1000 ltac:(lia)) as Hd'.
  pose proof (Z.mod_pos_bound (- ms) 1000 ltac:(lia)) as Hm'.
  assert (0 <= ms -> 0 <= ms / 1000) as Hp by (intros; apply Z.div_pos; lia).
  assert (ms < 0 -> 0 <= (- ms) / 1000) as Hn by (intros; apply Z.div_pos; lia).
  destruct (Z.leb_spec (- 3600 * 2147483648) (Z.quot ms 1000)),
    (Z.ltb_spec (Z.quot ms 1000) (3600 * 2147483648)),
    (Z.ltb_spec (- 3600 * 2147483648 * 1000 - 1000) ms),
    (Z.ltb_spec ms (3600 * 2147483648 * 1000));
    try reflexivity; exfalso; lia.
Qed.

(** X1: [milliseconds_to_time] returns exactly for the milliseconds from
    -999 to 86399999.  The time returned is that of the whole seconds, the
    milliseconds being cut off toward zero, so that a negative fraction of a
    second gives midnight.  Any other argument raises: [ValueError] while the
    hour of the whole seconds fits a C [int], [OverflowError] beyond, where the
    hour, or already the quotient as a float, is too large. *)
Theorem milliseconds_to_time_characterised (ms : Z) :
  match milliseconds_to_time ms with
  | Ok t =>
      -1000 < ms < 86400000
      /\ t = seconds_past_midnight (Z.quot ms 1000)
      /\ time_to_seconds t = Z.quot ms 1000
  | Raise e =>
      (ms <= -1000 \/ 86400000 <= ms)
      /\ e = if (- 3600 * 2 ^ 31 * 1000 - 1000 <? ms) && (ms <? 3600 * 2 ^ 31 * 1000)
             then ValueError else OverflowError
  end.
Proof.
  pose proof float_overflow_pos as Hf.
  assert (10 ^ 9 = 1000000000) as E9 by reflexivity.
  destruct (milliseconds_to_time ms) as [t|e] eqn:E.
  - apply milliseconds_to_time_inv in E. tauto.
  - destruct (Z.leb_spec (float_overflow * 1000) (Z.abs ms)) as [Hbig|Hsmall].
    + unfold milliseconds_to_time, true_div in E.
      destruct (Z.leb_spec (float_overflow * 1000) (Z.abs ms)); [|lia].
      cbn in E. injection E as <-.
      pose proof float_overflow_large as Hl.
      assert (3600 * 2 ^ 31 * 1000 + 1000 < 10 ^ 300) as Hlt by reflexivity.
      split; [lia|].
      destruct (Z.ltb_spec (- 3600 * 2 ^ 31 * 1000 - 1000) ms),
        (Z.ltb_spec ms (3600 * 2 ^ 31 * 1000)); try reflexivity; lia.
    + rewrite (milliseconds_as_seconds ms Hsmall) in E.
      pose proof (quot_1000_within_day ms) as Hq.
      rewrite <- refusal_of_milliseconds.
      destruct (Z.lt_ge_cases (Z.quot ms 1000) 0) as [Hn|Hn].
      * rewrite seconds_to_time_int_raises in E by lia. split; [lia|congruence].
      * destruct (Z.lt_ge_cases (Z.quot ms 1000) 86400) as [Hm|Hm].
        -- rewrite seconds_to_time_int_Ok in E by lia. discriminate.
        -- rewrite seconds_to_time_int_raises in E by lia. split; [lia|congruence].
Qed.

Lemma seconds_of_valid t :
  datetime.valid t ->
  0 <= time_to_seconds t < 86400
  /\ seconds_past_midnight (time_to_seconds t) = t.
Proof.
  destruct t as [h m s]. unfold datetime.valid, time_to_seconds, seconds_past_midnight.
  cbn. intros (Hh & Hm & Hs). split; [lia|].
  assert ((h * 60 + m) * 60 + s = 3600 * h + (60 * m + s)) as E1 by lia.
  assert (((h * 60 + m) * 60 + s) / 3600 = h) as ->.
  { symmetry. apply (Z.div_unique _ 3600 h (60 * m + s)); lia. }
  assert (((h * 60 + m) * 60 + s) mod 3600 = 60 * m + s) as ->.
  { symmetry. apply (Z.mod_unique _ 3600 h (60 * m + s)); lia. }
  assert ((60 * m + s) / 60 = m) as ->.
  { symmetry. apply (Z.div_unique _ 60 m s); lia. }
  assert (((h * 60 + m) * 60 + s) mod 60 = s) as ->.
  { symmetry. apply (Z.mod_unique _ 60 (h * 60 + m) s); lia. }
  reflexivity.
Qed.

(** X2: on the times that [datetime.time(hour, minute, second)] returns,
    as every time the program builds is, [time_to_seconds] is the inverse of
    [seconds_to_time]: the seconds of such a time lie in [0, 86400) and convert
    back to the same time.  On these times it is one-to-one and carries the
    order of times to the order of integers. *)
Theorem time_to_seconds_is_inverse (h m s h' m' s' : Z) (a b : datetime.time) :
  datetime.time_new h m s = Ok a ->
  datetime.time_new h' m' s' = Ok b ->
  0 <= time_to_seconds a < 86400
  /\ seconds_to_time (PyInt (time_to_seconds a)) = Ok a
  /\ (datetime.leb a b = true <-> time_to_seconds a <= time_to_seconds b)
  /\ (time_to_seconds a = time_to_seconds b -> a = b).
Proof.
  intros Ea0 Eb0.
  assert (datetime.valid a) as Ha.
  { apply time_new_inv in Ea0 as (-> & Hh & Hm & Hs). unfold datetime.valid. cbn. lia. }
  assert (datetime.valid b) as Hb.
  { apply time_new_inv in Eb0 as (-> & Hh & Hm & Hs). unfold datetime.valid. cbn. lia. }
  destruct (seconds_of_valid a Ha) as [Hr Ea].
  destruct (seconds_of_valid b Hb) as [_ Eb].
  split; [exact Hr|]. split; [|split].
  - rewrite seconds_to_time_int_Ok by exact Hr.
    f_equal. exact Ea.
  - apply leb_seconds; assumption.
  - intros E. rewrite <- Ea, <- Eb, E. reflexivity.
Qed.

Lemma noon_and_half_past :
  0 <= time_to_seconds (datetime.mk_time 12 0 0) < 86400
  /\ seconds_to_time (PyInt (time_to_seconds (datetime.mk_time 12 0 0)))
     = Ok (datetime.mk_time 12 0 0)
  /\ (datetime.leb (datetime.mk_time 12 0 0) (datetime.mk_time 12 30 0) = true
      <-> time_to_seconds (datetime.mk_time 12 0 0)
          <= time_to_seconds (datetime.mk_time 12 30 0))
  /\ (time_to_seconds (datetime.mk_time 12 0 0)
      = time_to_seconds (datetime.mk_time 12 30 0) ->
      datetime.mk_time 12 0 0 = datetime.mk_time 12 30 0).
Proof.
  apply (time_to_seconds_is_inverse 12 0 0 12 30 0
           (datetime.mk_time 12 0 0) (datetime.mk_time 12 30 0));
    reflexivity.
Defined.

Lemma py_round_nearest q :
  (q - (1 # 2) <= inject_Z (py_round q) <= q + (1 # 2))%Q
  /\ ((inject_Z (py_round q) == q - (1 # 2) \/ inject_Z (py_round q) == q + (1 # 2))%Q ->
      Z.even (py_round q) = true).
Proof.
  unfold py_round.
  pose proof (Qfloor_le q) as Hlo. pose proof (Qlt_floor q) as Hhi.
  rewrite inject_Z_plus in Hhi. 
  change (inject_Z 1) with 1%Q in Hhi.
  set (f := Qfloor q) in *.
  destruct (Qcompare_spec (q - inject_Z f) (1 # 2)) as [E|L|G].
  - destruct (Z.even f) eqn:Ev.
    + split; [split; lra|]. intros _. exact Ev.
    + split.
      * rewrite inject_Z_plus. change (inject_Z 1) with 1%Q. split; lra.
      * intros _. rewrite Z.even_add, Ev. reflexivity.
  - split; [split; lra|]. intros [H|H]; lra.
  - rewrite inject_Z_plus. change (inject_Z 1) with 1%Q.
    split; [split; lra|]. intros [H|H]; lra.
Qed.


(** * Further properties of the filename *)

Section FilenameAgain.

Variable isspace : N -> bool.
Variable isalnum : N -> bool.

Lemma lstrip_no_space s :
  Forall (fun c => isspace c = false) s -> lstrip isspace s = s.
Proof. destruct 1 as [|c s Hc _]; cbn; [reflexivity|]. rewrite Hc. reflexivity. Qed.

Lemma strip_no_space s :
  Forall (fun c => isspace c = false) s -> strip isspace s = s.
Proof.
  intros H. unfold strip, rstrip. rewrite (lstrip_no_space s H).
  rewrite lstrip_no_space.
  - apply rev_involutive.
  - apply List.Forall_forall. intros c Hc. apply in_rev in Hc.
    revert c Hc. apply List.Forall_forall. exact H.
Qed.

Lemma replace_space_no_space s : ~ In 32%N s -> replace_space s = s.
Proof.
  unfold replace_space.
  induction s as [|c s IH]; cbn; intros H; [reflexivity|].
  destruct (N.eqb_spec c 32) as [->|_]; [tauto|].
  rewrite IH by tauto. reflexivity.
Qed.

Lemma re_sub_empty_allowed s :
  Forall (fun c => allowed_char isalnum c = true) s -> re_sub_empty isalnum s = s.
Proof.
  induction 1 as [|c s Hc _ IH]; cbn; [reflexivity|].
  rewrite pattern_matches_allowed, Hc. cbn. rewrite IH. reflexivity.
Qed.

(** X4: [valid_filename] applied to its own result changes nothing,
    provided no character that a filename may keep counts as whitespace (as is
    the case for the Unicode tables). *)
Theorem valid_filename_idempotent (s : str) :
  (forall c, allowed_char isalnum c = true -> isspace c = false) ->
  valid_filename isspace isalnum (valid_filename isspace isalnum s)
  = valid_filename isspace isalnum s.
Proof.
  intros Hsp.
  pose proof (valid_filename_allowed isspace isalnum s) as Hall.
  pose proof (valid_filename_no_space isspace isalnum s) as H32.
  set (r := valid_filename isspace isalnum s) in *.
  unfold valid_filename at 1.
  rewrite strip_no_space.
  - rewrite replace_space_no_space by exact H32.
    apply re_sub_empty_allowed. exact Hall.
  - eapply Forall_impl; [exact Hall|]. exact Hsp.
Qed.

End FilenameAgain.

Lemma ascii_allowed_not_space c :
  allowed_char ascii_isalnum c = true -> ascii_isspace c = false.
Proof.
  unfold allowed_char, ascii_isalnum, ascii_isspace. intros H.
  apply not_true_is_false. intros G.
  repeat match goal with
  | H : (_ || _) = true |- _ => apply orb_true_iff in H; destruct H as [H|H]
  | H : (_ && _) = true |- _ => apply andb_true_iff in H; destruct H
  | H : (_ =? _)%N = true |- _ => apply N.eqb_eq in H
  | H : (_ <=? _)%N = true |- _ => apply N.leb_le in H
  end; lia.
Qed.

Lemma valid_filename_twice_on_title :
  (forall c, allowed_char ascii_isalnum c = true -> ascii_isspace c = false)
  /\ valid_filename ascii_isspace ascii_isalnum
       (valid_filename ascii_isspace ascii_isalnum (str_of " Part 2: end "))
     = valid_filename ascii_isspace ascii_isalnum (str_of " Part 2: end ").
Proof.
  split; [exact ascii_allowed_not_space|].
  exact (valid_filename_idempotent ascii_isspace ascii_isalnum
           (str_of " Part 2: end ") ascii_allowed_not_space).
Defined.

(** * Further properties of the clip intervals *)


Lemma generate_clip_between self id d file label s e :
  downloaded id d self ->
  generate_clip self (id ++ file) (label ++ str_of ".mp4") s e
  = Ok {| file_name := str_of "tmp/videos/" ++ id ++ file;
          clip_file_name := str_of "tmp/clips/" ++ label ++ str_of ".mp4";
          t_start := Z.max 0 (time_to_seconds s);
          t_end := if int_lt_number (time_to_seconds e) d
                   then Some (time_to_seconds e) else None |}.
Proof.
  intros [_ Hd]. unfold generate_clip. rewrite Hd. cbn.
  f_equal. f_equal.
  destruct (Z.ltb_spec 0 (time_to_seconds s)); lia.
Qed.

Lemma seconds_to_time_within_day s :
  seconds_to_time (PyInt s)
  = if within_day s then Ok (seconds_past_midnight s) else Raise (refusal s).
Proof.
  unfold within_day.
  destruct (Z.leb_spec 0 s); cbn.
  - destruct (Z.ltb_spec s 86400).
    + apply seconds_to_time_int_Ok. lia.
    + apply seconds_to_time_int_raises. lia.
  - apply seconds_to_time_int_raises. lia.
Qed.

Lemma seconds_past_midnight_seconds s :
  within_day s = true -> time_to_seconds (seconds_past_midnight s) = s.
Proof.
  unfold within_day. intros H. apply andb_true_iff in H as [H1 H2].
  apply Z.leb_le in H1. apply Z.ltb_lt in H2.
  pose proof (seconds_to_time_int_Ok s ltac:(lia)) as E.
  apply seconds_to_time_int_inv in E. tauto.
Qed.

Lemma py_round_exact q n : (q == inject_Z n)%Q -> py_round q = n.
Proof.
  intros E. destruct (py_round_nearest q) as [[H1 H2] _].
  assert (inject_Z (n + -1) < inject_Z (py_round q))%Q as L1.
  { rewrite inject_Z_plus. change (inject_Z (-1)) with (-1)%Q. lra. }
  assert (inject_Z (py_round q) < inject_Z (n + 1))%Q as L2.
  { rewrite inject_Z_plus. change (inject_Z 1) with 1%Q. lra. }
  rewrite <- Zlt_Qlt in L1, L2. lia.
Qed.

Lemma py_round_tie q n :
  (q == inject_Z n + (1 # 2))%Q -> py_round q = if Z.even n then n else n + 1.
Proof.
  intros E. destruct (py_round_nearest q) as [[H1 H2] He].
  assert (inject_Z (n + -1) < inject_Z (py_round q))%Q as L1.
  { rewrite inject_Z_plus. change (inject_Z (-1)) with (-1)%Q. lra. }
  assert (inject_Z (py_round q) < inject_Z (n + 2))%Q as L2.
  { rewrite inject_Z_plus. change (inject_Z 2) with 2%Q. lra. }
  rewrite <- Zlt_Qlt in L1, L2.
  assert (py_round q = n \/ py_round q = n + 1) as [Hr|Hr] by lia.
  - rewrite Hr in He. rewrite Hr. rewrite He; [reflexivity|]. left. lra.
  - rewrite Hr in He. rewrite Hr.
    assert (Z.even (n + 1) = true) as Hev.
    { apply He. right. rewrite inject_Z_plus. change (inject_Z 1) with 1%Q. lra. }
    rewrite Z.even_add in Hev. destruct (Z.even n); [discriminate|reflexivity].
Qed.

Lemma even_half L : Z.even L = true -> L = 2 * (L / 2).
Proof. intros H. apply Z.even_spec in H as [k ->]. rewrite Z.mul_comm, Z.div_mul by lia. lia. Qed.

Lemma odd_half L : Z.odd L = true -> L = 2 * (L / 2) + 1.
Proof.
  intros H. apply Z.odd_spec in H as [k ->].
  replace (2 * k + 1) with (1 + k * 2) at 2 by lia. rewrite Z.div_add by lia.
  change (1 / 2) with 0. lia.
Qed.

Lemma even_or_next n : Z.even (if Z.even n then n else n + 1) = true.
Proof. destruct (Z.even n) eqn:E; [exact E|]. rewrite Z.even_add, E. reflexivity. Qed.

Lemma seconds_to_time_float_inv q t :
  seconds_to_time (PyFloat q) = Ok t ->
  within_day (py_round q) = true /\ time_to_seconds t = py_round q.
Proof.
  change (seconds_to_time (PyFloat q)) with (seconds_to_time (PyInt (py_round q))).
  intros E. apply seconds_to_time_int_inv in E as [Hr Ht]. split; [|exact Ht].
  unfold within_day. apply andb_true_iff. split; [apply Z.leb_le|apply Z.ltb_lt]; lia.
Qed.

Section ClipFacts.

Variable isspace : N -> bool.
Variable isalnum : N -> bool.

Lemma generate_chapter_clip_times self align length chapter id d start_time end_time :
  downloaded id d self ->
  chapter_clip_times chapter align length = Ok (start_time, end_time) ->
  generate_chapter_clip isspace isalnum self align length chapter
  = Ok (clip_between id (valid_filename isspace isalnum (Chapter.title chapter)) d
          (time_to_seconds (or_else start_time (Chapter.start_time chapter)))
          (time_to_seconds (or_else end_time (Chapter.end_time chapter)))).
Proof.
  intros Hd Ht. unfold generate_chapter_clip. rewrite Ht. cbn.
  destruct Hd as [Hi Hd]. rewrite Hi. cbn.
  apply generate_clip_between. split; assumption.
Qed.

Lemma generate_chapter_clip_times_raise self align length chapter e :
  chapter_clip_times chapter align length = Raise e ->
  generate_chapter_clip isspace isalnum self align length chapter = Raise e.
Proof. intros Ht. unfold generate_chapter_clip. rewrite Ht. reflexivity. Qed.

(** X6: without a length ([None] or 0) [generate_chapter_clips] on a
    downloaded video requests one clip for each chapter, in order, over the
    chapter's own interval and under its title made a valid filename, whatever
    the alignment; it does not raise. *)
Theorem chapter_clips_without_length self chapters align length id d :
  length = None \/ length = Some 0 ->
  downloaded id d self ->
  generate_chapter_clips isspace isalnum self chapters align length
  = (map (fun c => clip_between id (valid_filename isspace isalnum (Chapter.title c)) d
                     (time_to_seconds (Chapter.start_time c))
                     (time_to_seconds (Chapter.end_time c))) chapters,
     Ok tt).
Proof.
  intros Hl Hd. unfold generate_chapter_clips.
  assert (forall c, chapter_clip_times c align length = Ok (None, None)) as Ht.
  { intros c. unfold chapter_clip_times. destruct Hl as [-> | ->]; reflexivity. }
  induction chapters as [|c rest IH]; cbn [requested map]; [reflexivity|].
  rewrite (generate_chapter_clip_times self align length c id d None None Hd (Ht c)).
  rewrite IH. reflexivity.
Qed.


(** X7: with a length other than 0 and left alignment, one turn of the loop
    of [generate_chapter_clips] on a downloaded video requests the seconds from
    the chapter's start to that start plus the length, when the sum is a second
    of the day, and raises when it is not: [ValueError] while the hour of the
    sum fits a C [int], [OverflowError] beyond.  The end of the chapter plays
    no part. *)
Theorem left_aligned_chapter_clip self length chapter id d :
  length <> 0 -> downloaded id d self ->
  generate_chapter_clip isspace isalnum self (Some ClipAlign.left) (Some length) chapter
  = if within_day (time_to_seconds (Chapter.start_time chapter) + length)
    then Ok (clip_between id (valid_filename isspace isalnum (Chapter.title chapter)) d
               (time_to_seconds (Chapter.start_time chapter))
               (time_to_seconds (Chapter.start_time chapter) + length))
    else Raise (refusal (time_to_seconds (Chapter.start_time chapter) + length)).
Proof.
  intros HL Hd.
  assert (length_given (Some length) = Some length) as Hg.
  { cbn. destruct (Z.eqb_spec length 0); [contradiction|reflexivity]. }
  destruct (within_day _) eqn:Hw.
  - erewrite generate_chapter_clip_times; [|exact Hd|].
    2:{ unfold chapter_clip_times. rewrite Hg, seconds_to_time_within_day, Hw. reflexivity. }
    cbn [or_else]. rewrite (seconds_past_midnight_seconds _ Hw). reflexivity.
  - apply generate_chapter_clip_times_raise.
    unfold chapter_clip_times. rewrite Hg, seconds_to_time_within_day, Hw. reflexivity.
Qed.


(** X8: with a length other than 0 and right alignment, one turn of the
    loop requests the seconds from the chapter's start minus the length to the
    chapter's end, when the difference is a second of the day, and raises when
    it is not: [ValueError] while the hour of the difference fits a C [int],
    [OverflowError] beyond.  The clip reaches back before the chapter and is
    longer than the chapter by the length. *)
Theorem right_aligned_chapter_clip self length chapter id d :
  length <> 0 -> downloaded id d self ->
  generate_chapter_clip isspace isalnum self (Some ClipAlign.right) (Some length) chapter
  = if within_day (time_to_seconds (Chapter.start_time chapter) - length)
    then Ok (clip_between id (valid_filename isspace isalnum (Chapter.title chapter)) d
               (time_to_seconds (Chapter.start_time chapter) - length)
               (time_to_seconds (Chapter.end_time chapter)))
    else Raise (refusal (time_to_seconds (Chapter.start_time chapter) - length)).
Proof.
  intros HL Hd.
  assert (length_given (Some length) = Some length) as Hg.
  { cbn. destruct (Z.eqb_spec length 0); [contradiction|reflexivity]. }
  destruct (within_day _) eqn:Hw.
  - erewrite generate_chapter_clip_times; [|exact Hd|].
    2:{ unfold chapter_clip_times. rewrite Hg, seconds_to_time_within_day, Hw. reflexivity. }
    cbn [or_else]. rewrite (seconds_past_midnight_seconds _ Hw). reflexivity.
  - apply generate_chapter_clip_times_raise.
    unfold chapter_clip_times. rewrite Hg, seconds_to_time_within_day, Hw. reflexivity.
Qed.


Lemma centred_times chapter align length start_time end_time :
  align = None \/ align = Some ClipAlign.center ->
  length <> 0 ->
  chapter_clip_times chapter align (Some length) = Ok (start_time, end_time) ->
  let middle := (time_to_seconds (Chapter.start_time chapter)
                 + time_to_seconds (Chapter.end_time chapter)) / 2 in
  exists st et,
    start_time = Some st /\ end_time = Some et
    /\ within_day (time_to_seconds st) = true /\ within_day (time_to_seconds et) = true
    /\ time_to_seconds st = py_round (inject_Z middle - (length # 2))
    /\ time_to_seconds et = py_round (inject_Z middle + (length # 2)).
Proof.
  intros Ha HL. unfold chapter_clip_times.
  assert (length_given (Some length) = Some length) as ->.
  { cbn. destruct (Z.eqb_spec length 0); [contradiction|reflexivity]. }
  intros H.
  set (middle := (time_to_seconds (Chapter.start_time chapter)
                  + time_to_seconds (Chapter.end_time chapter)) / 2) in *.
  assert ((half ← true_div length 2;
           st ← seconds_to_time (PyFloat (inject_Z middle - half)%Q);
           half ← true_div length 2;
           et ← seconds_to_time (PyFloat (inject_Z middle + half)%Q);
           Ok (Some st, Some et)) = Ok (start_time, end_time)) as H'.
  { destruct Ha as [-> | ->]; exact H. }
  clear H. unfold true_div in H'.
  destruct (float_overflow * 2 <=? Z.abs length); [discriminate|].
  cbn in H'.
  destruct (seconds_to_time (PyFloat (inject_Z middle - (length # 2)))) as [st|] eqn:Es;
    [|discriminate].
  cbn in H'.
  destruct (seconds_to_time (PyFloat (inject_Z middle + (length # 2)))) as [et|] eqn:Ee;
    [|discriminate].
  cbn in H'. injection H' as <- <-.
  apply seconds_to_time_float_inv in Es as [Hs1 Hs2].
  apply seconds_to_time_float_inv in Ee as [He1 He2].
  exists st, et. rewrite Hs2, He2.
  split; [reflexivity|]. split; [reflexivity|]. split; [exact Hs1|].
  split; [exact He1|]. split; reflexivity.
Qed.

(** X9: with a length other than 0 and centre alignment, or none, a turn
    that returns requests seconds [a] to [b] of the day around the middle of the
    chapter.  For an even length they are the middle minus and plus half the
    length.  For an odd length both are even numbers and lie one second more or
    one second less than the length apart, never the length itself. *)
Theorem centred_chapter_clip self align length chapter id d clip :
  align = None \/ align = Some ClipAlign.center ->
  length <> 0 -> downloaded id d self ->
  generate_chapter_clip isspace isalnum self align (Some length) chapter = Ok clip ->
  let middle := (time_to_seconds (Chapter.start_time chapter)
                 + time_to_seconds (Chapter.end_time chapter)) / 2 in
  exists a b,
    clip = clip_between id (valid_filename isspace isalnum (Chapter.title chapter)) d a b
    /\ within_day a = true /\ within_day b = true
    /\ (Z.even length = true -> a = middle - length / 2 /\ b = middle + length / 2)
    /\ (Z.odd length = true ->
        Z.even a = true /\ Z.even b = true
        /\ (b - a = length + 1 \/ b - a = length - 1)).
Proof.
  intros Ha HL Hd Hc middle.
  destruct (chapter_clip_times chapter align (Some length)) as [[start_time end_time]|e] eqn:Et.
  2:{ rewrite (generate_chapter_clip_times_raise self _ _ _ _ Et) in Hc. discriminate. }
  rewrite (generate_chapter_clip_times self _ _ _ id d _ _ Hd Et) in Hc.
  injection Hc as <-.
  destruct (centred_times _ _ _ _ _ Ha HL Et) as (st & et & -> & -> & Hws & Hwe & Es & Ee).
  fold middle in Es, Ee. cbn [or_else].
  exists (time_to_seconds st), (time_to_seconds et).
  split; [reflexivity|]. split; [exact Hws|]. split; [exact Hwe|].
  rewrite Es, Ee. clear Es Ee Hws Hwe Et.
  split.
  - intros Hev. apply even_half in Hev. set (k := length / 2) in *.
    split; apply py_round_exact; rewrite Hev;
      unfold Qeq, Qminus, Qplus, Qopp, inject_Z; cbn; lia.
  - intros Hodd. apply odd_half in Hodd. set (k := length / 2) in *.
    assert (py_round (inject_Z middle - (length # 2))
            = if Z.even (middle - k - 1) then middle - k - 1 else middle - k - 1 + 1) as ->.
    { apply py_round_tie. rewrite Hodd.
      unfold Qeq, Qminus, Qplus, Qopp, inject_Z; cbn; lia. }
    assert (py_round (inject_Z middle + (length # 2))
            = if Z.even (middle + k) then middle + k else middle + k + 1) as ->.
    { apply py_round_tie. rewrite Hodd.
      unfold Qeq, Qminus, Qplus, Qopp, inject_Z; cbn; lia. }
    split; [apply even_or_next|]. split; [apply even_or_next|].
    assert (Z.even (middle + k) = negb (Z.even (middle - k - 1))) as Hpar.
    { replace (middle + k) with ((middle - k - 1) + (2 * k + 1)) by lia.
      rewrite Z.even_add.
      replace (Z.even (2 * k + 1)) with false.
      - destruct (Z.even (middle - k - 1)); reflexivity.
      - symmetry. rewrite Z.even_add, Z.even_mul. reflexivity. }
    rewrite Hpar. destruct (Z.even (middle - k - 1)); cbn; lia.
Qed.


(** X10: the loop of [generate_chapter_clips] stops at the first chapter
    whose turn raises, with that exception: the clips requested are those of
    the chapters before it, in order, and no chapter after it is looked at.
    When no turn raises, every chapter has its clip. *)
Theorem chapter_clips_stop_at_first_failure self chapters align length :
  let turn := generate_chapter_clip isspace isalnum self align length in
  let run := generate_chapter_clips isspace isalnum self chapters align length in
  exists done rest,
    chapters = done ++ rest
    /\ Forall2 (fun c clip => turn c = Ok clip) done (fst run)
    /\ match snd run with
       | Ok _ => rest = []
       | Raise e => exists c rest', rest = c :: rest' /\ turn c = Raise e
       end.
Proof.
  cbn zeta. unfold generate_chapter_clips.
  induction chapters as [|c chapters IH]; cbn [requested].
  - exists [], []. cbn. auto.
  - destruct (generate_chapter_clip isspace isalnum self align length c) as [clip|e] eqn:E.
    + destruct IH as (done & rest & -> & HF & Hend).
      destruct (requested _ (done ++ rest)) as [clips ending]. cbn [fst snd] in *.
      exists (c :: done), rest. split; [reflexivity|]. split; [|exact Hend].
      constructor; assumption.
    + exists [], (c :: chapters). cbn. split; [reflexivity|]. split; [constructor|].
      exists c, chapters. auto.
Qed.

End ClipFacts.

Lemma one_chapter_without_length :
  generate_chapter_clips ascii_isspace ascii_isalnum video_100s
    [chapter_at "A" 5 60] (Some ClipAlign.right) (Some 0)
  = (map (fun c => clip_between (str_of "abc")
                     (valid_filename ascii_isspace ascii_isalnum (Chapter.title c))
                     (PyInt 100)
                     (time_to_seconds (Chapter.start_time c))
                     (time_to_seconds (Chapter.end_time c)))
         [chapter_at "A" 5 60],
     Ok tt).
Proof.
  apply (chapter_clips_without_length ascii_isspace ascii_isalnum video_100s
           [chapter_at "A" 5 60] (Some ClipAlign.right) (Some 0)
           (str_of "abc") (PyInt 100)).
  - right. reflexivity.
  - split; reflexivity.
Defined.

Lemma left_20s_from_5s :
  generate_chapter_clip ascii_isspace ascii_isalnum video_100s
    (Some ClipAlign.left) (Some 20) (chapter_at "A" 5 60)
  = if within_day (time_to_seconds (Chapter.start_time (chapter_at "A" 5 60)) + 20)
    then Ok (clip_between (str_of "abc")
               (valid_filename ascii_isspace ascii_isalnum
                  (Chapter.title (chapter_at "A" 5 60)))
               (PyInt 100)
               (time_to_seconds (Chapter.start_time (chapter_at "A" 5 60)))
               (time_to_seconds (Chapter.start_time (chapter_at "A" 5 60)) + 20))
    else Raise (refusal (time_to_seconds (Chapter.start_time (chapter_at "A" 5 60)) + 20)).
Proof.
  apply (left_aligned_chapter_clip ascii_isspace ascii_isalnum video_100s 20
           (chapter_at "A" 5 60) (str_of "abc") (PyInt 100)).
  - lia.
  - split; reflexivity.
Defined.

Lemma right_20s_before_60s :
  generate_chapter_clip ascii_isspace ascii_isalnum video_100s
    (Some ClipAlign.right) (Some 20) (chapter_at "B" 60 90)
  = if within_day (time_to_seconds (Chapter.start_time (chapter_at "B" 60 90)) - 20)
    then Ok (clip_between (str_of "abc")
               (valid_filename ascii_isspace ascii_isalnum
                  (Chapter.title (chapter_at "B" 60 90)))
               (PyInt 100)
               (time_to_seconds (Chapter.start_time (chapter_at "B" 60 90)) - 20)
               (time_to_seconds (Chapter.end_time (chapter_at "B" 60 90))))
    else Raise (refusal (time_to_seconds (Chapter.start_time (chapter_at "B" 60 90)) - 20)).
Proof.
  apply (right_aligned_chapter_clip ascii_isspace ascii_isalnum video_100s 20
           (chapter_at "B" 60 90) (str_of "abc") (PyInt 100)).
  - lia.
  - split; reflexivity.
Defined.

Lemma centred_5s_of_60s_to_90s :
  exists a b,
    clip_between (str_of "abc") (str_of "B") (PyInt 100) 72 78
    = clip_between (str_of "abc")
        (valid_filename ascii_isspace ascii_isalnum (Chapter.title (chapter_at "B" 60 90)))
        (PyInt 100) a b
    /\ within_day a = true /\ within_day b = true
    /\ (Z.even 5 = true ->
        a = (time_to_seconds (Chapter.start_time (chapter_at "B" 60 90))
             + time_to_seconds (Chapter.end_time (chapter_at "B" 60 90))) / 2 - 5 / 2
        /\ b = (time_to_seconds (Chapter.start_time (chapter_at "B" 60 90))
                + time_to_seconds (Chapter.end_time (chapter_at "B" 60 90))) / 2 + 5 / 2)
    /\ (Z.odd 5 = true ->
        Z.even a = true /\ Z.even b = true /\ (b - a = 5 + 1 \/ b - a = 5 - 1)).
Proof.
  apply (centred_chapter_clip ascii_isspace ascii_isalnum video_100s None 5
           (chapter_at "B" 60 90) (str_of "abc") (PyInt 100)).
  - left. reflexivity.
  - lia.
  - split; reflexivity.
  - vm_compute. reflexivity.
Defined.

(** * Properties of the heatmap clips *)

Lemma centred_times_attempted (m : Z) (half : result Q) :
  (half0 ← attempted half;
   start_time ← attempted (seconds_to_time (PyFloat (inject_Z m - half0)%Q));
   half1 ← attempted half;
   end_time ← attempted (seconds_to_time (PyFloat (inject_Z m + half1)%Q));
   Returns (Some start_time, Some end_time))
  = attempted
      (half0 ← half;
       start_time ← seconds_to_time (PyFloat (inject_Z m - half0)%Q);
       half1 ← half;
       end_time ← seconds_to_time (PyFloat (inject_Z m + half1)%Q);
       Ok (Some start_time, Some end_time)).
Proof.
  destruct half as [half|]; [|reflexivity]. bind_red.
  destruct (seconds_to_time (PyFloat (_ - half))); [|reflexivity]. bind_red.
  destruct (seconds_to_time (PyFloat (_ + half))); reflexivity.
Qed.

Lemma heatmap_times_as_chapter h c align length :
  same_times h c ->
  heatmap_clip_times h align length = attempted (chapter_clip_times c align length).
Proof.
  intros [Hs He]. unfold heatmap_clip_times, chapter_clip_times.
  rewrite Hs, He.
  destruct (length_given length) as [l|]; [|reflexivity].
  destruct align as [[| |]|]; bind_red; cbv zeta.
  - destruct (seconds_to_time _); reflexivity.
  - apply centred_times_attempted.
  - destruct (seconds_to_time _); reflexivity.
  - apply centred_times_attempted.
Qed.

Lemma generate_clip_interval self file label label' s e :
  match generate_clip self file label s e with
  | Ok clip => exists clip', generate_clip self file label' s e = Ok clip'
                             /\ interval clip' = interval clip
  | Raise err => generate_clip self file label' s e = Raise err
  end.
Proof.
  unfold generate_clip.
  destruct (subscript (Video.duration (Video.ydl_info self))) as [d|err]; cbn.
  - eexists. split; reflexivity.
  - reflexivity.
Qed.

Section HeatmapClipFacts.

Variable isspace : N -> bool.
Variable isalnum : N -> bool.
Variable uuid4 : nat -> str.

Lemma heatmap_turn_as_chapter_turn self align length n h c :
  same_times h c ->
  match generate_chapter_clip isspace isalnum self align length c with
  | Ok clip => exists n' clip',
      generate_heatmap_clip uuid4 self align length n h = (n', Returns clip')
      /\ interval clip' = interval clip
  | Raise e => exists n',
      generate_heatmap_clip uuid4 self align length n h = (n', Raises e)
  end.
Proof.
  intros Hst. unfold generate_chapter_clip, generate_heatmap_clip.
  rewrite (heatmap_times_as_chapter h c align length Hst).
  destruct Hst as [Hs He].
  destruct (chapter_clip_times c align length) as [[a b]|e]; bind_red; [|eauto].
  destruct (subscript (Video.id (Video.ydl_info self))) as [id|e]; bind_red; [|eauto].
  rewrite Hs, He.
  destruct (match Heatmap.chapter h with
            | Some chapter => (n, Chapter.title chapter)
            | None => (S n, uuid4 n)
            end) as [n' label].
  assert (or_maybe a (Some (Chapter.start_time c)) = Some (or_else a (Chapter.start_time c)))
    as -> by (destruct a; reflexivity).
  assert (or_maybe b (Some (Chapter.end_time c)) = Some (or_else b (Chapter.end_time c)))
    as -> by (destruct b; reflexivity).
  cbn [generate_clip_of].
  pose proof (generate_clip_interval self (id ++ str_of ".webm")
                (valid_filename isspace isalnum (Chapter.title c) ++ str_of ".mp4")
                (label ++ str_of ".mp4")
                (or_else a (Chapter.start_time c)) (or_else b (Chapter.end_time c))) as Hg.
  destruct (generate_clip self _ (valid_filename _ _ _ ++ _) _ _) as [clip|e].
  - destruct Hg as (clip' & -> & Hi). bind_red. eauto.
  - rewrite Hg. bind_red. eauto.
Qed.

(** X11: on heatmaps that have the intervals of the chapters of a list,
    one for one, [generate_heatmap_clips] cuts the same seconds out of the same
    file as [generate_chapter_clips] does on the chapters, for every alignment
    and length, and ends alike: normally, or with the same exception after the
    same number of clips.  The two differ only in where the clips are
    written. *)
Theorem heatmap_clips_follow_chapter_clips self align length heatmaps chapters :
  Forall2 same_times heatmaps chapters ->
  map interval (fst (generate_heatmap_clips uuid4 self heatmaps align length))
  = map interval (fst (generate_chapter_clips isspace isalnum self chapters align length))
  /\ snd (generate_heatmap_clips uuid4 self heatmaps align length)
     = attempted (snd (generate_chapter_clips isspace isalnum self chapters align length)).
Proof.
  unfold generate_heatmap_clips, generate_chapter_clips.
  generalize 0%nat as n. intros n H. revert n.
  induction H as [|h c heatmaps chapters Hst _ IH]; intros n; cbn [requested requested_from].
  - split; reflexivity.
  - pose proof (heatmap_turn_as_chapter_turn self align length n h c Hst) as Ht.
    destruct (generate_chapter_clip isspace isalnum self align length c) as [clip|e].
    + destruct Ht as (n' & clip' & -> & Hi).
      specialize (IH n').
      destruct (requested_from _ n' heatmaps) as [hc he].
      destruct (requested _ chapters) as [cc ce].
      cbn [fst snd map] in *. destruct IH as [-> ->]. rewrite Hi. split; reflexivity.
    + destruct Ht as (n' & ->). split; reflexivity.
Qed.

Lemma heatmap_turn_label self align length n h n' clip :
  generate_heatmap_clip uuid4 self align length n h = (n', Returns clip) ->
  n' = (if chapterless h then S n else n)
  /\ clip_file_name clip
     = str_of "tmp/clips/"
       ++ match Heatmap.chapter h with
          | Some c => Chapter.title c
          | None => uuid4 n
          end ++ str_of ".mp4".
Proof.
  unfold generate_heatmap_clip, chapterless.
  destruct (heatmap_clip_times h align length) as [[a b]| |]; [|discriminate..].
  destruct (subscript _) as [id|]; [|discriminate].
  destruct (Heatmap.chapter h) as [c|]; cbn [truthy negb];
    unfold generate_clip_of;
    destruct (or_maybe a _) as [s|]; try discriminate;
    destruct (or_maybe b _) as [e|]; try discriminate;
    unfold generate_clip;
    destruct (subscript (Video.duration _)); cbn; try discriminate;
    intros [= <- <-]; split; reflexivity.
Qed.

Lemma requested_from_labels self align length heatmaps : forall n clips ending,
  requested_from (generate_heatmap_clip uuid4 self align length) n heatmaps
  = (clips, ending) ->
  forall i h clip,
    heatmaps !! i = Some h -> clips !! i = Some clip ->
    clip_file_name clip
    = str_of "tmp/clips/"
      ++ match Heatmap.chapter h with
         | Some c => Chapter.title c
         | None => uuid4 (n + List.length (List.filter chapterless (take i heatmaps)))%nat
         end ++ str_of ".mp4".
Proof.
  induction heatmaps as [|h0 heatmaps IH]; intros n clips ending H i h clip Hh Hc.
  - destruct i; discriminate.
  - cbn [requested_from] in H.
    destruct (generate_heatmap_clip uuid4 self align length n h0) as [n' [clip0| |]] eqn:E;
      try (injection H as <- <-; destruct i; discriminate).
    destruct (requested_from _ n' heatmaps) as [clips' ending'] eqn:E'.
    injection H as <- <-.
    apply heatmap_turn_label in E as [-> Hl].
    destruct i as [|i]; cbn in Hh, Hc.
    + injection Hh as <-. injection Hc as <-. rewrite Hl. cbn.
      rewrite Nat.add_0_r. reflexivity.
    + rewrite (IH _ _ _ E' i h clip Hh Hc). cbn [take List.filter].
      destruct (chapterless h0); cbn [List.length].
      * replace (S n + List.length (List.filter chapterless (take i heatmaps)))%nat
          with (n + S (List.length (List.filter chapterless (take i heatmaps))))%nat by lia.
        reflexivity.
      * reflexivity.
Qed.

(** X12: the clip of a heatmap is written to [tmp/clips/], under the title
    of its chapter as it is, without [valid_filename], followed by [.mp4]; so
    two heatmaps of one chapter title are written to one file.  A heatmap
    without chapter is written under a fresh token, the tokens being drawn in
    the order of the chapterless heatmaps. *)
Theorem heatmap_clip_file_names self align length heatmaps i h clip :
  heatmaps !! i = Some h ->
  fst (generate_heatmap_clips uuid4 self heatmaps align length) !! i = Some clip ->
  clip_file_name clip
  = str_of "tmp/clips/" ++ label_at uuid4 heatmaps i h ++ str_of ".mp4".
Proof.
  unfold generate_heatmap_clips. intros Hh Hc.
  destruct (requested_from _ 0%nat heatmaps) as [clips ending] eqn:E.
  exact (requested_from_labels self align length heatmaps 0%nat clips ending E i h clip Hh Hc).
Qed.

Lemma heatmap_turn_clippable self align length n h n' clip :
  generate_heatmap_clip uuid4 self align length n h = (n', Returns clip) ->
  clippable align length h.
Proof.
  unfold generate_heatmap_clip, heatmap_clip_times, clippable, length_given.
  destruct (Heatmap.start_time h) as [s|] eqn:Hs, (Heatmap.end_time h) as [e|] eqn:He.
  - intros _. split; eauto.
  - intros H. split; [eauto|]. right.
    destruct length as [l|]; [destruct (Z.eqb_spec l 0) as [->|Hl]|].
    + cbn in H. destruct (subscript _); [|discriminate].
      destruct (Heatmap.chapter h); discriminate.
    + destruct align as [[| |]|]; cbn in H; try discriminate.
      * split; [reflexivity|]. split; [discriminate|]. intros [= ->]. contradiction.
      * destruct (seconds_to_time _); cbn in H; [|discriminate].
        destruct (subscript _); [|discriminate].
        destruct (Heatmap.chapter h); discriminate.
    + cbn in H. destruct (subscript _); [|discriminate].
      destruct (Heatmap.chapter h); discriminate.
  - intros H. exfalso.
    destruct length as [l|]; [destruct (Z.eqb_spec l 0) as [->|Hl]|].
    + cbn in H. destruct (subscript _); [|discriminate].
      destruct (Heatmap.chapter h); discriminate.
    + destruct align as [[| |]|]; cbn in H; discriminate.
    + cbn in H. destruct (subscript _); [|discriminate].
      destruct (Heatmap.chapter h); discriminate.
  - intros H. exfalso.
    destruct length as [l|]; [destruct (Z.eqb_spec l 0) as [->|Hl]|].
    + cbn in H. destruct (subscript _); [|discriminate].
      destruct (Heatmap.chapter h); discriminate.
    + destruct align as [[| |]|]; cbn in H; discriminate.
    + cbn in H. destruct (subscript _); [|discriminate].
      destruct (Heatmap.chapter h); discriminate.
Qed.

Lemma requested_from_clippable self align length heatmaps : forall n clips,
  requested_from (generate_heatmap_clip uuid4 self align length) n heatmaps
  = (clips, Returns tt) ->
  Forall (clippable align length) heatmaps /\ List.length clips = List.length heatmaps.
Proof.
  induction heatmaps as [|h heatmaps IH]; intros n clips H; cbn [requested_from] in H.
  - injection H as <-. split; [constructor|reflexivity].
  - destruct (generate_heatmap_clip uuid4 self align length n h) as [n' [clip| |]] eqn:E;
      try discriminate.
    destruct (requested_from _ n' heatmaps) as [clips' ending'] eqn:E'.
    injection H as <- ->.
    destruct (IH _ _ E') as [HF Hlen].
    split; [constructor; [eapply heatmap_turn_clippable; exact E|exact HF]|].
    cbn. rewrite Hlen. reflexivity.
Qed.

(** X13: [generate_heatmap_clips] ends normally only when every heatmap
    has a start time, and an end time too unless the clips are left-aligned
    with a length other than 0; it has then requested one clip for each
    heatmap.  A heatmap without start time is never clipped. *)
Theorem heatmap_clips_need_times self align length heatmaps :
  snd (generate_heatmap_clips uuid4 self heatmaps align length) = Returns tt ->
  Forall (clippable align length) heatmaps
  /\ List.length (fst (generate_heatmap_clips uuid4 self heatmaps align length))
     = List.length heatmaps.
Proof.
  unfold generate_heatmap_clips.
  destruct (requested_from _ 0%nat heatmaps) as [clips ending] eqn:E. cbn.
  intros ->. eapply requested_from_clippable. exact E.
Qed.

End HeatmapClipFacts.

Lemma heatmap_and_chapter_over_10s_to_20s :
  map interval
    (fst (generate_heatmap_clips token video_100s [heatmap_at None 10 20 (9 # 10)]
            (Some ClipAlign.left) (Some 5)))
  = map interval
      (fst (generate_chapter_clips ascii_isspace ascii_isalnum video_100s
              [chapter_at "A" 10 20] (Some ClipAlign.left) (Some 5)))
  /\ snd (generate_heatmap_clips token video_100s [heatmap_at None 10 20 (9 # 10)]
            (Some ClipAlign.left) (Some 5))
     = attempted
         (snd (generate_chapter_clips ascii_isspace ascii_isalnum video_100s
                 [chapter_at "A" 10 20] (Some ClipAlign.left) (Some 5))).
Proof.
  apply (heatmap_clips_follow_chapter_clips ascii_isspace ascii_isalnum token video_100s
           (Some ClipAlign.left) (Some 5)
           [heatmap_at None 10 20 (9 # 10)] [chapter_at "A" 10 20]).
  constructor; [split; reflexivity|constructor].
Defined.

Lemma second_intro_clip_file_name :
  clip_file_name (clip_between (str_of "abc") (str_of "Intro") (PyInt 100) 15 30)
  = str_of "tmp/clips/"
    ++ label_at token (VideoHeatmap.heatmaps two_intro_heatmaps) 1
         (heatmap_at (Some (chapter_at "Intro" 0 60)) 15 30 (5 # 10))
    ++ str_of ".mp4".
Proof.
  apply (heatmap_clip_file_names token video_100s None None
           (VideoHeatmap.heatmaps two_intro_heatmaps) 1
           (heatmap_at (Some (chapter_at "Intro" 0 60)) 15 30 (5 # 10))
           (clip_between (str_of "abc") (str_of "Intro") (PyInt 100) 15 30)).
  - reflexivity.
  - vm_compute. reflexivity.
Defined.

Lemma intro_heatmaps_are_clippable :
  Forall (clippable None None) (VideoHeatmap.heatmaps two_intro_heatmaps)
  /\ List.length
       (fst (generate_heatmap_clips token video_100s
               (VideoHeatmap.heatmaps two_intro_heatmaps) None None))
     = List.length (VideoHeatmap.heatmaps two_intro_heatmaps).
Proof.
  apply (heatmap_clips_need_times token video_100s None None
           (VideoHeatmap.heatmaps two_intro_heatmaps)).
  vm_compute. reflexivity.
Defined.

(** * Further properties of the marker parser *)

Lemma for_each_In {A B} (f : A -> result B) l ys y :
  for_each f l = Ok ys -> In y ys -> exists x, In x l /\ f x = Ok y.
Proof.
  intros H. apply for_each_Forall2 in H.
  induction H as [|x y' l ys Hxy _ IH]; intros Hin; [contradiction|].
  destruct Hin as [->|Hin].
  - exists x. split; [left; reflexivity|exact Hxy].
  - destruct (IH Hin) as (x' & Hx' & Hf). exists x'. split; [right; exact Hx'|exact Hf].
Qed.

Lemma get_heatmaps_In md chapters heatmaps h :
  get_heatmaps md chapters = Ok heatmaps -> In h heatmaps ->
  exists raw, heatmap_of chapters raw = Ok h.
Proof.
  unfold get_heatmaps. intros H Hin. bind_cases H.
  destruct (for_each_In _ _ _ _ H Hin) as (raw & _ & Hraw). eauto.
Qed.

Lemma get_chapters_consecutive md video chapters :
  get_chapters md video = Ok chapters -> consecutive chapters.
Proof.
  unfold get_chapters. intros H. bind_cases H.
  eapply chapters_from_consecutive. exact H.
Qed.

Lemma chapters_from_needs_duration video chapter_data :
  Forall (fun raw => within_day_ms (cr_timeRangeStartMillis raw)) chapter_data ->
  Video.duration (Video.ydl_info video) = None ->
  chapter_data <> [] ->
  chapters_from video chapter_data = Raise KeyError.
Proof.
  intros HF Hd. induction HF as [|raw rest Hraw HF IH]; intros Hne; [contradiction|].
  cbn [chapters_from]. destruct rest as [|next rest'].
  - cbn. rewrite Hd. reflexivity.
  - cbn [end_of]. inversion HF as [|? ? Hnext _]; subst.
    rewrite (milliseconds_to_time_Ok _ Hnext), (milliseconds_to_time_Ok _ Hraw).
    cbn [mbind result_bind]. rewrite IH by discriminate. reflexivity.
Qed.

(** X14: [get_chapters] reads the duration of the video only when there is
    a chapter.  For a video without duration, as it is before the download, it
    returns the empty list when the marker data has no chapters and raises
    [KeyError] when it has chapters whose offsets convert. *)
Theorem get_chapters_needs_duration md video chapter_data :
  chapter_data_of md = Ok chapter_data ->
  Forall (fun raw => within_day_ms (cr_timeRangeStartMillis raw)) chapter_data ->
  Video.duration (Video.ydl_info video) = None ->
  get_chapters md video = match chapter_data with [] => Ok [] | _ => Raise KeyError end.
Proof.
  intros Hd HF Hn. unfold get_chapters. rewrite Hd. cbn [mbind result_bind].
  destruct chapter_data as [|raw rest]; [reflexivity|].
  apply chapters_from_needs_duration; [exact HF|exact Hn|discriminate].
Qed.

Lemma chapters_of_video_not_downloaded :
  get_chapters late_chapter_markers video_not_downloaded
  = match [raw_chapter "A" 5000] with [] => Ok [] | _ => Raise KeyError end.
Proof.
  apply (get_chapters_needs_duration late_chapter_markers video_not_downloaded
           [raw_chapter "A" 5000]).
  - vm_compute. reflexivity.
  - constructor; [unfold within_day_ms; simpl; lia|constructor].
  - reflexivity.
Defined.

(** X15: a heatmap that the parser gives a chapter starts within that
    chapter: no earlier than the chapter's start, and before the chapter's end
    unless the chapter is the last one of the list, whose end is the duration
    of the video. *)
Theorem heatmap_starts_within_its_chapter md video chapters heatmaps h c t :
  get_chapters md video = Ok chapters ->
  get_heatmaps md chapters = Ok heatmaps ->
  In h heatmaps ->
  Heatmap.chapter h = Some c ->
  Heatmap.start_time h = Some t ->
  datetime.leb (Chapter.start_time c) t = true
  /\ (datetime.leb (Chapter.end_time c) t = false \/ last chapters = Some c).
Proof.
  intros Hc Hh Hin Hch Hst.
  destruct (get_heatmaps_In _ _ _ _ Hh Hin) as (raw & Hraw).
  apply heatmap_of_inv in Hraw as (t0 & t' & _ & _ & ->).
  cbn in Hch, Hst. injection Hst as ->.
  pose proof (scan_from_None_last t chapters) as Hlast.
  rewrite Hch in Hlast. cbn in Hlast.
  destruct Hlast as (before & after & -> & Hle & Hafter).
  split; [exact Hle|].
  destruct after as [|c' after].
  - right. apply last_snoc.
  - left. apply get_chapters_consecutive in Hc.
    assert (Chapter.end_time c = Chapter.start_time c') as ->.
    { apply (Hc (length before)).
      - rewrite lookup_app_r by lia. rewrite Nat.sub_diag. reflexivity.
      - rewrite lookup_app_r by lia.
        replace (S (length before) - length before)%nat with 1%nat by lia. reflexivity. }
    inversion Hafter; assumption.
Qed.

Lemma heatmap_at_90s_within_second_chapter :
  datetime.leb (Chapter.start_time (chapter_at "Two" 60 120)) (seconds_past_midnight 90)
  = true
  /\ (datetime.leb (Chapter.end_time (chapter_at "Two" 60 120)) (seconds_past_midnight 90)
      = false
      \/ last [chapter_at "One" 0 60; chapter_at "Two" 60 120; chapter_at "Three" 120 180]
         = Some (chapter_at "Two" 60 120)).
Proof.
  apply (heatmap_starts_within_its_chapter three_chapter_markers video_180s
           [chapter_at "One" 0 60; chapter_at "Two" 60 120; chapter_at "Three" 120 180]
           [heatmap_at (Some (chapter_at "Two" 60 120)) 90 100 (7 # 10)]
           (heatmap_at (Some (chapter_at "Two" 60 120)) 90 100 (7 # 10))).
  - vm_compute. reflexivity.
  - vm_compute. reflexivity.
  - left. reflexivity.
  - reflexivity.
  - reflexivity.
Defined.

Lemma overwrite_from_Some t chapters c :
  is_Some (fold_left (overwrite t) chapters (Some c)).
Proof.
  revert c. induction chapters as [|c' chapters IH]; intros c; cbn; [eauto|].
  unfold overwrite at 2. destruct (datetime.leb _ t); apply IH.
Qed.

Lemma midnight_first t : datetime.valid t -> datetime.leb (datetime.mk_time 0 0 0) t = true.
Proof.
  intros (Hh & Hm & Hs). apply leb_iff. cbn. lia.
Qed.

(** X16: when the first chapter of the marker data starts within the first
    second of the video, the parser leaves no heatmap without a chapter. *)
Theorem heatmaps_all_chaptered md video raw rest chapters heatmaps :
  chapter_data_of md = Ok (raw :: rest) ->
  0 <= cr_timeRangeStartMillis raw < 1000 ->
  get_chapters md video = Ok chapters ->
  get_heatmaps md chapters = Ok heatmaps ->
  Forall (fun h => is_Some (Heatmap.chapter h)) heatmaps.
Proof.
  intros Hd Hms Hc Hh.
  unfold get_chapters in Hc. rewrite Hd in Hc. cbn [mbind result_bind] in Hc.
  apply chapters_from_inv in Hc as (c & chapters' & -> & (_ & Hstart & _) & _ & _).
  rewrite (milliseconds_to_time_first_second _ Hms) in Hstart.
  injection Hstart as Hstart.
  apply List.Forall_forall. intros h Hin.
  destruct (get_heatmaps_In _ _ _ _ Hh Hin) as (raw' & Hraw).
  apply heatmap_of_inv in Hraw as (t & t' & Ht & _ & ->). cbn.
  apply milliseconds_to_time_inv in Ht as (_ & _ & _ & Hv).
  unfold overwrite at 2. rewrite <- Hstart, (midnight_first t Hv).
  apply overwrite_from_Some.
Qed.

Lemma three_chapter_heatmap_has_chapter :
  Forall (fun h => is_Some (Heatmap.chapter h))
    [heatmap_at (Some (chapter_at "Two" 60 120)) 90 100 (7 # 10)].
Proof.
  apply (heatmaps_all_chaptered three_chapter_markers video_180s
           (raw_chapter "One" 0) [raw_chapter "Two" 60000; raw_chapter "Three" 120000]
           [chapter_at "One" 0 60; chapter_at "Two" 60 120; chapter_at "Three" 120 180]).
  - vm_compute. reflexivity.
  - simpl. lia.
  - vm_compute. reflexivity.
  - vm_compute. reflexivity.
Defined.

(** X17: every heatmap that [get_heatmaps] returns has a start, an end and
    the intensity of its raw heat marker.  The start is the marker's offset and
    the end the offset plus the duration, both in whole seconds with the
    milliseconds cut off; the end is not before the start when the marker's
    duration is not negative. *)
Theorem parsed_heatmap_interval marker_data chapters heatmaps :
  get_heatmaps marker_data chapters = Ok heatmaps ->
  exists heatmap_data,
    heatmap_data_of marker_data = Ok heatmap_data
    /\ Forall2 interval_of_raw heatmap_data heatmaps.
Proof.
  unfold get_heatmaps. intros H.
  destruct (heatmap_data_of marker_data) as [heatmap_data|]; [|discriminate].
  cbn [mbind result_bind] in H. exists heatmap_data. split; [reflexivity|].
  apply for_each_Forall2 in H.
  eapply Forall2_impl; [exact H|].
  intros raw h Hraw. cbn beta in Hraw.
  apply heatmap_of_inv in Hraw as (s & e & Hs & He & ->).
  apply milliseconds_to_time_inv in Hs as (_ & _ & Hss & Hvs).
  apply milliseconds_to_time_inv in He as (_ & _ & Hes & Hve).
  exists s, e. cbn. split; [reflexivity|]. split; [reflexivity|]. split; [reflexivity|].
  split; [exact Hss|]. split; [exact Hes|].
  intros Hd. apply leb_seconds; [exact Hvs|exact Hve|].
  rewrite Hss, Hes. apply Z.quot_le_mono; lia.
Qed.

Lemma heat_marker_at_90s_interval :
  exists heatmap_data,
    heatmap_data_of three_chapter_markers = Ok heatmap_data
    /\ Forall2 interval_of_raw heatmap_data
         [heatmap_at (Some (chapter_at "Two" 60 120)) 90 100 (7 # 10)].
Proof.
  apply (parsed_heatmap_interval three_chapter_markers
           [chapter_at "One" 0 60; chapter_at "Two" 60 120; chapter_at "Three" 120 180]).
  vm_compute. reflexivity.
Defined.





(** * Further properties of the ranking and merge engine *)





Lemma chaptered_seq_from (pre heap : list Heatmap.t) :
  length (filter (fun r => has_chapter (pre ++ heap) r = true)
                 (seq (length pre) (length heap)))
  = length (List.filter (fun h => truthy (Heatmap.chapter h)) heap).
Proof.
  revert pre. induction heap as [|x heap IH]; intros pre; [reflexivity|].
  cbn [length seq List.filter]. rewrite filter_cons.
  assert (has_chapter (pre ++ x :: heap) (length pre) = truthy (Heatmap.chapter x)) as Hx.
  { unfold has_chapter. rewrite lookup_total_app_r by lia.
    rewrite Nat.sub_diag. reflexivity. }
  specialize (IH (pre ++ [x])).
  rewrite <- app_assoc, length_app in IH. cbn [app length] in IH.
  rewrite Nat.add_1_r in IH.
  destruct (decide (has_chapter (pre ++ x :: heap) (length pre) = true)) as [Hd|Hd];
    rewrite Hx in Hd.
  - rewrite Hd. cbn [length]. rewrite IH. reflexivity.
  - destruct (truthy (Heatmap.chapter x)); [contradiction|]. exact IH.
Qed.

Lemma chaptered_sorted (heap : list Heatmap.t) sorted_heatmaps :
  sorted_heatmaps ≡ₚ seq 0 (length heap) ->
  chaptered heap sorted_heatmaps = chaptered_count heap.
Proof.
  intros Hp. unfold chaptered, chaptered_count. f_equal.
  rewrite Hp. exact (chaptered_seq_from [] heap).
Qed.

(** X20: asked to merge, [most_intense_heatmaps] does not merge when fewer
    heatmaps have a chapter than [count]: it then returns what it returns
    without merging, heatmaps without chapter and several heatmaps of one
    chapter included. *)
Theorem merge_is_off_below_count self count :
  chaptered_count (VideoHeatmap.heatmaps self) < count ->
  most_intense_heatmaps self true count = most_intense_heatmaps self false count.
Proof.
  intros Hlt. unfold most_intense_heatmaps.
  destruct (sorted_reverse _ _) as [sorted_heatmaps|e] eqn:Es; [|reflexivity].
  pose proof (sorted_reverse_perm _ _ _ Es) as Hp.
  pose proof (chaptered_sorted _ _ Hp) as Hc. unfold chaptered in Hc.
  rewrite Hc. cbn [negb orb].
  destruct (Z.ltb_spec (chaptered_count (VideoHeatmap.heatmaps self)) count); [reflexivity|lia].
Qed.

Lemma no_chapters_count_one :
  chaptered_count (VideoHeatmap.heatmaps five_heatmaps) < 1
  /\ most_intense_heatmaps five_heatmaps true 1 = most_intense_heatmaps five_heatmaps false 1.
Proof.
  assert (chaptered_count (VideoHeatmap.heatmaps five_heatmaps) < 1) as H
    by (vm_compute; reflexivity).
  split; [exact H|]. exact (merge_is_off_below_count five_heatmaps 1 H).
Defined.

Lemma covers_refl h : covers h h.
Proof. split; left; reflexivity. Qed.

Lemma widened_covers h h' : widened h h' -> covers h' h.
Proof. intros (_ & _ & Hs & He). split; assumption. Qed.

Lemma covers_trans h1 h2 h3 : covers h2 h1 -> covers h3 h2 -> covers h3 h1.
Proof.
  intros [Hs He] [Hs' He']. split.
  - destruct Hs as [Hs|(a & b & Ha & Hb & Hab)], Hs' as [Hs'|(a' & b' & Ha' & Hb' & Hab')].
    + left; congruence.
    + right. exists a', b'. repeat split; congruence.
    + right. exists a, b. repeat split; congruence.
    + right. exists a, b'. repeat split; try assumption.
      assert (b = a') by congruence. subst. now apply leb_trans with a'.
  - destruct He as [He|(a & b & Ha & Hb & Hab)], He' as [He'|(a' & b' & Ha' & Hb' & Hab')].
    + left; congruence.
    + right. exists a', b'. repeat split; congruence.
    + right. exists a, b. repeat split; congruence.
    + right. exists a, b'. repeat split; try assumption.
      assert (b = a') by congruence. subst. now apply leb_trans with a'.
Qed.

Lemma dict_get_app k (d : list (str * nat)) k' v :
  dict_get k (d ++ [(k', v)])
  = match dict_get k d with
    | Some j => Some j
    | None => if str_eqb k' k then Some v else None
    end.
Proof.
  induction d as [|[k0 v0] d IH]; cbn; [reflexivity|].
  destruct (str_eqb k0 k); [reflexivity|exact IH].
Qed.

Lemma dict_get_Some_In k (d : list (str * nat)) j :
  dict_get k d = Some j -> In (k, j) d.
Proof.
  induction d as [|[k0 v0] d IH]; cbn; [discriminate|].
  destruct (str_eqb k0 k) eqn:E.
  - intros [= ->]. apply str_eqb_eq in E as ->. left. reflexivity.
  - intros H. right. exact (IH H).
Qed.

Lemma dict_get_unique k (d : list (str * nat)) r :
  NoDup (map fst d) -> In (k, r) d -> dict_get k d = Some r.
Proof.
  induction d as [|[k0 v0] d IH]; cbn; intros Hnd Hin; [contradiction|].
  apply NoDup_cons in Hnd as [Hk0 Hnd].
  destruct Hin as [[= -> ->]|Hin].
  - assert (str_eqb k k = true) as -> by (apply str_eqb_eq; reflexivity). reflexivity.
  - destruct (str_eqb k0 k) eqn:E.
    + apply str_eqb_eq in E as ->. exfalso. apply Hk0.
      apply list_elem_of_In. apply (in_map fst) in Hin. exact Hin.
    + exact (IH Hnd Hin).
Qed.

Lemma widen_keeps_chapter heap r j heap' outcome i :
  widen heap r j = (heap', outcome) ->
  Heatmap.chapter (heap' !!! i) = Heatmap.chapter (heap !!! i).
Proof.
  intros H. apply widen_frame in H as (_ & Hrest & (Hc & _)).
  destruct (decide (i = j)) as [->|Hne]; [exact Hc|].
  rewrite Hrest by exact Hne. reflexivity.
Qed.

Lemma widen_covers heap r j heap' :
  widen heap r j = (heap', Ok tt) -> covers (heap' !!! j) (heap !!! r).
Proof.
  intros H.
  apply widen_inv in H as (sr & er & sj & ej & Hsr & Her & Hsj & Hej & Hj & ->).
  rewrite list_lookup_total_insert_eq by exact Hj.
  split; right.
  - exists sr, (if datetime.leb sr sj then sr else sj). cbn.
    split; [exact Hsr|]. split; [reflexivity|].
    destruct (datetime.leb sr sj) eqn:E; [apply leb_refl|apply leb_total; exact E].
  - exists er, (if datetime.leb ej er then er else ej). cbn.
    split; [exact Her|]. split; [reflexivity|].
    destruct (datetime.leb ej er) eqn:E; [apply leb_refl|apply leb_total; exact E].
Qed.

Lemma merge_step_Ok_cases count (heap : list Heatmap.t) (merged : list (str * nat)) r st' :
  merge_step count (heap, merged) r = (st', Ok tt) ->
  (Heatmap.chapter (heap !!! r) = None /\ st' = (heap, merged))
  \/ (exists c,
        Heatmap.chapter (heap !!! r) = Some c
        /\ dict_get (Chapter.title c) merged = None
        /\ ((Z.of_nat (length merged) <= count
             /\ st' = (heap, merged ++ [(Chapter.title c, r)]))
            \/ (count < Z.of_nat (length merged) /\ st' = (heap, merged))))
  \/ (exists c j heap',
        Heatmap.chapter (heap !!! r) = Some c
        /\ dict_get (Chapter.title c) merged = Some j
        /\ widen heap r j = (heap', Ok tt)
        /\ st' = (heap', merged)).
Proof.
  unfold merge_step.
  destruct (Heatmap.chapter (heap !!! r)) as [c|]; [|intros [= <-]; left; auto].
  destruct (dict_get (Chapter.title c) merged) as [j|] eqn:Hget; cbn [truthy negb andb].
  - intros H. destruct (widen heap r j) as [heap' outcome'] eqn:Hw.
    injection H as <- ->. right; right. exists c, j, heap'. auto.
  - intros H. right; left. exists c. split; [reflexivity|]. split; [exact Hget|].
    destruct (Z.leb_spec (Z.of_nat (length merged)) count) as [Hle|Hgt];
      injection H as <-.
    + left. rewrite dict_set_fresh by assumption. auto.
    + right. auto.
Qed.

Lemma merge_step_keeps_run heap0 count seen st r st' :
  ~ In r seen ->
  merge_run_inv heap0 count seen st ->
  merge_step count st r = (st', Ok tt) ->
  merge_run_inv heap0 count (seen ++ [r]) st'.
Proof.
  intros Hr (Hinv & Hadm & Htit & Hsub & Hcov) Hstep.
  pose proof (merge_step_keeps_inv _ _ _ _ _ _ Hinv Hstep) as Hinv'.
  pose proof (merge_step_keeps_admission _ _ _ _ _ Hadm Hstep) as Hadm'.
  split; [exact Hinv'|]. split; [exact Hadm'|]. clear Hinv' Hadm'.
  destruct st as [heap merged]. cbn [fst snd] in *.
  assert (~ In r (dict_values merged)) as Hrd.
  { intros Hin. apply Hr. apply list_elem_of_In.
    eapply elem_of_sublist; [|exact Hsub]. apply list_elem_of_In. exact Hin. }
  assert (heap !!! r = heap0 !!! r) as Hsame.
  { destruct Hinv as (_ & _ & Hout). cbn in Hout. exact (Hout r Hrd). }
  apply merge_step_Ok_cases in Hstep
    as [[Hc ->] | [(c & Hc & Hget & [[Hlen ->]|[Hlen ->]])
                  | (c & j & heap' & Hc & Hget & Hw & ->)]];
    cbn [fst snd].
  - (* no chapter *)
    split; [exact Htit|]. split; [apply sublist_inserts_r; exact Hsub|].
    intros i ci Hi Hci. apply in_app_or in Hi as [Hi|[<-|[]]]; [exact (Hcov i ci Hi Hci)|].
    rewrite <- Hsame in Hci. congruence.
  - (* a new title is admitted *)
    split; [|split].
    + intros k r' Hin. apply in_app_or in Hin as [Hin|[[= <- <-]|[]]].
      * exact (Htit k r' Hin).
      * exists c. auto.
    + unfold dict_values. rewrite map_app. apply sublist_app; [exact Hsub|reflexivity].
    + intros i ci Hi Hci. rewrite dict_get_app.
      apply in_app_or in Hi as [Hi|[<-|[]]].
      * specialize (Hcov i ci Hi Hci).
        destruct (dict_get (Chapter.title ci) merged); [exact Hcov|lia].
      * rewrite <- Hsame in Hci. assert (ci = c) as -> by congruence.
        rewrite Hget.
        assert (str_eqb (Chapter.title c) (Chapter.title c) = true) as ->
          by (apply str_eqb_eq; reflexivity).
        rewrite Hsame. apply covers_refl.
  - (* the dict is full *)
    split; [exact Htit|]. split; [apply sublist_inserts_r; exact Hsub|].
    intros i ci Hi Hci. apply in_app_or in Hi as [Hi|[<-|[]]]; [exact (Hcov i ci Hi Hci)|].
    rewrite <- Hsame in Hci. assert (ci = c) as -> by congruence.
    rewrite Hget. exact Hlen.
  - (* a known title is widened *)
    pose proof (widen_frame _ _ _ _ _ Hw) as (_ & Hrest & Hwid).
    split; [|split].
    + intros k r' Hin. destruct (Htit k r' Hin) as (c' & Hc' & Hk).
      exists c'. split; [|exact Hk].
      rewrite (widen_keeps_chapter _ _ _ _ _ r' Hw). exact Hc'.
    + apply sublist_inserts_r; exact Hsub.
    + intros i ci Hi Hci. apply in_app_or in Hi as [Hi|[<-|[]]].
      * specialize (Hcov i ci Hi Hci).
        destruct (dict_get (Chapter.title ci) merged) as [j'|]; [|exact Hcov].
        destruct (decide (j' = j)) as [->|Hne].
        -- eapply covers_trans; [exact Hcov|]. apply widened_covers. exact Hwid.
        -- rewrite (Hrest j' Hne). exact Hcov.
      * rewrite <- Hsame in Hci. assert (ci = c) as -> by congruence.
        rewrite Hget, <- Hsame. eapply widen_covers. exact Hw.
Qed.

Lemma for_state_prefix {A S} (body : S -> A -> S * result unit)
    (I : list A -> S -> Prop) :
  (forall pre x s s',
      ~ In x pre -> I pre s -> body s x = (s', Ok tt) -> I (pre ++ [x]) s') ->
  forall l pre s s',
    NoDup (pre ++ l) -> I pre s -> for_state body l s = (s', Ok tt) -> I (pre ++ l) s'.
Proof.
  intros Hstep. induction l as [|x l IH]; intros pre s s' Hnd HI H; cbn [for_state] in H.
  - injection H as <-. rewrite app_nil_r. exact HI.
  - destruct (body s x) as [s1 [[]|e]] eqn:E; [|discriminate].
    replace (pre ++ x :: l) with ((pre ++ [x]) ++ l) in * by (rewrite <- app_assoc; reflexivity).
    apply IH with s1; [exact Hnd| |exact H].
    apply Hstep with s; [|exact HI|exact E].
    apply NoDup_app in Hnd as [Hnd _]. apply NoDup_app in Hnd as (_ & Hnd & _).
    intros Hin. apply list_elem_of_In in Hin. apply (Hnd x Hin). left.
Qed.

Lemma merge_run_start heap0 count : merge_run_inv heap0 count [] (heap0, []).
Proof.
  split; [apply merge_inv_start|]. split; [|split; [|split]].
  - split; cbn; [constructor|lia].
  - intros k r [].
  - cbn. constructor.
  - intros i c [].
Qed.

Lemma merge_run heap0 count l heap' merged :
  NoDup l ->
  for_state (merge_step count) l (heap0, []) = ((heap', merged), Ok tt) ->
  merge_run_inv heap0 count l (heap', merged).
Proof.
  intros Hnd H.
  exact (for_state_prefix (merge_step count) (merge_run_inv heap0 count)
           (fun pre x s s' Hx HI Hs => merge_step_keeps_run heap0 count pre s x s' Hx HI Hs)
           l [] (heap0, []) (heap', merged) Hnd (merge_run_start heap0 count) H).
Qed.


Lemma merged_run_of_call self count self' refs :
  count <= chaptered_count (VideoHeatmap.heatmaps self) ->
  most_intense_heatmaps self true count = (self', Ok refs) ->
  exists sorted_heatmaps merged,
    sorted_heatmaps ≡ₚ seq 0 (length (VideoHeatmap.heatmaps self))
    /\ StronglySorted (ranked_before (intensity_key (VideoHeatmap.heatmaps self)))
                      sorted_heatmaps
    /\ refs = dict_values merged
    /\ merge_run_inv (VideoHeatmap.heatmaps self) count sorted_heatmaps
                     (VideoHeatmap.heatmaps self', merged).
Proof.
  intros Hcount H.
  apply most_intense_heatmaps_inv in H
    as (sorted_heatmaps & Hs & [([Hm|Hlt] & _)|(_ & _ & heap' & merged & Hloop & -> & ->)]);
    [discriminate| |].
  - pose proof (sorted_reverse_perm _ _ _ Hs) as Hp.
    rewrite (chaptered_sorted _ _ Hp) in Hlt. lia.
  - pose proof (sorted_heatmaps_ranked _ _ Hs) as [Hp Hsorted].
    exists sorted_heatmaps, merged. split; [exact Hp|]. split; [exact Hsorted|].
    split; [reflexivity|]. cbn [VideoHeatmap.heatmaps].
    apply merge_run; [|exact Hloop].
    rewrite Hp. apply NoDup_seq.
Qed.



(** X22: when at least [count] heatmaps have a chapter, each heatmap that
    a merging call of [most_intense_heatmaps] returns covers, as the call
    leaves it, every heatmap of the receiver with the same chapter title as it
    was before the call: it starts no later and ends no earlier. *)
Theorem merged_heatmap_covers_its_title self count self' refs r i c c' :
  count <= chaptered_count (VideoHeatmap.heatmaps self) ->
  most_intense_heatmaps self true count = (self', Ok refs) ->
  In r refs ->
  (i < length (VideoHeatmap.heatmaps self))%nat ->
  Heatmap.chapter (VideoHeatmap.heatmaps self !!! r) = Some c ->
  Heatmap.chapter (VideoHeatmap.heatmaps self !!! i) = Some c' ->
  Chapter.title c' = Chapter.title c ->
  covers (VideoHeatmap.heatmaps self' !!! r) (VideoHeatmap.heatmaps self !!! i).
Proof.
  intros Hcount H Hr Hi Hc Hc' Ht.
  destruct (merged_run_of_call _ _ _ _ Hcount H)
    as (sorted_heatmaps & merged & Hp & Hsorted & -> & Hinv & Hadm & Htit & Hsub & Hcov).
  cbn [fst snd] in *. destruct Hadm as [Hnd _]. cbn [snd] in Hnd.
  unfold dict_values in Hr. apply in_map_iff in Hr as ([k r'] & Hrr & Hin).
  cbn in Hrr. subst r'.
  destruct (Htit k r Hin) as (c1 & Hc1 & Hk).
  assert (Heatmap.chapter (VideoHeatmap.heatmaps self' !!! r)
          = Heatmap.chapter (VideoHeatmap.heatmaps self !!! r)) as Hsame.
  { destruct Hinv as (_ & Hwid & _). cbn in Hwid. destruct (Hwid r) as (E & _). exact E. }
  assert (c1 = c) by congruence. subst c1.
  pose proof (dict_get_unique _ _ _ Hnd Hin) as Hget.
  assert (In i sorted_heatmaps) as Hseen.
  { apply list_elem_of_In. rewrite Hp. apply elem_of_seq. lia. }
  specialize (Hcov i c' Hseen Hc'). rewrite Ht, Hk, Hget in Hcov. exact Hcov.
Qed.

Lemma merged_intro_covers_second_heatmap :
  covers
    (VideoHeatmap.heatmaps (fst (most_intense_heatmaps two_intro_heatmaps true 1))
       !!! 0%nat)
    (VideoHeatmap.heatmaps two_intro_heatmaps !!! 1%nat).
Proof.
  apply (merged_heatmap_covers_its_title two_intro_heatmaps 1
           (fst (most_intense_heatmaps two_intro_heatmaps true 1)) [0%nat]
           0%nat 1%nat (chapter_at "Intro" 0 60) (chapter_at "Intro" 0 60)).
  - unfold chaptered_count. simpl. lia.
  - vm_compute. reflexivity.
  - left. reflexivity.
  - simpl. lia.
  - reflexivity.
  - reflexivity.
  - reflexivity.
Defined.

(** * Properties of the commands *)

Lemma str_eqb_false a b : a <> b -> str_eqb a b = false.
Proof.
  intros H. destruct (str_eqb a b) eqn:E; [|reflexivity].
  apply str_eqb_eq in E. contradiction.
Qed.

Lemma parse_align_unknown name :
  name <> [] -> (forall a, name <> align_name a) ->
  parse_align (Some name) = Raise KeyError.
Proof.
  intros Hne Hall. unfold parse_align.
  destruct name as [|c name]; [contradiction|].
  rewrite (str_eqb_false (c :: name) (str_of "left") (Hall ClipAlign.left)).
  rewrite (str_eqb_false (c :: name) (str_of "center") (Hall ClipAlign.center)).
  rewrite (str_eqb_false (c :: name) (str_of "right") (Hall ClipAlign.right)).
  reflexivity.
Qed.

Lemma requested_length {turn : Chapter.t -> result subclip} chapters :
  (length (fst (requested turn chapters)) <= length chapters)%nat.
Proof.
  induction chapters as [|c chapters IH]; cbn [requested]; [cbn; lia|].
  destruct (turn c); [|cbn; lia].
  destruct (requested turn chapters) as [clips ending]. cbn in *. lia.
Qed.

Lemma requested_from_length (turn : nat -> Heatmap.t -> nat * attempt subclip) heatmaps :
  forall n, (length (fst (requested_from turn n heatmaps)) <= length heatmaps)%nat.
Proof.
  induction heatmaps as [|h heatmaps IH]; intros n; cbn [requested_from]; [cbn; lia|].
  destruct (turn n h) as [n' [clip| |]]; try (cbn; lia).
  specialize (IH n').
  destruct (requested_from turn n' heatmaps) as [clips ending]. cbn in *. lia.
Qed.

Lemma length_omap_le {A B} (f : A -> option B) l : (length (omap f l) <= length l)%nat.
Proof.
  induction l as [|x l IH]; cbn; [lia|]. destruct (f x); cbn; lia.
Qed.

Section CommandFacts.

Variable isspace : N -> bool.
Variable isalnum : N -> bool.
Variable uuid4 : nat -> str.

(** X23: an alignment that is not empty and is not one of the names
    [left], [center] and [right], written so, ends both commands with
    [KeyError] before any clip is requested. *)
Theorem unknown_alignment_stops_commands video marker_data clip_length name
    clip_count most_intense :
  name <> [] -> (forall a, name <> align_name a) ->
  clip_heatmap uuid4 video marker_data clip_length (Some name) clip_count most_intense
  = ([], Raises KeyError)
  /\ clip_chapters isspace isalnum video marker_data clip_length (Some name)
       clip_count most_intense
     = ([], Raise KeyError).
Proof.
  intros Hne Hall. unfold clip_heatmap, clip_chapters.
  rewrite (parse_align_unknown name Hne Hall). split; reflexivity.
Qed.

(** X24: [clip_chapters] requests clips only when it is given a clip count
    other than 0 together with the most-intense flag.  In every other case it
    requests none and raises: the exception of the alignment or of the parser
    if there is one, and else the [NameError] of the [chapters] property. *)
Theorem clip_chapters_needs_most_intense video marker_data clip_length align
    clip_count most_intense :
  clip_count = None \/ clip_count = Some 0
  \/ most_intense = None \/ most_intense = Some false ->
  clip_chapters isspace isalnum video marker_data clip_length align clip_count most_intense
  = ([], Raise match parse_align align with
               | Raise e => e
               | Ok _ =>
                   match get_video_heatmap marker_data video with
                   | Raise e => e
                   | Ok _ => NameError
                   end
               end).
Proof.
  intros H. unfold clip_chapters.
  destruct (parse_align align) as [a|e]; [|reflexivity].
  destruct (get_video_heatmap marker_data video) as [vh|e]; [|reflexivity].
  assert (match count_given clip_count with
          | Some count =>
              if flag_given most_intense
              then snd (most_intense_chapters vh false count)
              else all ← chapters module_video_heatmap vh; Ok (slice_to all count)
          | None => chapters module_video_heatmap vh
          end = Raise NameError) as ->; [|reflexivity].
  unfold count_given, length_given.
  destruct H as [-> | [-> | [-> | ->]]]; try reflexivity.
  - destruct clip_count as [c|]; [|reflexivity].
    destruct (c =? 0); reflexivity.
  - destruct clip_count as [c|]; [|reflexivity].
    destruct (c =? 0); reflexivity.
Qed.

(** X25: given a positive clip count, neither command requests more clips
    than the count, with or without the most-intense flag and however the run
    ends. *)
Theorem commands_request_at_most_clip_count video marker_data clip_length align
    count most_intense :
  0 < count ->
  Z.of_nat (length (fst (clip_heatmap uuid4 video marker_data clip_length align
                           (Some count) most_intense))) <= count
  /\ Z.of_nat (length (fst (clip_chapters isspace isalnum video marker_data clip_length
                              align (Some count) most_intense))) <= count.
Proof.
  intros Hc.
  assert (count_given (Some count) = Some count) as Hg.
  { unfold count_given, length_given. destruct (Z.eqb_spec count 0); [lia|reflexivity]. }
  split.
  - unfold clip_heatmap. rewrite Hg.
    destruct (parse_align align) as [a|e]; [|cbn; lia].
    destruct (get_video_heatmap marker_data video) as [vh|e]; [|cbn; lia].
    destruct (flag_given most_intense).
    + destruct (most_intense_heatmaps vh false count) as [vh' [refs|e]] eqn:E;
        cbn [mbind result_bind]; [|cbn; lia].
      apply most_intense_heatmaps_inv in E
        as (sorted_heatmaps & _ & [(_ & _ & ->)|(Hm & _)]); [|discriminate].
      unfold generate_heatmap_clips.
      pose proof (requested_from_length (generate_heatmap_clip uuid4 video a clip_length)
                    (deref vh' (slice_to sorted_heatmaps count)) 0%nat) as Hl.
      unfold deref in Hl at 2. rewrite length_map in Hl.
      pose proof (length_slice_to sorted_heatmaps count ltac:(lia)). lia.
    + unfold generate_heatmap_clips.
      pose proof (requested_from_length (generate_heatmap_clip uuid4 video a clip_length)
                    (slice_to (VideoHeatmap.heatmaps vh) count) 0%nat) as Hl.
      pose proof (length_slice_to (VideoHeatmap.heatmaps vh) count ltac:(lia)). lia.
  - unfold clip_chapters. rewrite Hg.
    destruct (parse_align align) as [a|e]; [|cbn; lia].
    destruct (get_video_heatmap marker_data video) as [vh|e]; [|cbn; lia].
    destruct (flag_given most_intense).
    + unfold most_intense_chapters.
      destruct (most_intense_heatmaps vh false count) as [vh' [refs|e]] eqn:E;
        cbn [snd mbind result_bind]; [|cbn; lia].
      apply most_intense_heatmaps_inv in E
        as (sorted_heatmaps & _ & [(_ & _ & ->)|(Hm & _)]); [|discriminate].
      unfold generate_chapter_clips.
      pose proof (@requested_length (generate_chapter_clip isspace isalnum video a clip_length)
                    (omap Heatmap.chapter (deref vh' (slice_to sorted_heatmaps count)))) as Hl.
      pose proof (length_omap_le Heatmap.chapter (deref vh' (slice_to sorted_heatmaps count))) as Ho.
      unfold deref in Ho at 2. rewrite length_map in Ho.
      pose proof (length_slice_to sorted_heatmaps count ltac:(lia)). lia.
    + cbn. lia.
Qed.

End CommandFacts.

Lemma capitalised_left_is_refused :
  clip_heatmap token video_180s three_chapter_markers None (Some (str_of "Left"))
    None None
  = ([], Raises KeyError)
  /\ clip_chapters ascii_isspace ascii_isalnum video_180s three_chapter_markers None
       (Some (str_of "Left")) None None
     = ([], Raise KeyError).
Proof.
  apply (unknown_alignment_stops_commands ascii_isspace ascii_isalnum token video_180s
           three_chapter_markers None (str_of "Left") None None).
  - vm_compute. discriminate.
  - intros a. destruct a; vm_compute; discriminate.
Defined.

Lemma clip_chapters_of_all_chapters_raises :
  clip_chapters ascii_isspace ascii_isalnum video_180s three_chapter_markers None None
    None None
  = ([], Raise match parse_align None with
               | Raise e => e
               | Ok _ =>
                   match get_video_heatmap three_chapter_markers video_180s with
                   | Raise e => e
                   | Ok _ => NameError
                   end
               end).
Proof.
  apply (clip_chapters_needs_most_intense ascii_isspace ascii_isalnum video_180s
           three_chapter_markers None None None None).
  left. reflexivity.
Defined.

Lemma one_clip_for_count_one :
  Z.of_nat (length (fst (clip_heatmap token video_180s three_chapter_markers None None
                           (Some 1) (Some true)))) <= 1
  /\ Z.of_nat (length (fst (clip_chapters ascii_isspace ascii_isalnum video_180s
                              three_chapter_markers None None (Some 1) (Some true)))) <= 1.
Proof.
  apply (commands_request_at_most_clip_count ascii_isspace ascii_isalnum token video_180s
           three_chapter_markers None None 1 (Some true)).
  lia.
Defined.

(** * Properties of the search for the initial data *)

Lemma starts_with_spec needle s :
  starts_with needle s = true <-> take (length needle) s = needle.
Proof.
  revert s. induction needle as [|a needle IH]; intros s; cbn.
  - split; reflexivity.
  - destruct s as [|b s]; cbn.
    + split; discriminate.
    + rewrite andb_true_iff, N.eqb_eq, IH. split.
      * intros [-> ->]. reflexivity.
      * intros [= -> H]. split; [reflexivity|exact H].
Qed.

Lemma find_first needle before after :
  (forall i, (i < length before)%nat -> ~ occurs_at needle (before ++ needle ++ after) i) ->
  find needle (before ++ needle ++ after) = Some (before, after).
Proof.
  induction before as [|c before IH]; intros H.
  - cbn [app]. 
    assert (starts_with needle (needle ++ after) = true) as Hs.
    { apply starts_with_spec. apply take_app_length. }
    destruct needle as [|a needle].
    + cbn. destruct after; reflexivity.
    + cbn [find app]. cbn [app] in Hs. rewrite Hs.
      f_equal. f_equal. change (a :: needle ++ after) with ((a :: needle) ++ after).
      apply drop_app_length.
  - assert (starts_with needle ((c :: before) ++ needle ++ after) = false) as Hs.
    { apply not_true_is_false. intros Hs. apply starts_with_spec in Hs.
      apply (H 0%nat); [cbn; lia|exact Hs]. }
    cbn [app] in *. cbn [find]. rewrite Hs.
    rewrite IH; [reflexivity|].
    intros i Hi. specialize (H (S i) ltac:(cbn; lia)). exact H.
Qed.

Lemma find_none needle s :
  (forall i, ~ occurs_at needle s i) -> find needle s = None.
Proof.
  induction s as [|c s IH]; intros H.
  - assert (starts_with needle [] = false) as Hs.
    { apply not_true_is_false. intros Hs. apply starts_with_spec in Hs. exact (H 0%nat Hs). }
    cbn [find]. rewrite Hs. reflexivity.
  - assert (starts_with needle (c :: s) = false) as Hs.
    { apply not_true_is_false. intros Hs. apply starts_with_spec in Hs. exact (H 0%nat Hs). }
    cbn [find]. rewrite Hs. rewrite IH; [reflexivity|].
    intros i Hi. exact (H (S i) Hi).
Qed.

Section InitialDataFacts.

Variable json : Type.
Variable json_loads : str -> attempt json.

(** X26: [get_initial_data] hands to [json.loads] the text between the
    first [var ytInitialData = ] of the page and the first [;<] that follows
    it, and returns what [json.loads] returns.  The text handed over stops at
    that [;<] even where the data goes on. *)
Theorem get_initial_data_reads_first_match (before data after : str) :
  (forall i, (i < length before)%nat ->
             ~ occurs_at (str_of "var ytInitialData = ")
                 (before ++ str_of "var ytInitialData = " ++ data ++ str_of ";<" ++ after)
                 i) ->
  (forall i, (i < length data)%nat ->
             ~ occurs_at (str_of ";<") (data ++ str_of ";<" ++ after) i) ->
  get_initial_data json json_loads
    (before ++ str_of "var ytInitialData = " ++ data ++ str_of ";<" ++ after)
  = json_loads data.
Proof.
  intros Hlit Hend.
  unfold get_initial_data, search_initial_data.
  rewrite (find_first (str_of "var ytInitialData = ") before
             (data ++ str_of ";<" ++ after) Hlit).
  rewrite (find_first (str_of ";<") data after Hend).
  reflexivity.
Qed.

(** X27: on a page in which [var ytInitialData = ] stands nowhere,
    [get_initial_data] raises [AttributeError] and [json.loads] is not
    called. *)
Theorem get_initial_data_without_match (html_content : str) :
  (forall i, ~ occurs_at (str_of "var ytInitialData = ") html_content i) ->
  get_initial_data json json_loads html_content = RaisesAttributeError.
Proof.
  intros H. unfold get_initial_data, search_initial_data.
  rewrite (find_none _ _ H). reflexivity.
Qed.

End InitialDataFacts.

Lemma initial_data_of_page_with_data :
  get_initial_data str Returns page_with_data = Returns (str_of "{}").
Proof.
  unfold page_with_data.
  apply (get_initial_data_reads_first_match str Returns
           (str_of "<script>") (str_of "{}") (str_of "/script>")).
  - intros i Hi.
    do 8 (destruct i as [|i]; [vm_compute; discriminate|]).
    vm_compute in Hi. lia.
  - intros i Hi.
    do 2 (destruct i as [|i]; [vm_compute; discriminate|]).
    vm_compute in Hi. lia.
Defined.

Lemma initial_data_of_page_without_data :
  get_initial_data str Returns (str_of "x") = RaisesAttributeError.
Proof.
  apply (get_initial_data_without_match str Returns (str_of "x")).
  intros i. destruct i as [|[|i]]; vm_compute; discriminate.
Defined.
